(** * PackMoveGo: the resilient API client of [service.apiSW.ts]

    A shallow embedding of the client-side API wrapper and of the home page
    cache, with the properties of the specification stated against it.

    Conventions.
    - Times are milliseconds since the epoch, as returned by [Date.now()],
      modelled in [Z]; every function that reads the clock takes the value
      read as an argument [now].
    - JavaScript [Map<string, _>] and [Set<string>] are [gmap string _] and
      [gset string].
    - A promise is named by a natural number; the registry of pending
      requests maps a request key to the name of the promise it holds, so
      that two callers holding the same name hold the same promise object.
    - What the network answers is an input of the model, never computed. *)

From Stdlib Require Import ZArith QArith Qminmax Lqa Ascii String List Lia.
From stdpp Require Import base decidable option list gmap strings pretty.
Import ListNotations.

Local Open Scope Z_scope.
Local Open Scope string_scope.

(* ===================================================================== *)
(** * JavaScript values the client manipulates *)
(* ===================================================================== *)

Module Js.

(** [String.prototype.toLowerCase], on the ASCII letters. *)
Definition lower_ascii (c : ascii) : ascii :=
  let n := nat_of_ascii c in
  if ((65 <=? n)%nat && (n <=? 90)%nat)%bool then ascii_of_nat (n + 32) else c.

Fixpoint toLowerCase (s : string) : string :=
  match s with
  | EmptyString => EmptyString
  | String c s' => String (lower_ascii c) (toLowerCase s')
  end.

(** [hay.includes(needle)]: [needle] occurs in [hay] as a substring. *)
Fixpoint includes (hay needle : string) : bool :=
  if String.prefix needle hay then true
  else match hay with
       | EmptyString => false
       | String _ hay' => includes hay' needle
       end.

(** The class of a thrown value.  [NotAnError] is any thrown value that
    fails [instanceof Error] (for instance [undefined]). *)
Inductive ErrorClass : Type :=
| PlainError
| TypeError
| SyntaxError
| ReferenceError
| NotAnError.

(** A thrown value with the ad-hoc properties the client attaches to it
    ([(error as any).statusCode = 503], [.is503Error = true], ...). *)
Record Error : Type := mkError {
  e_class : ErrorClass;
  e_message : string;
  e_statusCode : option Z;
  e_is503Error : bool;
  e_isConsentBlocked : bool;
  e_isGlobalBlock : bool;
  e_isCircuitBreaker : bool;
  e_isConnectionError : bool
}.

(** [new Error(msg)] with no extra property. *)
Definition newError (msg : string) : Error :=
  mkError PlainError msg None false false false false false.

(** The value [undefined] when it is thrown. *)
Definition thrownUndefined : Error :=
  mkError NotAnError "" None false false false false false.

Definition instanceofError (e : Error) : bool :=
  match e_class e with NotAnError => false | _ => true end.

Definition instanceofTypeError (e : Error) : bool :=
  match e_class e with TypeError => true | _ => false end.

(** A parsed JSON document ([response.json()]); numbers are the integers. *)
#[warnings="-register-all"] Inductive Json : Type :=
| JNull
| JBool (b : bool)
| JNum (n : Z)
| JStr (s : string)
| JArr (items : list Json)
| JObj (fields : list (string * Json)).

(** [obj[key]] on a parsed object: [None] is [undefined].  When a key is
    repeated in the document, [JSON.parse] keeps the last value. *)
Fixpoint field (key : string) (fields : list (string * Json)) : option Json :=
  match fields with
  | [] => None
  | (k, v) :: rest =>
      match field key rest with
      | Some v' => Some v'
      | None => if String.eqb k key then Some v else None
      end
  end.

(** JavaScript truthiness of a JSON value. *)
Definition truthy (j : Json) : bool :=
  match j with
  | JNull => false
  | JBool b => b
  | JNum n => negb (Z.eqb n 0)
  | JStr s => negb (String.eqb s "")
  | JArr _ | JObj _ => true
  end.

(** How an asynchronous operation ends. *)
Inductive Outcome (T : Type) : Type :=
| Resolved (v : T)
| Rejected (e : Error).
Arguments Resolved {T} v.
Arguments Rejected {T} e.

End Js.

(* ===================================================================== *)
(** * Retry engine: [RETRY_CONFIG], [isRetryableError], [retryWithBackoff] *)
(* ===================================================================== *)

Module Retry.
Import Js.

Definition maxRetries : nat := 3.
Definition baseDelay : Z := 1000.
Definition maxDelay : Z := 10000.
Definition retryableStatusCodes : list Z := [503; 502; 504; 0].
Definition retryableErrors : list string :=
  ["Failed to fetch"; "ERR_CONNECTION_REFUSED"; "ERR_NETWORK"; "timeout"].

Section WithErrorUtils.

(** [isConnectionError] is imported from [../util/errorUtils], which is
    not part of the sources at hand: it is a parameter. *)
Variable isConnectionError : Error -> bool.

(** [(error as any)?.statusCode && codes.includes(statusCode)]: a status
    code of [0] is falsy, so the conjunction is falsy before the list is
    consulted. *)
Definition hasRetryableStatus (e : Error) : bool :=
  match e_statusCode e with
  | None => false
  | Some c => if Z.eqb c 0 then false
              else existsb (Z.eqb c) retryableStatusCodes
  end.

Definition hasRetryableMessage (e : Error) : bool :=
  let errorMessage := toLowerCase (e_message e) in
  existsb (fun msg => includes errorMessage (toLowerCase msg)) retryableErrors.

Definition isRetryableError (e : Error) : bool :=
  if negb (instanceofError e) then false
  else (hasRetryableMessage e || hasRetryableStatus e || isConnectionError e)%bool.

End WithErrorUtils.

(** What the loop does that an observer can see: it calls [fn], or it
    sleeps [setTimeout(resolve, delay)]. *)
Inductive Event : Type :=
| Attempt (attempt : nat)
| Sleep (delay : Q).

(** ** The arithmetic of the delay

    JavaScript numbers are IEEE 754 doubles.  A double that is not
    negative is a rational number, and a product or a sum of two of them
    is the double nearest to the exact result, the one with the even
    mantissa of two that are equally near. *)

(** [floor (log2 q)], for [q > 0]. *)
Definition exponent (q : Q) : Z :=
  let n := Qnum q in
  let d := Zpos (Qden q) in
  let e := (Z.log2 n - Z.log2 d)%Z in
  if (2 ^ Z.log2 n * d <=? n * 2 ^ Z.log2 d)%Z then e else (e - 1)%Z.

(** The integer nearest to [n / d], the even one of two. *)
Definition roundHalfEven (n d : Z) : Z :=
  let f := (n / d)%Z in
  let r := (n mod d)%Z in
  if (2 * r <? d)%Z then f
  else if (d <? 2 * r)%Z then (f + 1)%Z
  else if Z.even f then f else (f + 1)%Z.

(** The double nearest to [q], for [0 <= q] below the largest double.
    The doubles around [q] are the multiples of [2^(-k)], where [k] is 52
    less the exponent of [q], or less -1022 for a subnormal [q]. *)
Definition roundDouble (q : Q) : Q :=
  let n := Qnum q in
  let d := Zpos (Qden q) in
  let k := (52 - Z.max (exponent q) (-1022))%Z in
  if (0 <=? k)%Z
  then Qmake (roundHalfEven (n * 2 ^ k) d) (Z.to_pos (2 ^ k))
  else inject_Z (roundHalfEven n (d * 2 ^ (- k)) * 2 ^ (- k)).

(** The largest double below 1: [Math.random()] is at most this. *)
Definition maxRandom : Q := (9007199254740991 # 9007199254740992)%Q.

(** [Math.min(baseDelay + jitter, maxDelay)] where
    [baseDelay = RETRY_CONFIG.baseDelay * Math.pow(2, attempt)] and
    [jitter = Math.random() * 1000]; [random] is the number drawn.  The
    two products and the sum are rounded. *)
Definition backoffDelay (attempt : nat) (random : Q) : Q :=
  let base := roundDouble (inject_Z baseDelay * inject_Z (2 ^ Z.of_nat attempt)) in
  let jitter := roundDouble (random * 1000) in
  Qmin (roundDouble (base + jitter)) (inject_Z maxDelay).

Section Loop.
Context {T : Type}.
Variable isConnectionError : Error -> bool.
(** [fn i] is how the call of [fn] made by attempt [i] ends; [random i]
    is the number [Math.random()] returns in attempt [i]. *)
Variable fn : nat -> Outcome T.
Variable random : nat -> Q.
Variable maxRetries' : nat.

(** The [for] loop, [remaining] iterations before [attempt] exceeds
    [maxRetries'].  When the loop runs out, [throw lastError!]. *)
Fixpoint loop (remaining attempt : nat) (lastError : option Error)
  : Outcome T * list Event :=
  match remaining with
  | O => (Rejected (default thrownUndefined lastError), [])
  | S remaining' =>
      match fn attempt with
      | Resolved v => (Resolved v, [Attempt attempt])
      | Rejected error =>
          let isRetryable := isRetryableError isConnectionError error in
          if (negb isRetryable || Nat.eqb attempt maxRetries')%bool then
            (Rejected error, [Attempt attempt])
          else
            let delay := backoffDelay attempt (random attempt) in
            let '(r, evs) := loop remaining' (S attempt) (Some error) in
            (r, Attempt attempt :: Sleep delay :: evs)
      end
  end.

Definition retryWithBackoff : Outcome T * list Event :=
  loop (S maxRetries') 0%nat None.

End Loop.

(** Attempt [i] fails with an error that [isRetryableError] accepts. *)
Definition failsRetryably {T : Type} (isConnectionError : Error -> bool)
    (fn : nat -> Outcome T) (i : nat) : Prop :=
  ∃ e, fn i = Rejected e ∧ isRetryableError isConnectionError e = true.

Fixpoint attempts (evs : list Event) : nat :=
  match evs with
  | [] => 0%nat
  | Attempt _ :: evs' => S (attempts evs')
  | Sleep _ :: evs' => attempts evs'
  end.

Fixpoint delays (evs : list Event) : list Q :=
  match evs with
  | [] => []
  | Attempt _ :: evs' => delays evs'
  | Sleep d :: evs' => d :: delays evs'
  end.

(** The delay slept after attempt [n], for every [n] below [k]. *)
Definition delaysUpTo (random : nat -> Q) (k : nat) : list Q :=
  map (fun n => backoffDelay n (random n)) (seq 0 k).

End Retry.


(* ===================================================================== *)
(** * The API client: state of [APIsw] and of the module around it *)
(* ===================================================================== *)

Module ApiSW.
Import Js.

Definition HEALTH : string := "/v0/health".

(** ** Request identity *)

(** [RequestInit], as far as the client reads it. *)
Record RequestInit : Type := mkInit {
  method : option string;
  body : option string
}.

Definition noOptions : RequestInit := mkInit None None.

Definition hexDigit (n : nat) : ascii :=
  ascii_of_nat (if (n <? 10)%nat then 48 + n else 87 + n).

(** [JSON.stringify] of one character of a string. *)
Definition escapeChar (c : ascii) : string :=
  let n := nat_of_ascii c in
  if (n =? 8)%nat then "\b"
  else if (n =? 9)%nat then "\t"
  else if (n =? 10)%nat then "\n"
  else if (n =? 12)%nat then "\f"
  else if (n =? 13)%nat then "\r"
  else if (n =? 34)%nat then String "\" (String c "")
  else if (n =? 92)%nat then "\\"
  else if (n <? 32)%nat then
    "\u00" ++ String (hexDigit (n / 16)) (String (hexDigit (n mod 16)) "")
  else String c "".

Fixpoint escapeString (s : string) : string :=
  match s with
  | EmptyString => EmptyString
  | String c s' => escapeChar c ++ escapeString s'
  end.

(** The double quote character. *)
Definition quote : ascii := ascii_of_nat 34.

(** [JSON.stringify(s)] for a string [s]. *)
Definition stringify (s : string) : string :=
  String quote (escapeString s ++ String quote EmptyString).

(** [options.method || 'GET'] and [options.body ? JSON.stringify(options.body) : '']:
    the empty string is falsy in both places. *)
Definition getRequestKey (endpoint : string) (options : RequestInit) : string :=
  let method' := match method options with
                 | Some m => if String.eqb m "" then "GET" else m
                 | None => "GET"
                 end in
  let body' := match body options with
               | Some b => if String.eqb b "" then "" else stringify b
               | None => ""
               end in
  method' ++ ":" ++ endpoint ++ ":" ++ body'.

(** ** State *)

(** [modalState]; the [onClose] callback is named by a number. *)
Record ModalState : Type := mkModalState {
  isVisible : bool;
  m_failedEndpoints : list string;
  m_is503Error : bool;
  onClose : option nat
}.

(** The failure notifier: [modalState], [lastModalShowTime], and how many
    times [notifyModalStateListeners] has run. *)
Record Modal : Type := mkModal {
  modalState : ModalState;
  lastModalShowTime : Z;
  notifications : nat
}.

Record HealthGate : Type := mkHealthGate {
  apiIsDown : bool;
  healthCheckInProgress : bool;
  lastHealthCheckTime : Z
}.

Record Breaker : Type := mkBreaker {
  failedEndpoints : gset string;
  endpointFailureTimes : gmap string Z
}.

Record GlobalBlock : Type := mkGlobalBlock {
  globalRequestBlocked : bool;
  globalBlockTime : Z
}.

(** [pendingRequests] and [requestTimeouts] of the instance.  A timer
    handle is a number; [timers] is the browser's table of armed timers,
    each with the key its callback deletes and the time it is due;
    [onSettle] holds the [finally] callbacks, by promise. *)
Record Registry : Type := mkRegistry {
  pendingRequests : gmap string nat;
  requestTimeouts : gmap string nat;
  timers : gmap nat (string * Z);
  nextTimer : nat;
  onSettle : gmap nat string
}.

(** What the client hands to the network layer.  [HealthRequest] is a
    request of [checkHealth].  [RequestStarted] is the call that
    [makeRequestInternal] makes of [executeRequestWithRetry], or
    [makePublicRequestInternal] of [executePublicRequest], with the
    promise it registers.  [executePublicRequest] calls [fetch] before it
    returns; [executeRequestWithRetry] goes through the registry and the
    throttle of [executeRequestWithDeduplication], and for a critical
    endpoint through [retryWithBackoff]: it may reuse a fetch that is
    pending there, wait a second before it fetches, or fetch up to four
    times. *)
Inductive NetEvent : Type :=
| HealthRequest
| RequestStarted (isPublic : bool) (endpoint : string) (promise : nat).

Record State : Type := mkState {
  global503Status : bool;
  isApiBlocked : bool;
  modal : Modal;
  health : HealthGate;
  breaker : Breaker;
  block : GlobalBlock;
  registry : Registry;
  pageApiCalls : list string;
  nextPromise : nat;
  network : list NetEvent
}.

Definition modalCooldown : Z := 5000.
Definition healthCheckCooldown : Z := 30000.
Definition endpointCooldown : Z := 60000.
Definition globalBlockCooldown : Z := 30000.
Definition pendingTimeout : Z := 30000.

Definition hiddenModal : ModalState := mkModalState false [] false None.

(** The state after the constructor of [APIsw] has run. *)
Definition init : State :=
  mkState false false
    (mkModal hiddenModal 0 0)
    (mkHealthGate false false 0)
    (mkBreaker ∅ ∅)
    (mkGlobalBlock false 0)
    (mkRegistry ∅ ∅ ∅ 1 ∅)
    [] 0 [].

Definition with_global503Status (v : bool) (s : State) : State :=
  mkState v (isApiBlocked s) (modal s) (health s) (breaker s) (block s)
    (registry s) (pageApiCalls s) (nextPromise s) (network s).
Definition with_isApiBlocked (v : bool) (s : State) : State :=
  mkState (global503Status s) v (modal s) (health s) (breaker s) (block s)
    (registry s) (pageApiCalls s) (nextPromise s) (network s).
Definition with_modal (v : Modal) (s : State) : State :=
  mkState (global503Status s) (isApiBlocked s) v (health s) (breaker s) (block s)
    (registry s) (pageApiCalls s) (nextPromise s) (network s).
Definition with_health (v : HealthGate) (s : State) : State :=
  mkState (global503Status s) (isApiBlocked s) (modal s) v (breaker s) (block s)
    (registry s) (pageApiCalls s) (nextPromise s) (network s).
Definition with_breaker (v : Breaker) (s : State) : State :=
  mkState (global503Status s) (isApiBlocked s) (modal s) (health s) v (block s)
    (registry s) (pageApiCalls s) (nextPromise s) (network s).
Definition with_block (v : GlobalBlock) (s : State) : State :=
  mkState (global503Status s) (isApiBlocked s) (modal s) (health s) (breaker s) v
    (registry s) (pageApiCalls s) (nextPromise s) (network s).
Definition with_registry (v : Registry) (s : State) : State :=
  mkState (global503Status s) (isApiBlocked s) (modal s) (health s) (breaker s)
    (block s) v (pageApiCalls s) (nextPromise s) (network s).
Definition with_pageApiCalls (v : list string) (s : State) : State :=
  mkState (global503Status s) (isApiBlocked s) (modal s) (health s) (breaker s)
    (block s) (registry s) v (nextPromise s) (network s).
Definition with_nextPromise (v : nat) (s : State) : State :=
  mkState (global503Status s) (isApiBlocked s) (modal s) (health s) (breaker s)
    (block s) (registry s) (pageApiCalls s) v (network s).
Definition with_network (v : list NetEvent) (s : State) : State :=
  mkState (global503Status s) (isApiBlocked s) (modal s) (health s) (breaker s)
    (block s) (registry s) (pageApiCalls s) (nextPromise s) v.

(** ** Small operations *)

Definition setGlobal503Status (status : bool) (s : State) : State :=
  with_global503Status status s.

Definition isApiGlobally503 (s : State) : bool := global503Status s.

Definition resetGlobal503Status (s : State) : State :=
  setGlobal503Status false s.

Definition setApiBlocked (isBlocked : bool) (s : State) : State :=
  with_isApiBlocked isBlocked s.

(** [checkConsentMiddleware]: [Some error] is the error it throws. *)
Definition consentError : Error :=
  mkError PlainError
    "503 Service Unavailable: API calls blocked due to cookie consent - user must opt in first"
    (Some 503) true true false false false.

Definition checkConsentMiddleware (s : State) : option Error :=
  if isApiBlocked s then Some consentError else None.

(** [trackApiCall]: push unless already there. *)
Definition trackApiCall (endpoint : string) (s : State) : State :=
  if existsb (String.eqb endpoint) (pageApiCalls s) then s
  else with_pageApiCalls (pageApiCalls s ++ [endpoint]) s.

(** ** Failure notifier *)

(** [Array.from(new Set(xs))]: first occurrences, in order. *)
Fixpoint arrayFromSet (seen xs : list string) : list string :=
  match xs with
  | [] => []
  | x :: xs' =>
      if existsb (String.eqb x) seen then arrayFromSet seen xs'
      else x :: arrayFromSet (x :: seen) xs'
  end.

Definition showApiFailureModal (now : Z) (failed : list string)
    (is503Error : bool) (onClose' : option nat) (s : State) : State :=
  let m := modal s in
  if isVisible (modalState m) then s
  else if (now - lastModalShowTime m <? modalCooldown)%Z then s
  else
    let pageSpecificEndpoints := arrayFromSet [] failed in
    with_modal
      (mkModal (mkModalState true pageSpecificEndpoints is503Error onClose')
               now (S (notifications m))) s.

Definition hideApiFailureModal (s : State) : State :=
  let m := modal s in
  with_modal (mkModal hiddenModal (lastModalShowTime m) (S (notifications m))) s.

Definition getModalState (s : State) : ModalState := modalState (modal s).

(** ** Circuit breaker and global block *)

(** [isEndpointInCircuitBreaker]; it deletes the mark once the cooldown
    has passed, so it returns the state too. *)
Definition isEndpointInCircuitBreaker (now : Z) (endpoint : string)
    (s : State) : bool * State :=
  let b := breaker s in
  if negb (bool_decide (endpoint ∈ failedEndpoints b)) then (false, s)
  else
    let failureTime := default 0 (endpointFailureTimes b !! endpoint) in
    if (now - failureTime >? endpointCooldown)%Z then
      (false, with_breaker
                (mkBreaker (failedEndpoints b ∖ {[endpoint]})
                           (delete endpoint (endpointFailureTimes b))) s)
    else (true, s).

Definition addEndpointToCircuitBreaker (now : Z) (endpoint : string)
    (s : State) : State :=
  let b := breaker s in
  with_breaker
    (mkBreaker ({[endpoint]} ∪ failedEndpoints b)
               (<[endpoint := now]> (endpointFailureTimes b))) s.

Definition isGlobalRequestBlocked (now : Z) (s : State) : bool * State :=
  let g := block s in
  if negb (globalRequestBlocked g) then (false, s)
  else if (now - globalBlockTime g >? globalBlockCooldown)%Z then
    (false, with_block (mkGlobalBlock false 0) s)
  else (true, s).

Definition activateGlobalRequestBlock (now : Z) (s : State) : State :=
  with_block (mkGlobalBlock true now) s.

(** ** Registry of pending requests *)

Definition isRequestPending (requestKey : string) (s : State) : bool :=
  bool_decide (is_Some (pendingRequests (registry s) !! requestKey)).

(** [addPendingRequest]: the new timer handle replaces the one stored
    under the key, without clearing it. *)
Definition addPendingRequest (now : Z) (requestKey : string) (promise : nat)
    (s : State) : State :=
  let r := registry s in
  let timeout := nextTimer r in
  with_registry
    (mkRegistry (<[requestKey := promise]> (pendingRequests r))
                (<[requestKey := timeout]> (requestTimeouts r))
                (<[timeout := (requestKey, now + pendingTimeout)]> (timers r))
                (S timeout)
                (onSettle r)) s.

Definition removePendingRequest (requestKey : string) (s : State) : State :=
  let r := registry s in
  match requestTimeouts r !! requestKey with
  | Some timeout =>
      with_registry
        (mkRegistry (delete requestKey (pendingRequests r))
                    (delete requestKey (requestTimeouts r))
                    (delete timeout (timers r))
                    (nextTimer r) (onSettle r)) s
  | None =>
      with_registry
        (mkRegistry (delete requestKey (pendingRequests r))
                    (requestTimeouts r) (timers r)
                    (nextTimer r) (onSettle r)) s
  end.

(** The callback of the 30 second timer [timeout], run by the event loop
    at time [now]; nothing happens before the timer is due or once it
    has been cleared. *)
Definition fireTimer (now : Z) (timeout : nat) (s : State) : State :=
  let r := registry s in
  match timers r !! timeout with
  | Some (requestKey, due) =>
      if (due <=? now)%Z then
        with_registry
          (mkRegistry (delete requestKey (pendingRequests r))
                      (delete requestKey (requestTimeouts r))
                      (delete timeout (timers r))
                      (nextTimer r) (onSettle r)) s
      else s
  | None => s
  end.

(** The promise [promise] settles: its [finally] callback runs. *)
Definition settle (promise : nat) (s : State) : State :=
  match onSettle (registry s) !! promise with
  | Some requestKey =>
      let s' := removePendingRequest requestKey s in
      let r := registry s' in
      with_registry
        (mkRegistry (pendingRequests r) (requestTimeouts r) (timers r)
                    (nextTimer r) (delete promise (onSettle r))) s'
  | None => s
  end.

(** [resetHealthGate] *)
Definition resetHealthGate (s : State) : State :=
  let r := registry s in
  let cleared :=
    foldr (fun kt tm => delete (snd kt) tm) (timers r)
          (map_to_list (requestTimeouts r)) in
  with_registry (mkRegistry ∅ ∅ cleared (nextTimer r) (onSettle r))
    (with_block (mkGlobalBlock false 0)
      (with_breaker (mkBreaker ∅ ∅)
        (with_health (mkHealthGate false false 0) s))).

(** ** Health gate *)

(** What [await this.checkHealth()] gives [checkApiHealth]: a value, with
    [hasError] telling whether [healthResult && healthResult.error] is
    truthy, or an exception. *)
Inductive HealthAnswer : Type :=
| HealthValue (hasError : bool)
| HealthThrew.

(** One run of [checkHealth], as the environment decides it: answered
    from [apiCache] without any call, or by [tries] calls of
    [makeRequest('/v0/health')] under [retryWithBackoff]; [sets503] tells
    whether [executeRequest] set the global 503 status on the way;
    [elapsed] is how long the caller stays suspended. *)
Inductive Probe : Type :=
| FromCache (hasError : bool)
| Requested (tries : nat) (answer : HealthAnswer) (sets503 : bool) (elapsed : Z).

Definition probeElapsed (probe : Probe) : Z :=
  match probe with
  | FromCache _ => 0
  | Requested _ _ _ elapsed => elapsed
  end.

Definition probeAnswer (probe : Probe) : HealthAnswer :=
  match probe with
  | FromCache hasError => HealthValue hasError
  | Requested _ answer _ _ => answer
  end.

Definition runProbe (probe : Probe) (s : State) : HealthAnswer * State :=
  match probe with
  | FromCache hasError => (HealthValue hasError, s)
  | Requested tries answer sets503 _ =>
      let s1 := trackApiCall HEALTH s in
      let s2 := with_network (network s1 ++ repeat HealthRequest tries) s1 in
      (answer, if sets503 then setGlobal503Status true s2 else s2)
  end.

Inductive HealthStep : Type :=
| HealthDone (ok : bool)
| HealthAwait.

(** [checkApiHealth] up to [await this.checkHealth()]. *)
Definition checkApiHealth_enter (now : Z) (s : State) : HealthStep * State :=
  let h := health s in
  let proceed (s' : State) :=
    if healthCheckInProgress (health s') then (HealthDone false, s')
    else (HealthAwait,
          with_health (mkHealthGate (apiIsDown (health s')) true now) s') in
  if apiIsDown h then
    if (now - lastHealthCheckTime h <? healthCheckCooldown)%Z
    then (HealthDone false, s)
    else proceed
           (with_health
              (mkHealthGate false (healthCheckInProgress h) (lastHealthCheckTime h)) s)
  else proceed s.

(** [checkApiHealth] from the answer on, [finally] block included. *)
Definition checkApiHealth_resume (answer : HealthAnswer) (s : State)
    : bool * State :=
  let h := health s in
  match answer with
  | HealthValue false =>
      (true, with_health (mkHealthGate false false (lastHealthCheckTime h)) s)
  | HealthValue true | HealthThrew =>
      (false, setGlobal503Status true
                (with_health (mkHealthGate true false (lastHealthCheckTime h)) s))
  end.

(** ** [makeRequestInternal] and [makePublicRequestInternal] *)

(** How a call leaves the function: it throws (the promise of the
    [async] function rejects), it returns a promise, or it is suspended
    in [await this.checkApiHealth()]. *)
Inductive Exit : Type :=
| Threw (e : Error)
| Returned (promise : nat)
| AwaitHealth.

(** State passing with early exit. *)
Definition M (A : Type) : Type := State -> (A + Exit) * State.

Definition ret {A} (a : A) : M A := fun s => (inl a, s).
Definition bind {A B} (m : M A) (k : A -> M B) : M B :=
  fun s => match m s with
           | (inl a, s') => k a s'
           | (inr x, s') => (inr x, s')
           end.
Definition exit {A} (x : Exit) : M A := fun s => (inr x, s).
Definition modify (f : State -> State) : M unit := fun s => (inl tt, f s).
Definition gets {A} (f : State -> A) : M A := fun s => (inl (f s), s).
Definition lift {A} (f : State -> A * State) : M A :=
  fun s => let '(a, s') := f s in (inl a, s').
Definition when (c : bool) (m : M unit) : M unit := if c then m else ret tt.

Notation "x <- m ;; k" := (bind m (fun x => k))
  (at level 100, m at next level, k at level 200, right associativity).
Notation "m ;;; k" := (bind m (fun _ => k))
  (at level 100, k at level 200, right associativity).

Definition global503Error : Error :=
  mkError PlainError "503 Service Unavailable: API is globally unavailable"
    (Some 503) true false false false false.
Definition globalBlockError : Error :=
  mkError PlainError
    "503 Service Unavailable: API is temporarily unavailable (global block)"
    (Some 503) true false true false false.
Definition circuitBreakerError (endpoint : string) : Error :=
  mkError PlainError
    ("503 Service Unavailable: " ++ endpoint ++
     " is temporarily unavailable (circuit breaker)")
    (Some 503) true false false true false.
Definition healthFailedError : Error :=
  mkError PlainError "503 Service Unavailable: API health check failed"
    (Some 503) true false false false false.

Section Call.
(** [isPublic] tells [makePublicRequestInternal] from
    [makeRequestInternal]: the public variant shows no modal when the
    global block or the circuit breaker rejects, and it starts
    [executePublicRequest] instead of [executeRequestWithRetry].  The
    argument [requireAuth] is handed on to [executeRequest], where it
    makes the request read the token ([Request.executeRequest]); the
    gates do not look at it. *)
Variable isPublic : bool.
Variable endpoint : string.
Variable options : RequestInit.

Definition notHealth : bool := negb (String.eqb endpoint HEALTH).

Definition checkGlobal503 (now : Z) : M unit :=
  down <- gets isApiGlobally503 ;;
  when down
    (modify (showApiFailureModal now [endpoint] true None) ;;;
     exit (Threw global503Error)).

Definition checkDeduplication : M unit :=
  let requestKey := getRequestKey endpoint options in
  pending <- gets (fun s => pendingRequests (registry s) !! requestKey) ;;
  match pending with
  | Some promise => exit (Returned promise)
  | None => ret tt
  end.

Definition checkGlobalBlock (now : Z) : M unit :=
  when notHealth
    (blocked <- lift (isGlobalRequestBlocked now) ;;
     when blocked
       (when (negb isPublic)
          (modify (showApiFailureModal now [endpoint] true None)) ;;;
        exit (Threw globalBlockError))).

Definition checkCircuitBreaker (now : Z) : M unit :=
  when notHealth
    (tripped <- lift (isEndpointInCircuitBreaker now endpoint) ;;
     when tripped
       (when (negb isPublic)
          (modify (showApiFailureModal now [endpoint] true None)) ;;;
        exit (Threw (circuitBreakerError endpoint)))).

Definition checkConsent : M unit :=
  when notHealth
    (blockedBy <- gets checkConsentMiddleware ;;
     match blockedBy with
     | Some error => exit (Threw error)
     | None => ret tt
     end).

(** The branch taken when [checkApiHealth] has answered [ok]. *)
Definition healthVerdict (now : Z) (ok : bool) : M unit :=
  when (negb ok)
    (modify (activateGlobalRequestBlock now) ;;;
     modify (addEndpointToCircuitBreaker now endpoint) ;;;
     modify (showApiFailureModal now [endpoint] true None) ;;;
     exit (Threw healthFailedError)).

Definition checkHealthGate (now : Z) : M unit :=
  when notHealth
    (step <- lift (checkApiHealth_enter now) ;;
     match step with
     | HealthDone ok => healthVerdict now ok
     | HealthAwait => exit AwaitHealth
     end).

(** The request is started and its promise registered. *)
Definition launch (now : Z) : M unit :=
  let requestKey := getRequestKey endpoint options in
  promise <- gets nextPromise ;;
  modify (fun s =>
    with_nextPromise (S promise)
      (with_network (network s ++ [RequestStarted isPublic endpoint promise]) s)) ;;;
  modify (addPendingRequest now requestKey promise) ;;;
  modify (fun s =>
    let r := registry s in
    with_registry
      (mkRegistry (pendingRequests r) (requestTimeouts r) (timers r)
                  (nextTimer r) (<[promise := requestKey]> (onSettle r))) s) ;;;
  exit (Returned promise).

(** From the entry of the function to its first suspension or its end.
    When [checkApiHealth] returns [false] without asking, the call is
    run on to its end: it continues in the next microtask, before
    any timer, answer or event, so that only code of the same run can
    come in between. *)
Definition requestInternal_enter (now : Z) : M unit :=
  modify (trackApiCall endpoint) ;;;
  checkGlobal503 now ;;;
  checkDeduplication ;;;
  checkGlobalBlock now ;;;
  checkCircuitBreaker now ;;;
  checkConsent ;;;
  checkHealthGate now ;;;
  launch now.

(** From the answer of the health check to the end, at time [now]. *)
Definition requestInternal_resume (now : Z) (answer : HealthAnswer) : M unit :=
  ok <- lift (checkApiHealth_resume answer) ;;
  healthVerdict now ok ;;;
  launch now.

Definition exitOf (r : (unit + Exit) * State) : Exit :=
  match fst r with
  | inr x => x
  | inl _ => AwaitHealth
  end.

(** A whole call with nothing interleaved: entered at [now], suspended
    for the duration of [probe] if the health check runs.  This is
    what the call does when nothing else runs while it waits for the
    health check; what it does in general is [requestInternal_enter],
    then, from whatever state the client is in by then,
    [requestInternal_resume]. *)
Definition requestInternal (now : Z) (probe : Probe) (s : State)
    : Exit * State :=
  let r := requestInternal_enter now s in
  match exitOf r with
  | AwaitHealth =>
      let '(answer, s') := runProbe probe (snd r) in
      let r' := requestInternal_resume (now + probeElapsed probe) answer s' in
      (exitOf r', snd r')
  | x => (x, snd r)
  end.

End Call.

Definition makeRequestInternal := requestInternal false.
Definition makePublicRequestInternal := requestInternal true.

(** [makeRequest] and [makePublicRequest] only forward. *)
Definition makeRequest := makeRequestInternal.
Definition makePublicRequest := makePublicRequestInternal.

(** The requests started for [endpoint], by the promise each one got. *)
Fixpoint startedFor (endpoint : string) (evs : list NetEvent) : list nat :=
  match evs with
  | [] => []
  | RequestStarted _ ep promise :: evs' =>
      if String.eqb ep endpoint then promise :: startedFor endpoint evs'
      else startedFor endpoint evs'
  | HealthRequest :: evs' => startedFor endpoint evs'
  end.

(** ** Second registry: [executeRequestWithDeduplication]

    The module keeps a registry of its own, [pendingRequests], and the
    time of the last request per endpoint, [requestTimestamps]. *)

Definition MIN_REQUEST_INTERVAL : Z := 1000.

Record Inner : Type := mkInner {
  innerPending : gmap string nat;
  requestTimestamps : gmap string Z
}.

Definition shouldThrottleRequest (now : Z) (endpoint : string) (st : Inner)
    : bool * Inner :=
  let lastRequestTime := default 0 (requestTimestamps st !! endpoint) in
  if (now - lastRequestTime <? MIN_REQUEST_INTERVAL)%Z then (true, st)
  else (false, mkInner (innerPending st)
                       (<[endpoint := now]> (requestTimestamps st))).

Inductive InnerStep : Type :=
| Reuse (promise : nat)
| FetchLater
| FetchNow.

(** Up to the first suspension: the pending promise is handed back, or
    [executeRequest] is to be called, at once or after the throttle
    delay of one second. *)
Definition executeRequestWithDeduplication_enter (now : Z) (endpoint : string)
    (options : RequestInit) (st : Inner) : InnerStep * Inner :=
  let requestKey := getRequestKey endpoint options in
  match innerPending st !! requestKey with
  | Some promise => (Reuse promise, st)
  | None =>
      let '(throttled, st') := shouldThrottleRequest now endpoint st in
      (if throttled then FetchLater else FetchNow, st')
  end.

(** [executeRequest] has been called and returned [promise]. *)
Definition executeRequestWithDeduplication_store (endpoint : string)
    (options : RequestInit) (promise : nat) (st : Inner) : Inner :=
  mkInner (<[getRequestKey endpoint options := promise]> (innerPending st))
          (requestTimestamps st).

(** The [finally] callback of that promise. *)
Definition executeRequestWithDeduplication_settled (endpoint : string)
    (options : RequestInit) (st : Inner) : Inner :=
  mkInner (delete (getRequestKey endpoint options) (innerPending st))
          (requestTimestamps st).

End ApiSW.

(* ===================================================================== *)
(** * Bearer token: [JWTAuthManager] *)
(* ===================================================================== *)

Module Jwt.

Definition STORAGE_KEY : string := "packmovego_jwt_token".

Record User : Type := mkUser { id : string; email : string; name : string }.

Record JWTToken : Type := mkToken {
  token : string;
  expiresAt : Z;
  user : option User
}.

(** An item of [localStorage], by what [JSON.parse] makes of it: a token
    written by [setToken], or non-empty text that does not parse. *)
Inductive Stored : Type :=
| StoredToken (t : JWTToken)
| Unparsable.

(** The manager and the storage it writes through.  [localStorage] is
    [None] where there is no [window] (server-side rendering). *)
Record Manager : Type := mkManager {
  current : option JWTToken;
  localStorage : option (gmap string Stored)
}.

Definition clearToken (m : Manager) : Manager :=
  mkManager None (delete STORAGE_KEY <$> localStorage m).

(** [setToken]: the token is kept in memory, and written to the storage
    unless [localStorage.setItem] throws (a full or a forbidden storage),
    which is caught. *)
Definition setToken (tokenData : JWTToken) (setItemThrows : bool) (m : Manager)
    : Manager :=
  mkManager (Some tokenData)
            (if setItemThrows then localStorage m
             else <[STORAGE_KEY := StoredToken tokenData]> <$> localStorage m).

Definition loadStoredToken (now : Z) (m : Manager) : Manager :=
  match localStorage m with
  | None => m
  | Some items =>
      match items !! STORAGE_KEY with
      | None => m
      | Some Unparsable => clearToken m
      | Some (StoredToken t) =>
          let m' := mkManager (Some t) (localStorage m) in
          if (expiresAt t <? now)%Z then clearToken m' else m'
      end
  end.

(** [getToken]: [None] is [null]. *)
Definition getToken (now : Z) (m : Manager) : option string * Manager :=
  match current m with
  | None => (None, clearToken m)
  | Some t =>
      if (expiresAt t <? now)%Z then (None, clearToken m)
      else (Some (token t), m)
  end.

Definition isAuthenticated (now : Z) (m : Manager) : bool * Manager :=
  let '(t, m') := getToken now m in
  (match t with Some _ => true | None => false end, m').

(** [token ? { 'Authorization': `Bearer ${token}` } : {}]: the empty
    string is falsy. *)
Definition getAuthHeaders (now : Z) (m : Manager)
    : list (string * string) * Manager :=
  let '(t, m') := getToken now m in
  (match t with
   | Some tok => if String.eqb tok "" then []
                 else [("Authorization", "Bearer " ++ tok)]
   | None => []
   end, m').

Definition needsRefresh (now : Z) (m : Manager) : bool :=
  match current m with
  | None => false
  | Some t => (expiresAt t - now <? 5 * 60 * 1000)%Z
  end.

(** The operations a client of the manager can perform, each at the
    time [Date.now()] returns during it. *)
Inductive Op : Type :=
| OpSet (t : JWTToken) (setItemThrows : bool)
| OpGet (now : Z)
| OpClear
| OpLoad (now : Z).

Definition run (op : Op) (m : Manager) : Manager :=
  match op with
  | OpSet t setItemThrows => setToken t setItemThrows m
  | OpGet now => snd (getToken now m)
  | OpClear => clearToken m
  | OpLoad now => loadStoredToken now m
  end.

End Jwt.

(* ===================================================================== *)
(** * Caches *)
(* ===================================================================== *)

Module HomePageCache.
Import Js.

Definition CACHE_DURATION : Z := 5 * 60 * 1000.

(** [Map<string, { data, timestamp }>] *)
Record Entry : Type := mkEntry { data : Json; timestamp : Z }.

Definition set (now : Z) (key : string) (d : Json) (cache : gmap string Entry)
    : gmap string Entry :=
  <[key := mkEntry d now]> cache.

(** [get]: a miss is [null]. *)
Definition get (now : Z) (key : string) (cache : gmap string Entry)
    : Json * gmap string Entry :=
  match cache !! key with
  | None => (JNull, cache)
  | Some cached =>
      let isExpired := (now - timestamp cached >? CACHE_DURATION)%Z in
      if isExpired then (JNull, delete key cache)
      else (data cached, cache)
  end.

Definition clear (cache : gmap string Entry) : gmap string Entry := ∅.

Definition clearExpired (now : Z) (cache : gmap string Entry)
    : gmap string Entry :=
  filter (fun kv => ¬ (now - timestamp (snd kv) > CACHE_DURATION)%Z) cache.

Inductive Op : Type :=
| OpSet (now : Z) (key : string) (d : Json)
| OpGet (now : Z) (key : string)
| OpClear
| OpClearExpired (now : Z).

Definition run (op : Op) (cache : gmap string Entry) : gmap string Entry :=
  match op with
  | OpSet now key d => set now key d cache
  | OpGet now key => snd (get now key cache)
  | OpClear => clear cache
  | OpClearExpired now => clearExpired now cache
  end.

End HomePageCache.

Module ApiCache.
Import Js.

(** Modelled from the spec: [apiCache] of [../util/apiCache], which is not
    among the sources.  Section 4.7: a value carries its own TTL, set at
    insertion; on a read, if the entry is present and
    [now - insertedAt <= ttl] the cached value is returned, otherwise the
    entry is evicted and the read misses. *)
Record Entry : Type := mkEntry { value : Json; insertedAt : Z; ttl : Z }.

(** Modelled from the spec: [apiCache.cacheApiResponse(key, value, ttl)]. *)
Definition cacheApiResponse (now : Z) (key : string) (v : Json) (ttl' : Z)
    (cache : gmap string Entry) : gmap string Entry :=
  <[key := mkEntry v now ttl']> cache.

(** Modelled from the spec: [apiCache.getCachedApiResponse(key)]; a miss
    is [null]. *)
Definition getCachedApiResponse (now : Z) (key : string)
    (cache : gmap string Entry) : Json * gmap string Entry :=
  match cache !! key with
  | None => (JNull, cache)
  | Some e =>
      if (now - insertedAt e <=? ttl e)%Z then (value e, cache)
      else (JNull, delete key cache)
  end.

Definition LOCATIONS : string := "/v0/locations".
Definition LOCATIONS_TTL : Z := 15 * 60 * 1000.

(** [APIsw.getLocations] up to [await this.makeRequest(...)]: the cached
    value if there is a truthy one, else the call of [makeRequest], as
    far as it runs before it is suspended or ends. *)
Inductive LocationsStep : Type :=
| FromCache (cached : Json)
| Requesting (exit : ApiSW.Exit).

Definition getLocations_enter (now : Z)
    (cache : gmap string Entry) (s : ApiSW.State)
    : LocationsStep * gmap string Entry * ApiSW.State :=
  let '(cached, cache') := getCachedApiResponse now LOCATIONS cache in
  if truthy cached then (FromCache cached, cache', s)
  else
    let r := ApiSW.requestInternal_enter false LOCATIONS ApiSW.noOptions now s in
    (Requesting (ApiSW.exitOf r), cache', snd r).

(** [getLocations] once the request has resolved with [result], at [now]. *)
Definition getLocations_resume (now : Z) (result : Json)
    (cache : gmap string Entry) : Json * gmap string Entry :=
  if truthy result
  then (result, cacheApiResponse now LOCATIONS result LOCATIONS_TTL cache)
  else (result, cache).

End ApiCache.

(* ===================================================================== *)
(** * One request: [tryFetch], [handleErrorResponse], [executeRequest] *)
(* ===================================================================== *)

Module Exec.
Import Js.

(** A [Response], as far as the client reads it.  [r_body] is what
    [response.json()] resolves with; [None] when the body is not JSON and
    [json()] rejects. *)
Record Response : Type := mkResponse {
  redirected : bool;
  status : Z;
  statusText : string;
  r_url : string;
  r_body : option Json
}.

(** What [fetch(url, config)] does. *)
Inductive FetchResult : Type :=
| FetchResponse (r : Response)
| FetchThrew (e : Error).

(** What else the request does to the rest of the program. *)
Inductive Effect : Type :=
| SetGlobal503Status (status : bool)
| RedirectToSignin
| HandleApiError (message : string).

Definition ok (r : Response) : bool :=
  ((200 <=? status r) && (status r <=? 299))%Z%bool.

(** [new Response(JSON.stringify(payload), { status: 503, ... })] *)
Definition mockResponse (payload : Json) : Response :=
  mkResponse false 503 "Service Unavailable" "" (Some payload).

Definition redirectPayload (redirectedTo : string) : Json :=
  JObj [("error", JBool true); ("statusCode", JNum 503);
        ("message", JStr "Service Unavailable: API endpoint redirected (backend misconfiguration)");
        ("is503Error", JBool true); ("isRedirectError", JBool true);
        ("redirectedTo", JStr redirectedTo)].

Definition corsPayload : Json :=
  JObj [("error", JBool true); ("statusCode", JNum 503);
        ("message", JStr "Service Unavailable: CORS redirect error (backend misconfiguration)");
        ("is503Error", JBool true); ("isRedirectError", JBool true);
        ("isCorsError", JBool true)].

Definition connectionPayload : Json :=
  JObj [("error", JBool true); ("statusCode", JNum 503);
        ("message", JStr "Service Unavailable: Connection failed");
        ("is503Error", JBool true); ("isConnectionError", JBool true)].

Definition tryFetch (f : FetchResult) : Outcome Response :=
  match f with
  | FetchResponse response =>
      if (redirected response
          || existsb (Z.eqb (status response)) [301; 302; 307; 308])%bool
      then Resolved (mockResponse (redirectPayload (r_url response)))
      else Resolved response
  | FetchThrew fetchError =>
      if (instanceofTypeError fetchError
          && (includes (e_message fetchError) "Redirect is not allowed"
              || includes (e_message fetchError) "CORS policy"))%bool
      then Resolved (mockResponse corsPayload)
      else if (instanceofTypeError fetchError
               && includes (e_message fetchError) "Failed to fetch")%bool
      then Resolved (mockResponse connectionPayload)
      else Rejected fetchError
  end.

(** [String(j)], as a template literal converts a JSON value. *)
Fixpoint toString (j : Json) : string :=
  match j with
  | JNull => "null"
  | JBool true => "true"
  | JBool false => "false"
  | JNum n => pretty n
  | JStr s => s
  | JArr items =>
      (fix join (l : list Json) : string :=
         match l with
         | [] => ""
         | [x] => match x with JNull => "" | _ => toString x end
         | x :: l' =>
             (match x with JNull => "" | _ => toString x end)
               ++ "," ++ join l'
         end) items
  | JObj _ => "[object Object]"
  end.

(** [errorMessage.includes('Too many requests')]; [None] when the value
    has no [includes] method and the call throws a [TypeError]. *)
Definition messageIncludes (errorMessage : Json) (needle : string) : option bool :=
  match errorMessage with
  | JStr s => Some (includes s needle)
  | JArr items =>
      Some (existsb (fun x => match x with
                              | JStr s => String.eqb s needle
                              | _ => false
                              end) items)
  | _ => None
  end.

(** The [catch] block of [handleErrorResponse]. *)
Definition handleErrorResponse_catch (response : Response)
    : string * list Effect :=
  if (status response =? 503)%Z then
    ("Service temporarily unavailable (503): " ++ statusText response,
     [HandleApiError ("HTTP 503: " ++ statusText response)])
  else ("HTTP " ++ pretty (status response) ++ ": " ++ statusText response, []).

Definition handleErrorResponse (response : Response) : string * list Effect :=
  match r_body response with
  | None => handleErrorResponse_catch response
  | Some JNull => handleErrorResponse_catch response
  | Some errorData =>
      let message :=
        match errorData with
        | JObj fields => field "message" fields
        | _ => None
        end in
      let errorMessage :=
        match message with
        | Some m => if truthy m then m else JStr (statusText response)
        | None => JStr (statusText response)
        end in
      if (status response =? 503)%Z then
        ("Service temporarily unavailable (503): " ++ toString errorMessage,
         [HandleApiError ("HTTP 503: " ++ toString errorMessage)])
      else if (status response =? 403)%Z then
        ("Authentication required: " ++ toString errorMessage, [RedirectToSignin])
      else if (status response =? 429)%Z then
        ("Rate limited: " ++ toString errorMessage, [])
      else
        match messageIncludes errorMessage "Too many requests" with
        | None => handleErrorResponse_catch response
        | Some true => ("Rate limited: " ++ toString errorMessage, [])
        | Some false =>
            ("HTTP " ++ pretty (status response) ++ ": " ++ toString errorMessage, [])
        end
  end.

Definition jsonSyntaxError : Error :=
  mkError SyntaxError "Unexpected token in JSON" None false false false false false.

(** [endpoint] is not bound inside [executeRequest]: evaluating
    [createConnectionError(endpoint, error)] throws. *)
Definition endpointNotDefined : Error :=
  mkError ReferenceError "endpoint is not defined" None false false false false false.

Section WithErrorUtils.

(** Imported from [../util/errorUtils], which is not among the sources:
    parameters. *)
Variable isConnectionError : Error -> bool.
Variable is503Error : Error -> bool.

(** The [catch] block of [executeRequest]. *)
Definition executeRequest_catch (error : Error) (effs : list Effect)
    : Outcome Json * list Effect :=
  if isConnectionError error then
    (Rejected endpointNotDefined, (effs ++ [SetGlobal503Status true])%list)
  else if is503Error error then
    (Resolved
       (JObj [("error", JBool true); ("statusCode", JNum 503);
              ("message", JStr (e_message error));
              ("is503Error", JBool true);
              ("isConnectionError", JBool (e_isConnectionError error))]),
     (effs ++ [SetGlobal503Status true])%list)
  else (Rejected error, effs).

(** [executeRequest] from the call of [fetch] on.  What comes before,
    the headers and the token read for them when [requireAuth] is set,
    is in [Request.executeRequest]. *)
Definition executeRequest (f : FetchResult) : Outcome Json * list Effect :=
  match tryFetch f with
  | Rejected fetchError => executeRequest_catch fetchError []
  | Resolved response =>
      if ok response then
        match r_body response with
        | Some data => (Resolved data, [])
        | None => executeRequest_catch jsonSyntaxError []
        end
      else if (status response =? 503)%Z then
        match r_body response with
        | Some data => (Resolved data, [SetGlobal503Status true])
        | None => executeRequest_catch jsonSyntaxError [SetGlobal503Status true]
        end
      else
        let '(errorMessage, effs) := handleErrorResponse response in
        executeRequest_catch (newError errorMessage) effs
  end.

End WithErrorUtils.

(** The shape the client gives to a service-unavailable result:
    [{ error: true, statusCode: 503, message, is503Error: true, ... }]. *)
Definition is503Shaped (j : Json) : bool :=
  match j with
  | JObj fields =>
      match field "error" fields, field "statusCode" fields,
            field "message" fields, field "is503Error" fields with
      | Some (JBool true), Some (JNum 503), Some (JStr _), Some (JBool true) => true
      | _, _, _, _ => false
      end
  | _ => false
  end.

Definition setsGlobal503 (effs : list Effect) : bool :=
  existsb (fun e => match e with SetGlobal503Status true => true | _ => false end) effs.

End Exec.

(* ===================================================================== *)
(** * The same control flow, written out *)
(* ===================================================================== *)

(** The checks of [requestInternal_enter] after the registry lookup, and the
    branch after the health check, without the monad; [GateFacts.enter_gates]
    and [GateFacts.resume_verdict] prove that they are the same functions. *)
Module ApiDirect.
Import Js ApiSW.

(** The state in which [launch] leaves the client. *)
Definition launched (isPublic : bool) (endpoint : string) (options : RequestInit)
    (now : Z) (s : State) : State :=
  snd (launch isPublic endpoint options now s).

(** The branch after the health check, in direct style. *)
Definition verdict (isPublic : bool) (endpoint : string) (options : RequestInit)
    (now : Z) (ok : bool) (s : State) : (unit + Exit) * State :=
  if ok then launch isPublic endpoint options now s
  else (inr (Threw healthFailedError),
        showApiFailureModal now [endpoint] true None
          (addEndpointToCircuitBreaker now endpoint
             (activateGlobalRequestBlock now s))).

(** The gates of a call for another endpoint than the health endpoint,
    once the global 503 status and the registry have let it through. *)
Definition gates (isPublic : bool) (endpoint : string) (options : RequestInit)
    (now : Z) (s0 : State) : (unit + Exit) * State :=
  let '(blocked, s1) := isGlobalRequestBlocked now s0 in
  if blocked then
    (inr (Threw globalBlockError),
     if isPublic then s1 else showApiFailureModal now [endpoint] true None s1)
  else
    let '(tripped, s2) := isEndpointInCircuitBreaker now endpoint s1 in
    if tripped then
      (inr (Threw (circuitBreakerError endpoint)),
       if isPublic then s2 else showApiFailureModal now [endpoint] true None s2)
    else if isApiBlocked s2 then (inr (Threw consentError), s2)
    else
      match checkApiHealth_enter now s2 with
      | (HealthDone ok, s3) => verdict isPublic endpoint options now ok s3
      | (HealthAwait, s3) => (inr AwaitHealth, s3)
      end.

(** [s'] differs from [s] by nothing a request could be told from: same
    registry, same next promise, same requests started. *)
Definition quiet (s s' : State) : Prop :=
  registry s' = registry s
  ∧ nextPromise s' = nextPromise s
  ∧ ∀ endpoint, startedFor endpoint (network s') = startedFor endpoint (network s).

End ApiDirect.

(* ===================================================================== *)
(** * A request from start to settlement *)
(* ===================================================================== *)

Module ApiRun.
Import Js ApiSW.

Definition applyEffect (s : State) (eff : Exec.Effect) : State :=
  match eff with
  | Exec.SetGlobal503Status status => setGlobal503Status status s
  | Exec.RedirectToSignin | Exec.HandleApiError _ => s
  end.

(** A request that is not retried, from the answer of [fetch] to the
    settlement of its promise: [executeRequest] runs, then the [finally]
    callback that [makeRequestInternal] attached to the promise. *)
Definition complete (isConnectionError is503Error : Error -> bool)
    (promise : nat) (f : Exec.FetchResult) (s : State) : Outcome Json * State :=
  let '(out, effs) := Exec.executeRequest isConnectionError is503Error f in
  (out, settle promise (foldl applyEffect s effs)).

End ApiRun.

(* ===================================================================== *)
(** * Concrete runs *)
(* ===================================================================== *)

Module Scenario.
Import Js ApiSW ApiRun.

(** A notification shown at 1,000,000 ms for a list with a repeated
    endpoint; a second request 100 ms later; after hiding, a request
    within the cooldown and one after it. *)
Definition shown : State :=
  showApiFailureModal 1000000 ["/v0/nav"; "/v0/services"; "/v0/nav"] true None init.

(** The requests the notifier receives. *)
Inductive Request : Type :=
| Show (now : Z) (failed : list string) (is503 : bool) (cb : option nat)
| Hide.

Definition request (r : Request) (s : State) : State :=
  match r with
  | Show now failed is503 cb => showApiFailureModal now failed is503 cb s
  | Hide => hideApiFailureModal s
  end.

(** A token that expires at 2,000,000 ms, held in memory and in storage. *)
Definition aToken : Jwt.JWTToken := Jwt.mkToken "abc.def.ghi" 2000000 None.

Definition signedIn : Jwt.Manager :=
  Jwt.setToken aToken false (Jwt.mkManager None (Some ∅)).

(** A home page cache filled at 1,000,000 ms. *)
Definition servicesData : Json := JArr [JObj [("id", JStr "moving")]].

Definition filled : gmap string HomePageCache.Entry :=
  HomePageCache.set 1000000 "services_data" servicesData ∅.

(** The response cache after [getLocations] has stored a result at
    1,000,000 ms. *)
Definition locationsData : Json := JObj [("locations", JArr [JStr "Irvine"])].

Definition locationsCached : gmap string ApiCache.Entry :=
  snd (ApiCache.getLocations_resume 1000000 locationsData ∅).

(** A critical endpoint whose every attempt is answered by a gateway
    timeout, and one whose second attempt is answered "not found". *)
Definition gatewayTimeout : Error :=
  mkError PlainError "HTTP 504: Gateway timeout" (Some 504) false false false false false.

Definition notFound : Error := newError "HTTP 404: Not Found".

Definition alwaysTimeout : nat -> Outcome Json := fun _ => Rejected gatewayTimeout.

Definition secondNotFound : nat -> Outcome Json :=
  fun i => if Nat.eqb i 1 then Rejected notFound else Rejected gatewayTimeout.

Definition halfJitter : nat -> Q := fun _ => (1 # 2)%Q.

(** [1 - 2^-52], the largest number that [Math.random()] draws where it
    builds its doubles from 52 random bits. *)
Definition nearlyOne : Q := (4503599627370495 # 4503599627370496)%Q.

Definition noConnectionError : Error -> bool := fun _ => false.

Definition no503Error : Error -> bool := fun _ => false.

(** A health check that succeeds with one request, in 20 ms, and one
    that fails after four. *)
Definition healthy : Probe := Requested 1 (HealthValue false) false 20.
Definition unhealthy : Probe := Requested 4 (HealthValue true) true 20.

Definition ABOUT : string := "/v0/about".

(** A first call for [/v0/about] at 1,000,000 ms: its request is in
    flight under promise 0. *)
Definition inFlight : State :=
  snd (makeRequest ABOUT noOptions 1000000 healthy init).

(** Consent is withdrawn while that request is in flight. *)
Definition revoked : State := setApiBlocked true inFlight.

(** Another endpoint answers 503 while that request is in flight. *)
Definition down503 : State := setGlobal503Status true inFlight.

(** Consent withdrawn and the global 503 status set, nothing in flight. *)
Definition blockedAndDown : State :=
  setApiBlocked true (setGlobal503Status true init).

(** The backend answers the request in flight with 404. *)
Definition answer404 : Exec.FetchResult :=
  Exec.FetchResponse
    (Exec.mkResponse false 404 "Not Found" "https://api.example/v0/about"
       (Some (JObj [("message", JStr "no such page")]))).


(** A call for [/v0/about] at 1,000,000 ms whose health check fails; the
    global 503 status is then reset by hand, and consent withdrawn. *)
Definition tripped : State :=
  snd (makeRequest ABOUT noOptions 1000000 unhealthy init).

Definition trippedReset : State := resetGlobal503Status tripped.

Definition trippedRevoked : State := setApiBlocked true trippedReset.

(** A request for [/v0/about] in flight under promise 0 (as registered by
    a call that passed the gates) when health check, global block and
    circuit breaker have since turned against the endpoint, consent has
    been withdrawn, and the global 503 status has been reset by hand. *)
Definition trippedInFlight : State :=
  setApiBlocked true
    (with_registry (registry inFlight) (with_nextPromise 1 trippedReset)).

(** The backend answers the request in flight with 200 and a document. *)
Definition aboutData : Json := JObj [("title", JStr "About us")].

Definition answer200 : Exec.FetchResult :=
  Exec.FetchResponse
    (Exec.mkResponse false 200 "OK" "https://api.example/v0/about" (Some aboutData)).

(** A first call for [/v0/about] suspended in its health check. *)
Definition suspended : State :=
  snd (requestInternal_enter false ABOUT noOptions 1000000 init).


(** While that call is suspended, a second call for [/v0/about] at
    1,000,005 ms finds the health check in progress and is rejected;
    then the health check answers: no error. *)
Definition markedMeanwhile : State :=
  snd (requestInternal_enter false ABOUT noOptions 1000005 suspended).

Definition answeredHealthy : State := snd (runProbe healthy markedMeanwhile).



(** A 503 answer whose body is JSON of another shape. *)
Definition plain503 : Exec.FetchResult :=
  Exec.FetchResponse
    (Exec.mkResponse false 503 "Service Unavailable" "https://api.example/v0/about"
       (Some (JObj [("detail", JStr "maintenance")]))).

End Scenario.

(* ===================================================================== *)
(** * The rest of the client *)
(* ===================================================================== *)

(** ** Tracking of API calls, error log, modal props *)

Module Tracking.
Import Js ApiSW.

(** [startPageTracking] empties the list; the page name it also sets is
    read by the log lines and by [logError] only, and is an argument
    there. *)
Definition startPageTracking (s : State) : State := with_pageApiCalls [] s.

(** [routes.forEach(route => this.trackApiCall(route))] *)
Definition preTrackRoutesMiddleware (routes : list string) (s : State) : State :=
  foldl (fun s route => trackApiCall route s) s routes.

(** An entry of [errorLog]. *)
Record LogEntry : Type := mkLogEntry {
  l_timestamp : Z;
  l_endpoint : string;
  l_error : string;
  l_statusCode : option Z;
  l_is503Error : bool;
  l_isConnectionError : bool;
  l_pageName : string
}.

(** [log.slice(-n)] *)
Definition sliceLast {A : Type} (n : nat) (l : list A) : list A :=
  drop (length l - n) l.

Definition logError (now : Z) (endpoint : string) (error : Error)
    (statusCode : option Z) (is503Error isConnectionError : bool)
    (currentPageName : string) (errorLog : list LogEntry) : list LogEntry :=
  let errorEntry :=
    mkLogEntry now endpoint (e_message error) statusCode is503Error
               isConnectionError currentPageName in
  let pushed := (errorLog ++ [errorEntry])%list in
  if (100 <? length pushed)%nat then sliceLast 100 pushed else pushed.

(** The [onClose] of [getApiFailureModalProps]:
    [this.hideApiFailureModal(); if (this.modalState.onClose) this.modalState.onClose()].
    The result names the callback that is invoked, if any. *)
Definition propsOnClose (s : State) : option nat * State :=
  let s' := hideApiFailureModal s in
  (onClose (modalState (modal s')), s').

End Tracking.

(** ** Health check with a cached verdict *)

Module HealthCache.
Import Js ApiSW.

Inductive Status : Type := Unknown | Healthy | Unhealthy.

Record Cache : Type := mkCache {
  healthStatus : Status;
  healthCheckTime : Z
}.

Definition HEALTH_CHECK_CACHE_DURATION : Z := 30000.

Definition initCache : Cache := mkCache Unknown 0.

(** [checkHealthWithCache]; [probe] is how [this.checkHealth()] runs.
    Only an exception makes the verdict unhealthy. *)
Definition checkHealthWithCache (now : Z) (probe : Probe) (c : Cache) (s : State)
    : bool * Cache * State :=
  let known := match healthStatus c with Unknown => false | _ => true end in
  if (known && (now - healthCheckTime c <? HEALTH_CHECK_CACHE_DURATION)%Z)%bool then
    (match healthStatus c with Healthy => true | _ => false end, c, s)
  else
    let '(answer, s') := runProbe probe s in
    match answer with
    | HealthValue _ => (true, mkCache Healthy now, s')
    | HealthThrew => (false, mkCache Unhealthy now, trackApiCall HEALTH s')
    end.

Definition healthCheckFailedError (endpoint : string) : Error :=
  newError ("Service Unavailable (503): Health check failed for " ++ endpoint).

(** [if (!this.pageApiCalls.includes(route)) this.trackApiCall(route)] *)
Definition trackUnlessTracked (s : State) (route : string) : State :=
  if negb (existsb (String.eqb route) (pageApiCalls s))
  then trackApiCall route s else s.

(** [withHealthCheck(endpoint, apiCall, allRoutes)]; [apiCall] is run
    by the environment, [show] is the time at which the modal is
    requested. *)
Definition withHealthCheck (now show : Z) (probe : Probe) (endpoint : string)
    (apiCall : State -> Outcome Json * State) (allRoutes : list string)
    (c : Cache) (s : State) : Outcome Json * Cache * State :=
  let '(isHealthy, c', s') := checkHealthWithCache now probe c s in
  if negb isHealthy then
    let s1 := foldl trackUnlessTracked s' allRoutes in
    let allFailedRoutes := HEALTH :: allRoutes in
    (Rejected (healthCheckFailedError endpoint), c',
     showApiFailureModal show allFailedRoutes true None s1)
  else
    let '(out, s2) := apiCall s' in (out, c', s2).

End HealthCache.

(** ** The request pipeline *)

Module Pipeline.
Import Js.

Definition criticalEndpoints : list string :=
  ["/v0/health"; "/v0/locations"; "/v0/service-areas"; "/v0/services"; "/v0/supplies"].

Definition shouldRetryEndpoint (endpoint : string) : bool :=
  existsb (fun critical => includes endpoint critical) criticalEndpoints.

(** [executeRequestWithRetry].  [fetches i] is what [fetch] answers to
    attempt [i]; an attempt ends as [executeRequest] ends on that answer
    (the inner registry either calls [executeRequest] or hands back the
    promise of an earlier call of it). *)
Definition executeRequestWithRetry (isConnectionError is503Error : Error -> bool)
    (endpoint : string) (fetches : nat -> Exec.FetchResult) (random : nat -> Q)
    : Outcome Json * list Retry.Event :=
  let attempt := fun i => fst (Exec.executeRequest isConnectionError is503Error (fetches i)) in
  if shouldRetryEndpoint endpoint then
    Retry.retryWithBackoff isConnectionError attempt random Retry.maxRetries
  else (attempt 0%nat, [Retry.Attempt 0]).

End Pipeline.

(** ** Middleware *)

Module Middleware.
Import Js ApiSW.

(** What a middleware does besides returning. *)
Inductive Event : Type :=
| NextCalled
| HandleApiError (message : string) (endpoint : string).

Definition isConsentError (error : Error) : bool :=
  (instanceofError error
   && includes (e_message error) "cookie consent"
   && includes (e_message error) "user must opt in first")%bool.

Definition is503ByMessage (error : Error) : bool :=
  (instanceofError error
   && (includes (e_message error) "503"
       || includes (e_message error) "Service Unavailable"
       || includes (e_message error) "temporarily unavailable"))%bool.

(** The [catch] block of [consentAwareMiddleware]; [handleApiError] is
    imported from [../util/apiErrorHandler], not among the sources, and
    is recorded as an event. *)
Definition consentAware_catch (now : Z) (endpoint : string) (error : Error)
    (s : State) (evs : list Event) : Outcome Json * State * list Event :=
  if isConsentError error then (Rejected error, s, evs)
  else if is503ByMessage error then
    (Rejected error,
     showApiFailureModal now [endpoint] true None s,
     (evs ++ [HandleApiError ("503 Service Unavailable: " ++ endpoint) endpoint])%list)
  else
    (Rejected error, s, (evs ++ [HandleApiError (e_message error) endpoint])%list).

(** [consentAwareMiddleware(endpoint, context)(req, res, next)]; [next]
    is run by the environment, [now] is the time in the [catch] block. *)
Definition consentAwareMiddleware (now : Z) (endpoint : string)
    (next : State -> Outcome Json * State) (s : State)
    : Outcome Json * State * list Event :=
  match checkConsentMiddleware s with
  | Some error => consentAware_catch now endpoint error s []
  | None =>
      let '(out, s') := next s in
      match out with
      | Resolved result => (Resolved result, s', [NextCalled])
      | Rejected error => consentAware_catch now endpoint error s' [NextCalled]
      end
  end.

(** [handleApiErrorInResponse(req, res, data)] of the home page router:
    [failed] is [req.failedEndpoints] ([None] when undefined), [now1] and
    [now2] the times of the two modal requests. *)
Definition handleApiErrorInResponse (now1 now2 : Z) (endpoint : string)
    (statusCode : Z) (failed : option (list string)) (s : State)
    : option (list string) * State :=
  let is503Error := (statusCode =? 503)%Z in
  let '(failed1, s1) :=
    if is503Error then
      (Some (default [] failed ++ [endpoint])%list,
       showApiFailureModal now1 [endpoint] true None s)
    else (failed, s) in
  if (statusCode >=? 500)%Z then
    (Some (default [] failed1 ++ [endpoint])%list,
     showApiFailureModal now2 [endpoint] false None s1)
  else (failed1, s1).

End Middleware.

(** ** The URL of a request *)

Module Url.

(** [base.replace(/\/+$/, '')]: the slashes at the end are removed. *)
Fixpoint trimTrailingSlashes (base : string) : string :=
  match base with
  | EmptyString => EmptyString
  | String c base' =>
      let rest := trimTrailingSlashes base' in
      if (Ascii.eqb c "/" && String.eqb rest "")%bool then EmptyString
      else String c rest
  end.

(** [buildUrl] of [makeRequestInternal] and [makePublicRequestInternal]. *)
Definition buildUrl (base ep : string) : string :=
  let baseTrimmed := trimTrailingSlashes base in
  let epTrimmed := if String.prefix "/" ep then ep else "/" ++ ep in
  baseTrimmed ++ epTrimmed.

End Url.

(** ** Configuration *)

Module Config.
Import Js.

(** Where configuration values come from.  A table is [None] where the
    object does not exist ([process], [import.meta.env],
    [window.__VITE_ENV__]); [window] is absent on the server. *)
Record Env : Type := mkEnv {
  hasWindow : bool;
  importMetaEnv : option (gmap string string);
  processEnv : option (gmap string string);
  windowGlobals : gmap string string;
  windowViteEnv : option (gmap string string)
}.

(** [table && table[key]]: the value if it is a non-empty string. *)
Definition truthyAt (table : option (gmap string string)) (key : string)
    : option string :=
  match table with
  | Some t => match t !! key with
              | Some v => if String.eqb v "" then None else Some v
              | None => None
              end
  | None => None
  end.

(** [s.replace(pattern, '')] for a string pattern: the first occurrence
    is removed. *)
Fixpoint removeFirst (pattern s : string) : string :=
  if String.prefix pattern s
  then String.substring (String.length pattern) (String.length s - String.length pattern) s
  else match s with
       | EmptyString => EmptyString
       | String c s' => String c (removeFirst pattern s')
       end.

Definition globalKey (key : string) : string :=
  "__" ++ removeFirst "VITE_" key ++ "__".

(** [getEnvVar] of [getEnvironmentConfig], called without fallback. *)
Definition getEnvVar (env : Env) (key : string) : string :=
  match (if hasWindow env then truthyAt (importMetaEnv env) key else None) with
  | Some v => v
  | None =>
      match truthyAt (processEnv env) key with
      | Some v => v
      | None =>
          match (if hasWindow env
                 then truthyAt (Some (windowGlobals env)) (globalKey key)
                 else None) with
          | Some v => v
          | None =>
              match (if hasWindow env then truthyAt (windowViteEnv env) key else None) with
              | Some v => v
              | None => ""
              end
          end
      end
  end.

(** [/^https?:\/\//i.test(url)] *)
Definition hasProtocol (url : string) : bool :=
  (String.prefix "http://" (toLowerCase url)
   || String.prefix "https://" (toLowerCase url))%bool.

(** The [API_URL] of [getEnvironmentConfig]. *)
Definition API_URL (env : Env) : string :=
  let first := getEnvVar env "VITE_API_URL" in
  let second := getEnvVar env "VITE_API_BASE_URL" in
  let url := if negb (String.eqb first "") then first
             else if negb (String.eqb second "") then second
             else "https://localhost:3000" in
  if (negb (String.eqb url "") && negb (hasProtocol url))%bool
  then "http://" ++ url
  else url.

End Config.

(** ** Sequences of operations on the client *)

Module ClientOps.
Import Js ApiSW ApiRun.

(** What can happen to the client, one step at a time: a call runs up
    to its first await ([OpEnter]) and, when it was suspended in the
    health check, on from the answer ([OpResume]); the health request
    itself runs ([OpProbe]); an attempt of a retried request ends
    without settling the promise ([OpAttempt]), or the last one settles
    it ([OpComplete]); a registered promise settles, a timer of the
    registry fires, and so on.  [OpCall] is a whole call with nothing in
    between.  The wait of a throttled request and the sleep between two
    attempts change nothing in the client.  There is no step that resets
    the global 503 status: the client has none. *)
Inductive Op : Type :=
| OpCall (isPublic : bool) (endpoint : string) (options : RequestInit)
         (now : Z) (probe : Probe)
| OpEnter (isPublic : bool) (endpoint : string) (options : RequestInit) (now : Z)
| OpResume (isPublic : bool) (endpoint : string) (options : RequestInit)
           (now : Z) (answer : HealthAnswer)
| OpProbe (probe : Probe)
| OpAttempt (isConnectionError is503Error : Error -> bool) (f : Exec.FetchResult)
| OpComplete (isConnectionError is503Error : Error -> bool) (promise : nat)
             (f : Exec.FetchResult)
| OpSettle (promise : nat)
| OpFireTimer (now : Z) (timeout : nat)
| OpShow (now : Z) (failed : list string) (is503 : bool) (cb : option nat)
| OpHide
| OpSetApiBlocked (isBlocked : bool)
| OpResetHealthGate
| OpStartPageTracking
| OpTrack (endpoint : string).

Definition run (s : State) (op : Op) : State :=
  match op with
  | OpCall isPublic endpoint options now probe =>
      snd (requestInternal isPublic endpoint options now probe s)
  | OpEnter isPublic endpoint options now =>
      snd (requestInternal_enter isPublic endpoint options now s)
  | OpResume isPublic endpoint options now answer =>
      snd (requestInternal_resume isPublic endpoint options now answer s)
  | OpProbe probe => snd (runProbe probe s)
  | OpAttempt isConnectionError is503Error f =>
      foldl applyEffect s (snd (Exec.executeRequest isConnectionError is503Error f))
  | OpComplete isConnectionError is503Error promise f =>
      snd (complete isConnectionError is503Error promise f s)
  | OpSettle promise => settle promise s
  | OpFireTimer now timeout => fireTimer now timeout s
  | OpShow now failed is503 cb => showApiFailureModal now failed is503 cb s
  | OpHide => hideApiFailureModal s
  | OpSetApiBlocked isBlocked => setApiBlocked isBlocked s
  | OpResetHealthGate => resetHealthGate s
  | OpStartPageTracking => Tracking.startPageTracking s
  | OpTrack endpoint => trackApiCall endpoint s
  end.

(** An effect that does not reset the global 503 status. *)
Definition keeps503 (eff : Exec.Effect) : Prop :=
  eff ≠ Exec.SetGlobal503Status false.

(** Every entry of the registry has its timer: the handle stored under
    the key names an armed timer of that key; timer handles stored are
    armed; armed handles are older than the next one. *)
Definition registryWf (r : Registry) : Prop :=
  (∀ key t, requestTimeouts r !! key = Some t ->
            ∃ due, timers r !! t = Some (key, due))
  ∧ (∀ key p, pendingRequests r !! key = Some p ->
              is_Some (requestTimeouts r !! key))
  ∧ (∀ t, is_Some (timers r !! t) -> (t < nextTimer r)%nat).

End ClientOps.

(** ** A request and the token *)

Module Request.
Import Js.

(** [executeRequest(url, options, requireAuth)] with the token manager:
    before [fetch] is called, [requireAuth] makes the request read the
    [Authorization] header from [jwtAuth.getAuthHeaders()], which
    clears a token that has expired.  [fetch] stands for what
    [fetch(url, config)] does with the headers the token gave; [now] is
    the time at which the token is read. *)
Definition executeRequest (isConnectionError is503Error : Error -> bool)
    (requireAuth : bool) (now : Z)
    (fetch : list (string * string) -> Exec.FetchResult) (jwtAuth : Jwt.Manager)
    : Outcome Json * list Exec.Effect * Jwt.Manager :=
  let '(authHeaders, jwtAuth') :=
    if requireAuth then Jwt.getAuthHeaders now jwtAuth else ([], jwtAuth) in
  let '(out, effs) :=
    Exec.executeRequest isConnectionError is503Error (fetch authHeaders) in
  (out, effs, jwtAuth').

End Request.

(** ** The global health check *)

Module GlobalCheck.
Import Js ApiSW ApiRun.

(** The client together with [global503CheckPromise]: the promise of the
    global health check if there is one, the value each such promise
    resolves with, and how many there have been. *)
Record Checker : Type := mkChecker {
  client : State;
  global503CheckPromise : option nat;
  resolved : gmap nat bool;
  checks : nat
}.

(** [performGlobalHealthCheck], the check run without interleaving;
    [probe] is how [api.checkHealth()] runs. *)
Definition performGlobalHealthCheck (probe : Probe) (c : Checker) : nat * Checker :=
  match global503CheckPromise c with
  | Some promise => (promise, c)
  | None =>
      let promise := checks c in
      let '(healthResult, s1) := runProbe probe (client c) in
      let healthy := match healthResult with
                     | HealthValue false => true
                     | HealthValue true | HealthThrew => false
                     end in
      (promise,
       mkChecker (setGlobal503Status (negb healthy) s1) (Some promise)
                 (<[promise := healthy]> (resolved c)) (S promise))
  end.

(** [resetGlobal503Status] *)
Definition resetGlobal503Status (c : Checker) : Checker :=
  mkChecker (ApiSW.resetGlobal503Status (client c)) None (resolved c) (checks c).

(** What happens around the global check: the check is asked for, the
    status is set, or the client takes a step of its own. *)
Inductive Op : Type :=
| OpPerform (probe : Probe)
| OpSetStatus (status : bool)
| OpClient (op : ClientOps.Op).

Definition run (c : Checker) (op : Op) : Checker :=
  match op with
  | OpPerform probe => snd (performGlobalHealthCheck probe c)
  | OpSetStatus status =>
      mkChecker (setGlobal503Status status (client c)) (global503CheckPromise c)
                (resolved c) (checks c)
  | OpClient op' =>
      mkChecker (ClientOps.run (client c) op') (global503CheckPromise c)
                (resolved c) (checks c)
  end.

Definition fresh : Checker := mkChecker init None ∅ 0.

End GlobalCheck.

(** ** More concrete runs *)

Module Scenario2.
Import Js ApiSW ApiRun Scenario.

(** The first request for [/v0/about] is cleared from the registry by
    its timer, a second call registers promise 1, and then the first
    promise settles. *)
Definition timedOut : State := fireTimer 1030020 1 inFlight.

Definition secondInFlight : State :=
  snd (makeRequest ABOUT noOptions 1031000 healthy timedOut).

Definition firstSettlesLate : State := settle 0 secondInFlight.

(** The call for [/v0/about] suspended in the health check resumes at
    1,000,020 ms with the answer that the backend is down, and the
    global 503 status is reset afterwards. *)
Definition healthFailed : State :=
  snd (requestInternal_resume false ABOUT noOptions 1000020 (HealthValue true)
         (snd (runProbe unhealthy suspended))).

Definition afterOutage : State := resetGlobal503Status healthFailed.

(** Six routes of a page, two of them named twice. *)
Definition pageRoutes : list string :=
  ["/v0/nav"; "/v0/services"; "/v0/nav"; "/v0/reviews"; "/v0/services"; "/v0/about"].

Definition entry (n : Z) : Tracking.LogEntry :=
  Tracking.mkLogEntry n "/v0/about" "HTTP 500: Internal Server Error" None false false "home".

(** A log with the entries of times 1 to 100. *)
Definition fullLog : list Tracking.LogEntry :=
  map (fun n => entry (Z.of_nat n)) (seq 1 100).

(** A health probe that throws after four tries. *)
Definition throwing : Probe := Requested 4 HealthThrew true 20.

(** Two gateway timeouts, then the document. *)
Definition recovers : nat -> Outcome Json :=
  fun i => if (i <? 2)%nat then Rejected gatewayTimeout else Resolved aboutData.

(** A token whose string is empty. *)
Definition emptyToken : Jwt.JWTToken := Jwt.mkToken "" 2000000 None.

(** The inner registry once a first request for [/v0/about] has been
    let through at 1,000,000 ms. *)
Definition innerAfterFirst : Inner :=
  snd (executeRequestWithDeduplication_enter 1000000 ABOUT noOptions (mkInner ∅ ∅)).

(** The backend answers the wrapped call with a 503 error. *)
Definition failing503 : State -> Outcome Json * State :=
  fun s => (Rejected (newError "Service temporarily unavailable (503): maintenance"), s).

(** A 403 answer with a JSON body. *)
Definition answer403 : Exec.FetchResult :=
  Exec.FetchResponse
    (Exec.mkResponse false 403 "Forbidden" "https://api.example/v0/auth/me"
       (Some (JObj [("message", JStr "sign in first")]))).

(** The global check passes, and later a health check of a call fails. *)
Definition checkedThenDown : GlobalCheck.Checker :=
  foldl GlobalCheck.run GlobalCheck.fresh
    [GlobalCheck.OpPerform healthy;
     GlobalCheck.OpClient (ClientOps.OpCall false ABOUT noOptions 1000000 unhealthy)].

(** A server-side run with a URL in capitals. *)
Definition serverEnv : Config.Env :=
  Config.mkEnv false None (Some {[ "VITE_API_URL" := "HTTPS://API.PACKMOVEGO.COM" ]})
               ∅ None.

(** A 502 answer without a JSON body. *)
Definition response502 : Exec.Response :=
  Exec.mkResponse false 502 "Bad Gateway" "https://api.example/v0/services" None.

(** The same run through [makePublicRequest], where every request
    started is a [fetch]: the first request for [/v0/about] is cleared
    from the registry by its timer, a second call registers promise 1,
    then the first promise settles; a third call follows at
    1,032,000 ms, and its health check answers: no error. *)
Definition publicInFlight : State :=
  snd (makePublicRequest ABOUT noOptions 1000000 healthy init).

Definition publicSecond : State :=
  snd (makePublicRequest ABOUT noOptions 1031000 healthy
         (fireTimer 1030020 1 publicInFlight)).

Definition publicFirstSettlesLate : State := settle 0 publicSecond.

Definition publicThird : State :=
  snd (runProbe healthy
         (snd (requestInternal_enter true ABOUT noOptions 1032000
                 publicFirstSettlesLate))).

(** A [fetch] that answers 200 whatever the headers, and one that
    answers 403. *)
Definition fetch200 : list (string * string) -> Exec.FetchResult :=
  fun _ => answer200.

Definition fetch403 : list (string * string) -> Exec.FetchResult :=
  fun _ => answer403.

End Scenario2.
(* ===================================================================== *)
(** * Properties *)
(* ===================================================================== *)

(** ** Failure notifier *)

Module NotifierFacts.
Import Js ApiSW Scenario.

Lemma existsb_eqb_elem (x : string) (l : list string) :
  existsb (String.eqb x) l = true <-> x ∈ l.
Proof.
  rewrite existsb_exists. split.
  - intros (y & Hy & Heq). apply String.eqb_eq in Heq. subst.
    by apply list_elem_of_In.
  - intros H. exists x. split; [by apply list_elem_of_In | apply String.eqb_refl].
Qed.

Lemma arrayFromSet_elem (xs seen : list string) (x : string) :
  x ∈ arrayFromSet seen xs <-> x ∈ xs ∧ x ∉ seen.
Proof.
  revert seen. induction xs as [|y ys IH]; intros seen; simpl.
  - split; [intros H; inversion H | intros [H _]; inversion H].
  - destruct (existsb (String.eqb y) seen) eqn:E.
    + apply existsb_eqb_elem in E. rewrite IH, elem_of_cons.
      split; [intros [? ?]; by auto |].
      intros [[-> | Hx] Hn]; [by destruct Hn | by auto].
    + assert (y ∉ seen) as Hy.
      { intros H. apply existsb_eqb_elem in H. congruence. }
      rewrite !elem_of_cons, IH, not_elem_of_cons.
      destruct (decide (x = y)) as [-> | Hne].
      { split; [intros _; split; [by left | done] | intros _; by left]. }
      split.
      * intros [? | (? & ? & ?)]; [done | by auto].
      * intros [[? | ?] ?]; [done | by auto].
Qed.

Lemma arrayFromSet_NoDup (xs seen : list string) : NoDup (arrayFromSet seen xs).
Proof.
  revert seen. induction xs as [|y ys IH]; intros seen; simpl.
  - constructor.
  - destruct (existsb (String.eqb y) seen); [apply IH |].
    constructor; [| apply IH].
    rewrite arrayFromSet_elem, not_elem_of_cons. by intros (_ & ? & _).
Qed.

(** C8. A show request changes nothing while a notification is visible,
    and nothing when it arrives less than 5000 ms after the last one
    shown; with nothing visible and the cooldown over, it makes a
    notification visible whose list of endpoints has no duplicate and
    holds exactly the endpoints of the request. *)
Theorem show_once_per_cooldown
    (now : Z) (failed : list string) (is503 : bool) (cb : option nat) (s : State) :
  (isVisible (getModalState s) = true ->
     showApiFailureModal now failed is503 cb s = s)
  ∧ (now - lastModalShowTime (modal s) < modalCooldown ->
     showApiFailureModal now failed is503 cb s = s)
  ∧ (isVisible (getModalState s) = false ->
     modalCooldown <= now - lastModalShowTime (modal s) ->
     let s' := showApiFailureModal now failed is503 cb s in
     isVisible (getModalState s') = true
     ∧ NoDup (m_failedEndpoints (getModalState s'))
     ∧ (∀ x, x ∈ m_failedEndpoints (getModalState s') <-> x ∈ failed)
     ∧ m_is503Error (getModalState s') = is503
     ∧ lastModalShowTime (modal s') = now).
Proof.
  unfold showApiFailureModal, getModalState. repeat split.
  - intros ->. reflexivity.
  - intros H. destruct (isVisible _); [reflexivity |].
    apply Z.ltb_lt in H. by rewrite H.
  - rewrite H. apply Z.ltb_ge in H0. rewrite H0. reflexivity.
  - rewrite H. apply Z.ltb_ge in H0. rewrite H0. simpl.
    apply arrayFromSet_NoDup.
  - rewrite H. apply Z.ltb_ge in H0. rewrite H0. simpl.
    rewrite arrayFromSet_elem. by intros [? _].
  - rewrite H. apply Z.ltb_ge in H0. rewrite H0. simpl.
    rewrite arrayFromSet_elem. intros ?. split; [done | apply not_elem_of_nil].
  - rewrite H. apply Z.ltb_ge in H0. by rewrite H0.
  - rewrite H. apply Z.ltb_ge in H0. by rewrite H0.
Qed.

Lemma show_once_per_cooldown_witness :
  m_failedEndpoints (getModalState shown) = ["/v0/nav"; "/v0/services"]
  ∧ showApiFailureModal 1000100 ["/v0/about"] true None shown = shown
  ∧ showApiFailureModal 1004999 ["/v0/about"] true None (hideApiFailureModal shown)
    = hideApiFailureModal shown
  ∧ isVisible (getModalState
      (showApiFailureModal 1005000 ["/v0/about"] true None (hideApiFailureModal shown)))
    = true.
Proof.
  split; [reflexivity |].
  split.
  { apply (show_once_per_cooldown 1000100 ["/v0/about"] true None shown).
    reflexivity. }
  split.
  { apply (show_once_per_cooldown 1004999 ["/v0/about"] true None
             (hideApiFailureModal shown)).
    vm_compute. reflexivity. }
  apply (show_once_per_cooldown 1005000 ["/v0/about"] true None
           (hideApiFailureModal shown)).
  - reflexivity.
  - vm_compute. discriminate.
Defined.

(** Every notification state reached by show and hide requests has a
    duplicate-free list of endpoints. *)
Lemma requests_NoDup (rs : list Request) (s : State) :
  NoDup (m_failedEndpoints (getModalState s)) ->
  NoDup (m_failedEndpoints (getModalState (foldl (fun s r => request r s) s rs))).
Proof.
  revert s. induction rs as [|r rs IH]; intros s Hs; simpl; [done |].
  apply IH. destruct r as [now failed is503 cb|]; simpl.
  - unfold showApiFailureModal, getModalState in *.
    destruct (isVisible _); [done |].
    destruct (_ <? _)%Z; [done |]. simpl. apply arrayFromSet_NoDup.
  - constructor.
Qed.

End NotifierFacts.

(** ** Bearer token *)

Module JwtFacts.
Import Jwt Scenario.

Lemma clearToken_storage (m : Manager) (items : gmap string Stored) :
  localStorage m = Some items ->
  localStorage (clearToken m) = Some (delete STORAGE_KEY items).
Proof. intros H. unfold clearToken. simpl. by rewrite H. Qed.

(** C10. On every access, whatever the state of the manager: if the
    token held expires before the current time, [getToken] returns
    [null], no [Authorization] header is built, the manager is not
    authenticated, and the token is gone from memory and from
    [localStorage]; and a token that [getToken] does return is the one
    held and has not expired. *)
Theorem expired_token_never_yielded (now : Z) (m : Manager) :
  (∀ t, current m = Some t -> expiresAt t < now ->
     getToken now m = (None, clearToken m)
     ∧ getAuthHeaders now m = ([], clearToken m)
     ∧ isAuthenticated now m = (false, clearToken m)
     ∧ current (clearToken m) = None
     ∧ (∀ items, localStorage m = Some items ->
          ∃ items', localStorage (clearToken m) = Some items'
                    ∧ items' !! STORAGE_KEY = None))
  ∧ (∀ tok, fst (getToken now m) = Some tok ->
       ∃ t, current m = Some t ∧ token t = tok ∧ now <= expiresAt t
            ∧ snd (getToken now m) = m).
Proof.
  split.
  - intros t Ht Hexp.
    assert (getToken now m = (None, clearToken m)) as Hget.
    { unfold getToken. rewrite Ht.
      apply Z.ltb_lt in Hexp. by rewrite Hexp. }
    repeat split.
    + exact Hget.
    + unfold getAuthHeaders. by rewrite Hget.
    + unfold isAuthenticated. by rewrite Hget.
    + intros items Hitems. exists (delete STORAGE_KEY items).
      split; [by apply clearToken_storage | apply lookup_delete_eq].
  - intros tok. unfold getToken.
    destruct (current m) as [t|]; [| discriminate].
    destruct (expiresAt t <? now)%Z eqn:E; [discriminate |].
    simpl. intros [= <-]. exists t.
    apply Z.ltb_ge in E. by repeat split.
Qed.

Lemma expired_token_never_yielded_witness :
  getToken 2000001 signedIn = (None, clearToken signedIn)
  ∧ getToken 2000000 signedIn = (Some "abc.def.ghi", signedIn).
Proof.
  split.
  - apply (expired_token_never_yielded 2000001 signedIn) with (t := aToken).
    + reflexivity.
    + simpl. lia.
  - destruct (proj2 (expired_token_never_yielded 2000000 signedIn) "abc.def.ghi")
      as (t & _ & _ & _ & Hm); [reflexivity |].
    reflexivity.
Defined.

(** The same after any sequence of operations on the manager. *)
Lemma no_expired_token_after (ops : list Op) (m : Manager) (now : Z) (tok : string) :
  fst (getToken now (foldl (fun m op => run op m) m ops)) = Some tok ->
  ∃ t, current (foldl (fun m op => run op m) m ops) = Some t
       ∧ token t = tok ∧ now <= expiresAt t.
Proof.
  generalize (foldl (fun m op => run op m) m ops). intros m'. unfold getToken.
  destruct (current m') as [t|]; [| discriminate].
  destruct (Z.ltb_spec (expiresAt t) now); [discriminate |].
  intros [= <-]. by exists t.
Qed.

(** [loadStoredToken], at startup, drops a stored token that has expired. *)
Lemma load_drops_expired (now : Z) (m : Manager) (items : gmap string Stored)
    (t : JWTToken) :
  localStorage m = Some items ->
  items !! STORAGE_KEY = Some (StoredToken t) ->
  expiresAt t < now ->
  current (loadStoredToken now m) = None.
Proof.
  intros Hs Hi Hexp. unfold loadStoredToken. rewrite Hs, Hi.
  apply Z.ltb_lt in Hexp. by rewrite Hexp.
Qed.

End JwtFacts.

(** ** Retry engine *)

Module RetryFacts.
Import Js Retry Scenario.

Section Loop.
Context {T : Type}.
Variable isConnectionError : Error -> bool.
Variable fn : nat -> Outcome T.
Variable random : nat -> Q.
Variable maxR : nat.

Lemma loop_unfold (remaining attempt : nat) (lastError : option Error) :
  loop isConnectionError fn random maxR (S remaining) attempt lastError
  = match fn attempt with
    | Resolved v => (Resolved v, [Attempt attempt])
    | Rejected error =>
        if (negb (isRetryableError isConnectionError error)
            || Nat.eqb attempt maxR)%bool
        then (Rejected error, [Attempt attempt])
        else
          let '(r, evs) :=
            loop isConnectionError fn random maxR remaining (S attempt) (Some error) in
          (r, Attempt attempt :: Sleep (backoffDelay attempt (random attempt)) :: evs)
    end.
Proof. reflexivity. Qed.

(** The loop, entered at [attempt] with every attempt from there to the
    last failing retryably, runs them all. *)
Lemma loop_exhausts (remaining attempt : nat) (lastError : option Error) :
  (attempt + S remaining = S maxR)%nat ->
  (∀ i, (attempt <= i <= maxR)%nat -> failsRetryably isConnectionError fn i) ->
  ∃ evs,
    loop isConnectionError fn random maxR (S remaining) attempt lastError
    = (fn maxR, evs)
    ∧ attempts evs = S remaining
    ∧ delays evs = map (fun n => backoffDelay n (random n)) (seq attempt remaining).
Proof.
  revert attempt lastError.
  induction remaining as [|remaining IH]; intros attempt lastError Hsum Hfail.
  - assert (attempt = maxR) as -> by lia.
    destruct (Hfail maxR) as (e & He & Hr); [lia |].
    exists [Attempt maxR]. rewrite loop_unfold, He, Hr, Nat.eqb_refl. done.
  - destruct (Hfail attempt) as (e & He & Hr); [lia |].
    destruct (IH (S attempt) (Some e)) as (evs & Hloop & Hatt & Hdel);
      [lia | intros i Hi; apply Hfail; lia |].
    exists (Attempt attempt :: Sleep (backoffDelay attempt (random attempt)) :: evs).
    rewrite loop_unfold, He, Hr.
    assert (Nat.eqb attempt maxR = false) as -> by (apply Nat.eqb_neq; lia).
    cbn [negb orb]. rewrite Hloop. simpl. rewrite Hatt, Hdel. done.
Qed.

(** The loop stops at the first error that is not retryable. *)
Lemma loop_stops (remaining attempt k : nat) (lastError : option Error) (e : Error) :
  (attempt + S remaining = S maxR)%nat ->
  (attempt <= k <= maxR)%nat ->
  (∀ i, (attempt <= i < k)%nat -> failsRetryably isConnectionError fn i) ->
  fn k = Rejected e ->
  isRetryableError isConnectionError e = false ->
  ∃ evs,
    loop isConnectionError fn random maxR (S remaining) attempt lastError
    = (Rejected e, evs)
    ∧ attempts evs = S (k - attempt)
    ∧ delays evs = map (fun n => backoffDelay n (random n)) (seq attempt (k - attempt)).
Proof.
  revert attempt lastError.
  induction remaining as [|remaining IH]; intros attempt lastError Hsum Hk Hfail He Hr.
  - assert (attempt = k) as -> by lia.
    exists [Attempt k]. rewrite loop_unfold, He, Hr. simpl.
    by rewrite Nat.sub_diag.
  - destruct (decide (attempt = k)) as [-> | Hne].
    + exists [Attempt k]. rewrite loop_unfold, He, Hr. simpl.
      by rewrite Nat.sub_diag.
    + destruct (Hfail attempt) as (e' & He' & Hr'); [lia |].
      destruct (IH (S attempt) (Some e')) as (evs & Hloop & Hatt & Hdel);
        [lia | lia | intros i Hi; apply Hfail; lia | done | done |].
      exists (Attempt attempt :: Sleep (backoffDelay attempt (random attempt)) :: evs).
      rewrite loop_unfold, He', Hr'.
      assert (Nat.eqb attempt maxR = false) as -> by (apply Nat.eqb_neq; lia).
      cbn [negb orb]. rewrite Hloop. simpl. rewrite Hatt, Hdel.
      replace (k - attempt)%nat with (S (k - S attempt)) by lia. done.
Qed.

End Loop.

(** ** The doubles of the delay

    [roundHalfEven] rounds to an integer that [z] bounds when the
    quotient is bounded by [z], or lies below [z + 1/2]. *)
Lemma roundHalfEven_le (n d z : Z) : 0 < d -> n <= z * d -> roundHalfEven n d <= z.
Proof.
  intros Hd Hn. unfold roundHalfEven.
  pose proof (Z.div_mod n d ltac:(lia)) as E.
  pose proof (Z.mod_pos_bound n d Hd) as B.
  assert (n / d <= z) as Hf by (apply Z.div_le_upper_bound; lia).
  assert (2 * (n mod d) >= d -> n / d + 1 <= z) as Hup by nia.
  destruct (Z.ltb_spec (2 * (n mod d)) d); [done |].
  destruct (Z.ltb_spec d (2 * (n mod d))); [lia |].
  destruct (Z.even (n / d)); lia.
Qed.

Lemma roundHalfEven_le_half (n d z : Z) :
  0 < d -> 2 * n < (2 * z + 1) * d -> roundHalfEven n d <= z.
Proof.
  intros Hd Hn. unfold roundHalfEven.
  pose proof (Z.div_mod n d ltac:(lia)) as E.
  pose proof (Z.mod_pos_bound n d Hd) as B.
  assert (n / d < z + 1) as Hf by (apply Z.div_lt_upper_bound; nia).
  destruct (Z.ltb_spec (2 * (n mod d)) d); [lia |].
  assert (n / d + 1 <= z) by nia.
  destruct (Z.ltb_spec d (2 * (n mod d))); [lia |].
  destruct (Z.even (n / d)); lia.
Qed.

Lemma roundHalfEven_ge (n d z : Z) : 0 < d -> z * d <= n -> z <= roundHalfEven n d.
Proof.
  intros Hd Hn. unfold roundHalfEven.
  assert (z <= n / d) as Hf by (apply Z.div_le_lower_bound; lia).
  destruct (Z.ltb_spec (2 * (n mod d)) d); [done |].
  destruct (Z.ltb_spec d (2 * (n mod d))); [lia |].
  destruct (Z.even (n / d)); lia.
Qed.

Lemma exponent_le (q : Q) (c : Z) :
  -1 <= c -> 0 <= Qnum q -> Qnum q < 2 ^ (c + 1) * Zpos (Qden q) -> exponent q <= c.
Proof.
  intros Hc Hn Hlt. unfold exponent. destruct q as [n d0]. cbn [Qnum Qden] in *.
  remember (Zpos d0) as d eqn:Ed.
  assert (0 < d) as Hd by lia. clear Ed d0.
  pose proof (Z.log2_nonneg n) as Ha. pose proof (Z.log2_nonneg d) as Hb.
  destruct (Z.log2_spec d Hd) as [Hd1 Hd2].
  destruct (decide (n = 0)) as [-> | Hn0].
  { change (Z.log2 0) with 0. rewrite Z.pow_0_r.
    destruct (Z.leb_spec (1 * d) (0 * 2 ^ Z.log2 d)); lia. }
  destruct (Z.log2_spec n ltac:(lia)) as [Hn1 Hn2].
  assert (Z.log2 n - Z.log2 d <= c + 1) as Hab.
  { assert (2 ^ Z.log2 n < 2 ^ (c + 1 + Z.succ (Z.log2 d))) as H.
    { rewrite Z.pow_add_r by lia. nia. }
    apply Z.pow_lt_mono_r_iff in H; lia. }
  destruct (Z.leb_spec (2 ^ Z.log2 n * d) (n * 2 ^ Z.log2 d)) as [Ht | Ht]; [| lia].
  destruct (decide (Z.log2 n - Z.log2 d = c + 1)) as [E | E]; [| lia].
  exfalso. replace (Z.log2 n) with (c + 1 + Z.log2 d) in Ht by lia.
  rewrite Z.pow_add_r in Ht by lia.
  assert (0 < 2 ^ Z.log2 d) by (apply Z.pow_pos_nonneg; lia). nia.
Qed.

Lemma exponent_ge (q : Q) (c : Z) :
  0 <= c -> 2 ^ c * Zpos (Qden q) <= Qnum q -> c <= exponent q.
Proof.
  intros Hc Hle. unfold exponent. destruct q as [n d0]. cbn [Qnum Qden] in *.
  remember (Zpos d0) as d eqn:Ed.
  assert (0 < d) as Hd by lia. clear Ed d0.
  assert (0 < 2 ^ c) as Hpc by (apply Z.pow_pos_nonneg; lia).
  assert (0 < n) as Hn by nia.
  pose proof (Z.log2_nonneg n) as Ha. pose proof (Z.log2_nonneg d) as Hb.
  destruct (Z.log2_spec d Hd) as [Hd1 Hd2].
  destruct (Z.log2_spec n Hn) as [Hn1 Hn2].
  assert (0 < 2 ^ Z.log2 d) as Hpb by (apply Z.pow_pos_nonneg; lia).
  assert (0 < 2 ^ Z.log2 n) as Hpa by (apply Z.pow_pos_nonneg; lia).
  assert (c + Z.log2 d <= Z.log2 n) as Hab.
  { assert (2 ^ (c + Z.log2 d) < 2 ^ Z.succ (Z.log2 n)) as H.
    { rewrite Z.pow_add_r by lia. nia. }
    apply Z.pow_lt_mono_r_iff in H; lia. }
  destruct (Z.leb_spec (2 ^ Z.log2 n * d) (n * 2 ^ Z.log2 d)) as [Ht | Ht]; [lia |].
  destruct (decide (c + Z.log2 d = Z.log2 n)) as [E | E]; [| lia].
  exfalso. rewrite <- E, Z.pow_add_r in Ht by lia. nia.
Qed.

(** A rational [q] below a number of [q]'s grid rounds to at most that
    number, and above to at least. *)
Lemma roundDouble_le (q : Q) (z j : Z) :
  0 <= j <= 52 - Z.max (exponent q) (-1022) ->
  (q <= z # Z.to_pos (2 ^ j))%Q ->
  (roundDouble q <= z # Z.to_pos (2 ^ j))%Q.
Proof.
  intros Hj Hq. unfold roundDouble.
  set (k := 52 - Z.max (exponent q) (-1022)) in *.
  destruct (Z.leb_spec 0 k); [| lia].
  assert (0 < 2 ^ j) as Hpj by (apply Z.pow_pos_nonneg; lia).
  assert (0 < 2 ^ k) as Hpk by (apply Z.pow_pos_nonneg; lia).
  assert (0 < 2 ^ (k - j)) as Hpkj by (apply Z.pow_pos_nonneg; lia).
  assert (2 ^ k = 2 ^ j * 2 ^ (k - j)) as Hk
    by (rewrite <- Z.pow_add_r by lia; f_equal; lia).
  unfold Qle in *. cbn [Qnum Qden] in *. rewrite Z2Pos.id in Hq by lia.
  rewrite !Z2Pos.id by lia.
  assert (roundHalfEven (Qnum q * 2 ^ k) (Z.pos (Qden q)) <= z * 2 ^ (k - j)) as H1.
  { apply roundHalfEven_le; [lia |]. rewrite Hk. nia. }
  set (m := roundHalfEven _ _) in *. rewrite Hk. nia.
Qed.

Lemma roundDouble_ge (q : Q) (z j : Z) :
  0 <= j <= 52 - Z.max (exponent q) (-1022) ->
  (z # Z.to_pos (2 ^ j) <= q)%Q ->
  (z # Z.to_pos (2 ^ j) <= roundDouble q)%Q.
Proof.
  intros Hj Hq. unfold roundDouble.
  set (k := 52 - Z.max (exponent q) (-1022)) in *.
  destruct (Z.leb_spec 0 k); [| lia].
  assert (0 < 2 ^ j) as Hpj by (apply Z.pow_pos_nonneg; lia).
  assert (0 < 2 ^ k) as Hpk by (apply Z.pow_pos_nonneg; lia).
  assert (0 < 2 ^ (k - j)) as Hpkj by (apply Z.pow_pos_nonneg; lia).
  assert (2 ^ k = 2 ^ j * 2 ^ (k - j)) as Hk
    by (rewrite <- Z.pow_add_r by lia; f_equal; lia).
  unfold Qle in *. cbn [Qnum Qden] in *. rewrite Z2Pos.id in Hq by lia.
  rewrite !Z2Pos.id by lia.
  assert (z * 2 ^ (k - j) <= roundHalfEven (Qnum q * 2 ^ k) (Z.pos (Qden q))) as H1.
  { apply roundHalfEven_ge; [lia |]. rewrite Hk. nia. }
  set (m := roundHalfEven _ _) in *. rewrite Hk. nia.
Qed.

Lemma roundDouble_between (q : Q) (lo hi : Z) :
  0 <= lo -> hi < 2 ^ 53 ->
  (inject_Z lo <= q)%Q -> (q <= inject_Z hi)%Q ->
  (inject_Z lo <= roundDouble q)%Q ∧ (roundDouble q <= inject_Z hi)%Q.
Proof.
  intros Hlo Hhi Hq1 Hq2.
  assert (0 <= Qnum q ∧ Qnum q < 2 ^ (52 + 1) * Zpos (Qden q)) as [Hn Hd].
  { unfold Qle in Hq1, Hq2. cbn [Qnum Qden inject_Z] in Hq1, Hq2.
    change (2 ^ (52 + 1)) with (2 ^ 53). nia. }
  pose proof (exponent_le q 52 ltac:(lia) Hn Hd) as He.
  change (inject_Z lo) with (lo # Z.to_pos (2 ^ 0)).
  change (inject_Z hi) with (hi # Z.to_pos (2 ^ 0)).
  split; [apply roundDouble_ge | apply roundDouble_le]; try done; lia.
Qed.

(** The jitter [Math.random() * 1000] is a double below 1000: a draw is
    at most [1 - 2^-53], the product lies below [1000 - 2^-44], half a
    step of the doubles between 512 and 1024 below 1000. *)
Lemma jitter_bounds (r : Q) :
  (0 <= r)%Q -> (r <= maxRandom)%Q ->
  (0 <= roundDouble (r * 1000))%Q ∧ (roundDouble (r * 1000) < 1000)%Q.
Proof.
  intros H0 H1.
  assert (0 <= Qnum (r * 1000)
          ∧ Qnum (r * 1000) * 9007199254740992
            <= 1000 * 9007199254740991 * Zpos (Qden (r * 1000))) as [Hn Hb].
  { unfold Qle, maxRandom in H0, H1. cbn [Qnum Qden Qmult] in *.
    rewrite Pos.mul_1_r. lia. }
  set (q := (r * 1000)%Q) in *.
  split.
  - change 0%Q with (0 # Z.to_pos (2 ^ 0)). apply roundDouble_ge.
    + assert (exponent q <= 52); [| lia].
      apply exponent_le; [lia | done |]. change (2 ^ (52 + 1)) with 9007199254740992. lia.
    + unfold Qle. cbn [Qnum Qden]. lia.
  - destruct (Z_lt_le_dec (Qnum q) (512 * Zpos (Qden q))) as [Hlt | Hge].
    + apply Qle_lt_trans with (y := inject_Z 512); [| reflexivity].
      apply (roundDouble_between q 0 512); [lia | done | |].
      * unfold Qle. cbn [Qnum Qden inject_Z]. lia.
      * unfold Qle. cbn [Qnum Qden inject_Z]. lia.
    + assert (exponent q = 9) as He.
      { apply Z.le_antisymm.
        - apply exponent_le; [lia | done |]. change (2 ^ (9 + 1)) with 1024. lia.
        - apply exponent_ge; [lia |]. change (2 ^ 9) with 512. lia. }
      unfold roundDouble. rewrite He.
      change (52 - Z.max 9 (-1022)) with 43. cbn [Z.leb Z.compare].
      change (2 ^ 43) with 8796093022208.
      assert (roundHalfEven (Qnum q * 8796093022208) (Z.pos (Qden q))
              <= 1000 * 8796093022208 - 1) as Hr.
      { apply roundHalfEven_le_half; lia. }
      unfold Qlt. cbn [Qnum Qden]. cbn [Z.to_pos]. lia.
Qed.

Lemma base_exact (n : nat) :
  (n <= 42)%nat ->
  (roundDouble (inject_Z baseDelay * inject_Z (2 ^ Z.of_nat n))
   == inject_Z (1000 * 2 ^ Z.of_nat n))%Q.
Proof.
  intros Hn.
  assert (0 < 2 ^ Z.of_nat n <= 2 ^ 42) as [Hp Hle].
  { split; [apply Z.pow_pos_nonneg; lia | apply Z.pow_le_mono_r; lia]. }
  change (2 ^ 42) with 4398046511104 in Hle.
  destruct (roundDouble_between (inject_Z baseDelay * inject_Z (2 ^ Z.of_nat n))
              (1000 * 2 ^ Z.of_nat n) (1000 * 2 ^ Z.of_nat n)) as [H1 H2].
  - lia.
  - change (2 ^ 53) with 9007199254740992. lia.
  - unfold Qle, baseDelay. cbn [Qnum Qden inject_Z Qmult]. lia.
  - unfold Qle, baseDelay. cbn [Qnum Qden inject_Z Qmult]. lia.
  - by apply Qle_antisym.
Qed.

(** The delay slept after attempt [n], for a draw [r] of [Math.random()]:
    the double nearest to [1000 * 2^n + jitter], capped at 10000. *)
Lemma backoffDelay_bounds (n : nat) (r : Q) :
  (n <= 42)%nat -> (0 <= r)%Q -> (r <= maxRandom)%Q ->
  let jitter := roundDouble (r * 1000) in
  let sum := roundDouble (roundDouble (inject_Z 1000 * inject_Z (2 ^ Z.of_nat n)) + jitter) in
  (0 <= jitter)%Q ∧ (jitter < 1000)%Q
  ∧ (inject_Z (1000 * 2 ^ Z.of_nat n) <= sum)%Q
  ∧ (sum <= inject_Z (1000 * 2 ^ Z.of_nat n + 1000))%Q
  ∧ backoffDelay n r = Qmin sum 10000.
Proof.
  intros Hn H0 H1 jitter sum.
  destruct (jitter_bounds r H0 H1) as [J0 J1]. fold jitter in J0, J1.
  pose proof (base_exact n Hn) as Hb. unfold baseDelay in Hb.
  assert (0 < 2 ^ Z.of_nat n <= 2 ^ 42) as [Hp Hle].
  { split; [apply Z.pow_pos_nonneg; lia | apply Z.pow_le_mono_r; lia]. }
  change (2 ^ 42) with 4398046511104 in Hle.
  split; [done |]. split; [done |].
  destruct (roundDouble_between
              (roundDouble (inject_Z 1000 * inject_Z (2 ^ Z.of_nat n)) + jitter)
              (1000 * 2 ^ Z.of_nat n) (1000 * 2 ^ Z.of_nat n + 1000)) as [S1 S2].
  - lia.
  - change (2 ^ 53) with 9007199254740992. lia.
  - rewrite Hb. rewrite <- (Qplus_0_r (inject_Z (1000 * 2 ^ Z.of_nat n))) at 1.
    by apply Qplus_le_r.
  - rewrite Hb, inject_Z_plus. apply Qplus_le_r. by apply Qlt_le_weak.
  - done.
Qed.

(** C3. When every attempt of a retried operation fails with a retryable
    error, [fn] is called [maxRetries + 1 = 4] times and the error of the
    last attempt is thrown.  The delay slept after attempt [n] (0, 1, 2)
    is [min(base + jitter, 10000)] in the arithmetic of doubles: [base]
    is [1000 * 2^n], the jitter [Math.random() * 1000] lies in
    [0, 1000), their sum is rounded to the nearest double, so that the
    delay lies between [1000 * 2^n] and [1000 * 2^n + 1000] and below the
    cap of 10000 ms, which [backoffDelay] applies from attempt 4 on.  An
    error that is not retryable is thrown at once, with no further
    attempt. *)
Theorem retry_attempts_and_delays {T : Type}
    (isConnectionError : Error -> bool) (fn : nat -> Outcome T) (random : nat -> Q) :
  (∀ i, 0 <= random i ∧ random i <= maxRandom)%Q ->
  ((∀ i, (i <= 3)%nat -> failsRetryably isConnectionError fn i) ->
     ∃ evs e,
       retryWithBackoff isConnectionError fn random maxRetries = (Rejected e, evs)
       ∧ fn 3%nat = Rejected e
       ∧ attempts evs = 4%nat
       ∧ delays evs = [backoffDelay 0 (random 0%nat); backoffDelay 1 (random 1%nat);
                       backoffDelay 2 (random 2%nat)]
       ∧ Forall2 (fun d n =>
                    let jitter := roundDouble (random n * 1000) in
                    ∃ base,
                      (base == inject_Z (1000 * 2 ^ Z.of_nat n))%Q
                      ∧ (0 <= jitter)%Q ∧ (jitter < 1000)%Q
                      ∧ d = Qmin (roundDouble (base + jitter)) 10000%Q
                      ∧ (inject_Z (1000 * 2 ^ Z.of_nat n) <= d)%Q
                      ∧ (d <= inject_Z (1000 * 2 ^ Z.of_nat n + 1000))%Q
                      ∧ (d < 10000)%Q)
                 (delays evs) [0; 1; 2]%nat)
  ∧ (∀ k e, (k <= 3)%nat ->
       (∀ i, (i < k)%nat -> failsRetryably isConnectionError fn i) ->
       fn k = Rejected e ->
       isRetryableError isConnectionError e = false ->
       ∃ evs,
         retryWithBackoff isConnectionError fn random maxRetries = (Rejected e, evs)
         ∧ attempts evs = S k
         ∧ length (delays evs) = k)
  ∧ (∀ n i, (4 <= n <= 42)%nat -> (backoffDelay n (random i) == 10000)%Q).
Proof.
  intros Hrandom. split; [| split].
  - intros Hfail.
    destruct (loop_exhausts isConnectionError fn random maxRetries maxRetries 0 None)
      as (evs & Hloop & Hatt & Hdel); [done | intros i Hi; apply Hfail; unfold maxRetries in Hi; lia |].
    destruct (Hfail maxRetries) as (e & He & _); [done |].
    exists evs, e. unfold retryWithBackoff. rewrite Hloop.
    change 3%nat with maxRetries at 1. rewrite He.
    split; [done |]. split; [done |]. split; [by rewrite Hatt |].
    split; [by rewrite Hdel |].
    rewrite Hdel.
    assert (∀ n, (n < 3)%nat ->
              let jitter := roundDouble (random n * 1000) in
              ∃ base,
                (base == inject_Z (1000 * 2 ^ Z.of_nat n))%Q
                ∧ (0 <= jitter)%Q ∧ (jitter < 1000)%Q
                ∧ backoffDelay n (random n) = Qmin (roundDouble (base + jitter)) 10000%Q
                ∧ (inject_Z (1000 * 2 ^ Z.of_nat n) <= backoffDelay n (random n))%Q
                ∧ (backoffDelay n (random n) <= inject_Z (1000 * 2 ^ Z.of_nat n + 1000))%Q
                ∧ (backoffDelay n (random n) < 10000)%Q) as Hn.
    { intros n Hlt jitter.
      destruct (Hrandom n) as [H0 H1].
      destruct (backoffDelay_bounds n (random n) ltac:(lia) H0 H1)
        as (J0 & J1 & S1 & S2 & E).
      exists (roundDouble (inject_Z baseDelay * inject_Z (2 ^ Z.of_nat n))).
      split; [apply base_exact; lia |].
      split; [done |]. split; [done |]. split; [done |].
      assert (inject_Z (1000 * 2 ^ Z.of_nat n + 1000) <= 5000)%Q as Hcap.
      { destruct n as [|[|[|n]]]; [| | | lia]; vm_compute; discriminate. }
      rewrite E. clear E.
      set (sum := roundDouble (_ + _)) in *.
      assert (sum < 10000)%Q as Hlt'
        by (eapply Qle_lt_trans; [apply (Qle_trans _ _ _ S2 Hcap) | reflexivity]).
      rewrite (Q.min_l sum 10000 (Qlt_le_weak _ _ Hlt')).
      done. }
    simpl. repeat (constructor; [apply Hn; lia |]). constructor.
  - intros k e Hk Hfail He Hr.
    destruct (loop_stops isConnectionError fn random maxRetries maxRetries 0 k None e)
      as (evs & Hloop & Hatt & Hdel);
      [done | unfold maxRetries; lia | intros i Hi; apply Hfail; lia | done | done |].
    exists evs. unfold retryWithBackoff. rewrite Hloop.
    split; [done |]. split; [by rewrite Hatt, Nat.sub_0_r |].
    rewrite Hdel, length_map, length_seq. lia.
  - intros n i Hn.
    destruct (Hrandom i) as [H0 H1].
    destruct (backoffDelay_bounds n (random i) ltac:(lia) H0 H1)
      as (_ & _ & S1 & _ & E).
    rewrite E. apply Q.min_r.
    eapply Qle_trans; [| exact S1].
    assert (2 ^ 4 <= 2 ^ Z.of_nat n) by (apply Z.pow_le_mono_r; lia).
    unfold Qle. cbn [Qnum Qden inject_Z]. lia.
Qed.

Lemma retry_attempts_and_delays_witness :
  (∃ evs e,
     retryWithBackoff noConnectionError alwaysTimeout halfJitter maxRetries
     = (Rejected e, evs)
     ∧ e = gatewayTimeout ∧ attempts evs = 4%nat
     ∧ Forall2 Qeq (delays evs) [1500; 2500; 4500]%Q)
  ∧ (∃ evs,
       retryWithBackoff noConnectionError secondNotFound halfJitter maxRetries
       = (Rejected notFound, evs) ∧ attempts evs = 2%nat
       ∧ length (delays evs) = 1%nat)
  ∧ (backoffDelay 4 (halfJitter 0%nat) == 10000)%Q.
Proof.
  assert (∀ i, 0 <= halfJitter i ∧ halfJitter i <= maxRandom)%Q as Hj.
  { intros i. unfold halfJitter, maxRandom, Qle. simpl. lia. }
  destruct (retry_attempts_and_delays noConnectionError alwaysTimeout halfJitter Hj)
    as (Hall & _ & Hcap).
  destruct (retry_attempts_and_delays noConnectionError secondNotFound halfJitter Hj)
    as (_ & Hstop & _).
  split; [| split].
  - destruct Hall as (evs & e & Hrun & He & Hatt & Hdel & _).
    { intros i _. exists gatewayTimeout. split; reflexivity. }
    exists evs, e. repeat split; [done | | done |].
    + unfold alwaysTimeout in He. congruence.
    + rewrite Hdel. repeat constructor; by vm_compute.
  - destruct (Hstop 1%nat notFound) as (evs & Hrun & Hatt & Hlen).
    + lia.
    + intros i Hi. assert (i = 0%nat) as -> by lia.
      exists gatewayTimeout. split; reflexivity.
    + reflexivity.
    + reflexivity.
    + exists evs. by repeat split.
  - apply (Hcap 4%nat 0%nat). lia.
Defined.

(** A draw of [1 - 2^-52] after attempt 1: the jitter is the double
    [1000 - 2^-42], below 1000, and the sum [3000 - 2^-42], which is no
    double, rounds to 3000; the delay is 3000 ms, the upper end of the
    range, and differs from the sum of real numbers. *)
Lemma largest_jitter_delay :
  (0 <= nearlyOne)%Q ∧ (nearlyOne < 1)%Q
  ∧ (roundDouble (nearlyOne * 1000) < 1000)%Q
  ∧ (backoffDelay 1 nearlyOne == 3000)%Q
  ∧ ¬ (backoffDelay 1 nearlyOne
       == Qmin (2000 + roundDouble (nearlyOne * 1000)) 10000)%Q.
Proof.
  split; [by vm_compute |]. split; [by vm_compute |].
  split; [by vm_compute |]. split; [by vm_compute |].
  intros H. vm_compute in H. discriminate H.
Qed.

End RetryFacts.

(** ** The gates of [makeRequestInternal] *)

Module GateFacts.
Import Js ApiSW ApiDirect Scenario.

(** [trackApiCall] touches the list of tracked calls and nothing else. *)
Lemma trackApiCall_fields (endpoint : string) (s : State) :
  global503Status (trackApiCall endpoint s) = global503Status s
  ∧ isApiBlocked (trackApiCall endpoint s) = isApiBlocked s
  ∧ modal (trackApiCall endpoint s) = modal s
  ∧ health (trackApiCall endpoint s) = health s
  ∧ breaker (trackApiCall endpoint s) = breaker s
  ∧ block (trackApiCall endpoint s) = block s
  ∧ registry (trackApiCall endpoint s) = registry s
  ∧ nextPromise (trackApiCall endpoint s) = nextPromise s
  ∧ network (trackApiCall endpoint s) = network s.
Proof.
  unfold trackApiCall. destruct (existsb _ _); by repeat split.
Qed.

(** [showApiFailureModal] touches the notifier and nothing else. *)
Lemma showApiFailureModal_fields (now : Z) (failed : list string) (is503 : bool)
    (cb : option nat) (s : State) :
  global503Status (showApiFailureModal now failed is503 cb s) = global503Status s
  ∧ isApiBlocked (showApiFailureModal now failed is503 cb s) = isApiBlocked s
  ∧ health (showApiFailureModal now failed is503 cb s) = health s
  ∧ breaker (showApiFailureModal now failed is503 cb s) = breaker s
  ∧ block (showApiFailureModal now failed is503 cb s) = block s
  ∧ registry (showApiFailureModal now failed is503 cb s) = registry s
  ∧ nextPromise (showApiFailureModal now failed is503 cb s) = nextPromise s
  ∧ network (showApiFailureModal now failed is503 cb s) = network s.
Proof.
  unfold showApiFailureModal.
  destruct (isVisible _); [by repeat split |].
  destruct (_ <? _)%Z; by repeat split.
Qed.

Ltac unfold_call :=
  unfold requestInternal, requestInternal_enter, requestInternal_resume,
    checkGlobal503, checkDeduplication, checkGlobalBlock, checkCircuitBreaker,
    checkConsent, checkHealthGate, healthVerdict, launch, exitOf,
    bind, when, gets, modify, lift, exit, ret, isApiGlobally503.

Ltac track_fields endpoint s :=
  let H := fresh "Htrack" in
  pose proof (trackApiCall_fields endpoint s) as H;
  destruct H as (?Hg & ?Hc & ?Hm & ?Hh & ?Hb & ?Hk & ?Hr & ?Hp & ?Hn).

(** The first two checks, shared by what follows: with the global 503
    status set the call throws; otherwise a pending identical request is
    handed back, whatever the state of the gates. *)
Lemma enter_global503 (isPublic : bool) (endpoint : string) (options : RequestInit)
    (now : Z) (probe : Probe) (s : State) :
  global503Status s = true ->
  requestInternal isPublic endpoint options now probe s
  = (Threw global503Error,
     showApiFailureModal now [endpoint] true None (trackApiCall endpoint s)).
Proof.
  intros Hdown. track_fields endpoint s. unfold_call. simpl.
  rewrite Hg, Hdown. reflexivity.
Qed.

Lemma enter_pending (isPublic : bool) (endpoint : string) (options : RequestInit)
    (now : Z) (probe : Probe) (s : State) (p : nat) :
  global503Status s = false ->
  pendingRequests (registry s) !! getRequestKey endpoint options = Some p ->
  requestInternal isPublic endpoint options now probe s
  = (Returned p, trackApiCall endpoint s).
Proof.
  intros Hup Hp'. track_fields endpoint s. unfold_call. simpl.
  rewrite Hg, Hup. simpl. rewrite Hr, Hp'. reflexivity.
Qed.

Lemma notHealth_true (endpoint : string) :
  endpoint ≠ HEALTH -> notHealth endpoint = true.
Proof.
  intros H. unfold notHealth. apply negb_true_iff. by apply String.eqb_neq.
Qed.

Lemma enter_gates (isPublic : bool) (endpoint : string) (options : RequestInit)
    (now : Z) (s : State) :
  global503Status s = false ->
  pendingRequests (registry s) !! getRequestKey endpoint options = None ->
  endpoint ≠ HEALTH ->
  requestInternal_enter isPublic endpoint options now s
  = gates isPublic endpoint options now (trackApiCall endpoint s).
Proof.
  intros Hup Hnone Hne. track_fields endpoint s.
  unfold requestInternal_enter, checkGlobal503, checkDeduplication, checkGlobalBlock,
    checkCircuitBreaker, checkConsent, checkHealthGate, healthVerdict, gates, verdict,
    checkConsentMiddleware, bind, when, gets, modify, lift, exit, ret, isApiGlobally503.
  rewrite (notHealth_true endpoint Hne). simpl.
  rewrite Hg, Hup. simpl. rewrite Hr, Hnone.
  destruct (isGlobalRequestBlocked now (trackApiCall endpoint s)) as [blocked s1].
  destruct blocked; [by destruct isPublic |].
  destruct (isEndpointInCircuitBreaker now endpoint s1) as [tripped s2].
  destruct tripped; [by destruct isPublic |].
  destruct (isApiBlocked s2); [done |].
  destruct (checkApiHealth_enter now s2) as [[ok|] s3]; [| done].
  by destruct ok.
Qed.

Lemma resume_verdict (isPublic : bool) (endpoint : string) (options : RequestInit)
    (now : Z) (answer : HealthAnswer) (s : State) :
  requestInternal_resume isPublic endpoint options now answer s
  = let '(ok, s') := checkApiHealth_resume answer s in
    verdict isPublic endpoint options now ok s'.
Proof.
  unfold requestInternal_resume, healthVerdict, verdict, bind, when, lift, modify, exit, ret.
  destruct (checkApiHealth_resume answer s) as [ok s']. by destruct ok.
Qed.

(** What the two state-reading checks leave untouched. *)
Lemma isGlobalRequestBlocked_fields (now : Z) (s : State) :
  let s' := snd (isGlobalRequestBlocked now s) in
  global503Status s' = global503Status s ∧ isApiBlocked s' = isApiBlocked s
  ∧ modal s' = modal s ∧ health s' = health s ∧ breaker s' = breaker s
  ∧ registry s' = registry s ∧ nextPromise s' = nextPromise s
  ∧ network s' = network s.
Proof.
  unfold isGlobalRequestBlocked.
  destruct (negb _); [by repeat split |].
  destruct (_ >? _)%Z; by repeat split.
Qed.

Lemma isEndpointInCircuitBreaker_fields (now : Z) (endpoint : string) (s : State) :
  let s' := snd (isEndpointInCircuitBreaker now endpoint s) in
  global503Status s' = global503Status s ∧ isApiBlocked s' = isApiBlocked s
  ∧ modal s' = modal s ∧ health s' = health s ∧ block s' = block s
  ∧ registry s' = registry s ∧ nextPromise s' = nextPromise s
  ∧ network s' = network s.
Proof.
  unfold isEndpointInCircuitBreaker.
  destruct (negb _); [by repeat split |].
  destruct (_ >? _)%Z; by repeat split.
Qed.

(** Both checks read one component of the state only. *)
Lemma isGlobalRequestBlocked_block (now : Z) (s s' : State) :
  block s' = block s ->
  fst (isGlobalRequestBlocked now s') = fst (isGlobalRequestBlocked now s).
Proof.
  intros H. unfold isGlobalRequestBlocked. rewrite H.
  destruct (negb _); [done |]. by destruct (_ >? _)%Z.
Qed.

Lemma isEndpointInCircuitBreaker_breaker (now : Z) (endpoint : string) (s s' : State) :
  breaker s' = breaker s ->
  fst (isEndpointInCircuitBreaker now endpoint s')
  = fst (isEndpointInCircuitBreaker now endpoint s)
  ∧ breaker (snd (isEndpointInCircuitBreaker now endpoint s'))
    = breaker (snd (isEndpointInCircuitBreaker now endpoint s)).
Proof.
  intros H. unfold isEndpointInCircuitBreaker. rewrite H.
  destruct (negb _); [done |]. by destruct (_ >? _)%Z.
Qed.

Lemma launch_eq (isPublic : bool) (endpoint : string) (options : RequestInit)
    (now : Z) (s : State) :
  launch isPublic endpoint options now s
  = (inr (Returned (nextPromise s)), launched isPublic endpoint options now s).
Proof. reflexivity. Qed.

Lemma launched_fields (isPublic : bool) (endpoint : string) (options : RequestInit)
    (now : Z) (s : State) :
  let s' := launched isPublic endpoint options now s in
  let requestKey := getRequestKey endpoint options in
  pendingRequests (registry s')
  = <[requestKey := nextPromise s]> (pendingRequests (registry s))
  ∧ requestTimeouts (registry s')
    = <[requestKey := nextTimer (registry s)]> (requestTimeouts (registry s))
  ∧ timers (registry s')
    = <[nextTimer (registry s) := (requestKey, now + pendingTimeout)]> (timers (registry s))
  ∧ onSettle (registry s') = <[nextPromise s := requestKey]> (onSettle (registry s))
  ∧ network s' = (network s ++ [RequestStarted isPublic endpoint (nextPromise s)])%list
  ∧ breaker s' = breaker s ∧ block s' = block s ∧ health s' = health s
  ∧ global503Status s' = global503Status s ∧ isApiBlocked s' = isApiBlocked s.
Proof. by repeat split. Qed.

(** When consent is not granted, the gates end in an exception and leave
    network, registry and health gate alone; the exception is the
    consent error when neither the global block nor the circuit breaker
    stops the call first. *)
Lemma gates_without_consent (isPublic : bool) (endpoint : string)
    (options : RequestInit) (now : Z) (s0 : State) :
  isApiBlocked s0 = true ->
  let r := gates isPublic endpoint options now s0 in
  (∃ e, fst r = inr (Threw e))
  ∧ network (snd r) = network s0
  ∧ registry (snd r) = registry s0
  ∧ health (snd r) = health s0
  ∧ nextPromise (snd r) = nextPromise s0
  ∧ (fst (isGlobalRequestBlocked now s0) = false ->
     fst (isEndpointInCircuitBreaker now endpoint s0) = false ->
     fst r = inr (Threw consentError)).
Proof.
  intros Hblocked. unfold gates.
  pose proof (isGlobalRequestBlocked_fields now s0) as F1.
  destruct (isGlobalRequestBlocked now s0) as [blocked s1] eqn:E1.
  simpl in F1. destruct F1 as (G1 & C1 & M1 & H1 & B1 & R1 & P1 & N1).
  pose proof (isEndpointInCircuitBreaker_fields now endpoint s1) as F2.
  pose proof (isEndpointInCircuitBreaker_breaker now endpoint s0 s1 B1) as [T2 _].
  destruct (isEndpointInCircuitBreaker now endpoint s1) as [tripped s2] eqn:E2.
  simpl in F2, T2. destruct F2 as (G2 & C2 & M2 & H2 & K2 & R2 & P2 & N2).
  destruct blocked.
  { simpl. split; [by eexists |].
    destruct isPublic.
    - repeat split; try congruence; try (intros; discriminate).
    - pose proof (showApiFailureModal_fields now [endpoint] true None s1)
        as (_ & _ & ? & _ & _ & ? & ? & ?).
      repeat split; try congruence; try (intros; discriminate). }
  destruct tripped.
  { simpl. split; [by eexists |].
    destruct isPublic.
    - repeat split; try congruence; try (intros; congruence).
    - pose proof (showApiFailureModal_fields now [endpoint] true None s2)
        as (_ & _ & ? & _ & _ & ? & ? & ?).
      repeat split; try congruence; try (intros; congruence). }
  rewrite C2, C1, Hblocked. simpl.
  split; [by eexists |]. repeat split; congruence.
Qed.

(** C9. A call whose request key is in the registry of pending requests
    is handed the registered promise as soon as the global 503 check has
    let it through, whatever consent, global block, circuit breaker and
    health gate say; nothing but the list of tracked calls changes.  With
    the global 503 status set the call throws instead. *)
Theorem pending_request_bypasses_gates (isPublic : bool) (endpoint : string)
    (options : RequestInit) (now : Z) (probe : Probe) (s : State) (p : nat) :
  pendingRequests (registry s) !! getRequestKey endpoint options = Some p ->
  (global503Status s = false ->
     requestInternal isPublic endpoint options now probe s
     = (Returned p, trackApiCall endpoint s)
     ∧ network (trackApiCall endpoint s) = network s
     ∧ registry (trackApiCall endpoint s) = registry s
     ∧ breaker (trackApiCall endpoint s) = breaker s
     ∧ block (trackApiCall endpoint s) = block s
     ∧ health (trackApiCall endpoint s) = health s)
  ∧ (global503Status s = true ->
     fst (requestInternal isPublic endpoint options now probe s)
     = Threw global503Error).
Proof.
  intros Hp. split.
  - intros Hup. split; [by apply enter_pending |].
    pose proof (trackApiCall_fields endpoint s) as F. tauto.
  - intros Hdown. by rewrite enter_global503.
Qed.

Lemma pending_request_bypasses_gates_witness :
  isApiBlocked trippedInFlight = true
  ∧ globalRequestBlocked (block trippedInFlight) = true
  ∧ fst (isEndpointInCircuitBreaker 1000500 ABOUT trippedInFlight) = true
  ∧ apiIsDown (health trippedInFlight) = true
  ∧ fst (makeRequestInternal ABOUT noOptions 1000500 healthy trippedInFlight)
    = Returned 0
  ∧ fst (makePublicRequestInternal ABOUT noOptions 1000500 healthy revoked)
    = Returned 0.
Proof.
  do 4 (split; [reflexivity |]). split.
  - destruct (pending_request_bypasses_gates false ABOUT noOptions 1000500 healthy
                trippedInFlight 0) as [H _]; [reflexivity |].
    destruct H as [H _]; [reflexivity |]. exact (f_equal fst H).
  - destruct (pending_request_bypasses_gates true ABOUT noOptions 1000500 healthy
                revoked 0) as [H _]; [reflexivity |].
    destruct H as [H _]; [reflexivity |]. exact (f_equal fst H).
Defined.

Lemma enter_health (isPublic : bool) (options : RequestInit) (now : Z) (s : State) :
  global503Status s = false ->
  pendingRequests (registry s) !! getRequestKey HEALTH options = None ->
  requestInternal_enter isPublic HEALTH options now s
  = launch isPublic HEALTH options now (trackApiCall HEALTH s).
Proof.
  intros Hup Hnone. track_fields HEALTH s.
  unfold requestInternal_enter, checkGlobal503, checkDeduplication, checkGlobalBlock,
    checkCircuitBreaker, checkConsent, checkHealthGate,
    bind, when, gets, modify, lift, exit, ret, isApiGlobally503.
  change (notHealth HEALTH) with false. simpl.
  rewrite Hg, Hup. simpl. rewrite Hr, Hnone. reflexivity.
Qed.

(** A call that the gates end leaves as the gates leave it. *)
Lemma call_of_gates (isPublic : bool) (endpoint : string) (options : RequestInit)
    (now : Z) (probe : Probe) (s : State) (e : Error) :
  global503Status s = false ->
  pendingRequests (registry s) !! getRequestKey endpoint options = None ->
  endpoint ≠ HEALTH ->
  fst (gates isPublic endpoint options now (trackApiCall endpoint s)) = inr (Threw e) ->
  requestInternal isPublic endpoint options now probe s
  = (Threw e, snd (gates isPublic endpoint options now (trackApiCall endpoint s))).
Proof.
  intros Hup Hnone Hne Hthrew. unfold requestInternal.
  rewrite (enter_gates isPublic endpoint options now s Hup Hnone Hne).
  unfold exitOf. by rewrite Hthrew.
Qed.

Lemma gates_blocked (isPublic : bool) (endpoint : string) (options : RequestInit)
    (now : Z) (s0 : State) :
  fst (isGlobalRequestBlocked now s0) = true ->
  fst (gates isPublic endpoint options now s0) = inr (Threw globalBlockError)
  ∧ network (snd (gates isPublic endpoint options now s0)) = network s0.
Proof.
  intros Hb. unfold gates.
  pose proof (isGlobalRequestBlocked_fields now s0) as F1.
  destruct (isGlobalRequestBlocked now s0) as [blocked s1].
  simpl in Hb, F1. subst blocked. simpl. split; [done |].
  destruct isPublic; [tauto |].
  pose proof (showApiFailureModal_fields now [endpoint] true None s1) as F.
  destruct F as (_ & _ & _ & _ & _ & _ & _ & ->). tauto.
Qed.

Lemma gates_tripped (isPublic : bool) (endpoint : string) (options : RequestInit)
    (now : Z) (s0 : State) :
  fst (isGlobalRequestBlocked now s0) = false ->
  fst (isEndpointInCircuitBreaker now endpoint s0) = true ->
  fst (gates isPublic endpoint options now s0) = inr (Threw (circuitBreakerError endpoint))
  ∧ network (snd (gates isPublic endpoint options now s0)) = network s0.
Proof.
  intros Hb Ht. unfold gates.
  pose proof (isGlobalRequestBlocked_fields now s0) as F1.
  destruct (isGlobalRequestBlocked now s0) as [blocked s1].
  simpl in Hb, F1. subst blocked.
  destruct F1 as (G1 & C1 & M1 & H1 & B1 & R1 & P1 & N1).
  pose proof (isEndpointInCircuitBreaker_fields now endpoint s1) as F2.
  pose proof (isEndpointInCircuitBreaker_breaker now endpoint s0 s1 B1) as [T2 _].
  destruct (isEndpointInCircuitBreaker now endpoint s1) as [tripped s2].
  simpl in F2, T2. rewrite Ht in T2. subst tripped. simpl. split; [done |].
  destruct F2 as (G2 & C2 & M2 & H2 & K2 & R2 & P2 & N2).
  destruct isPublic; [congruence |].
  pose proof (showApiFailureModal_fields now [endpoint] true None s2) as F.
  destruct F as (_ & _ & _ & _ & _ & _ & _ & ->). congruence.
Qed.

Lemma checkApiHealth_enter_health (now : Z) (s s' : State) :
  health s' = health s ->
  fst (checkApiHealth_enter now s') = fst (checkApiHealth_enter now s).
Proof.
  intros H. unfold checkApiHealth_enter. rewrite H.
  destruct (apiIsDown (health s)).
  - destruct (_ <? _)%Z; [done |]. simpl.
    by destruct (healthCheckInProgress (health s)).
  - by destruct (healthCheckInProgress (health s)).
Qed.

Lemma gates_health_failed (isPublic : bool) (endpoint : string) (options : RequestInit)
    (now : Z) (s0 : State) :
  fst (isGlobalRequestBlocked now s0) = false ->
  fst (isEndpointInCircuitBreaker now endpoint s0) = false ->
  isApiBlocked s0 = false ->
  fst (checkApiHealth_enter now s0) = HealthDone false ->
  fst (gates isPublic endpoint options now s0) = inr (Threw healthFailedError).
Proof.
  intros Hb Ht Hc Hh. unfold gates.
  pose proof (isGlobalRequestBlocked_fields now s0) as F1.
  destruct (isGlobalRequestBlocked now s0) as [blocked s1].
  simpl in Hb, F1. subst blocked.
  destruct F1 as (G1 & C1 & M1 & H1 & B1 & R1 & P1 & N1).
  pose proof (isEndpointInCircuitBreaker_fields now endpoint s1) as F2.
  pose proof (isEndpointInCircuitBreaker_breaker now endpoint s0 s1 B1) as [T2 _].
  destruct (isEndpointInCircuitBreaker now endpoint s1) as [tripped s2].
  simpl in F2, T2. rewrite Ht in T2. subst tripped.
  destruct F2 as (G2 & C2 & M2 & H2 & K2 & R2 & P2 & N2).
  rewrite C2, C1, Hc.
  assert (health s2 = health s0) as Hh2 by congruence.
  pose proof (checkApiHealth_enter_health now s0 s2 Hh2) as E.
  destruct (checkApiHealth_enter now s2) as [step s3]. simpl in E.
  rewrite Hh in E. subst step. reflexivity.
Qed.

(** What a call without consent does, for another endpoint than the
    health endpoint. *)
Lemma call_without_consent (isPublic : bool) (endpoint : string)
    (options : RequestInit) (now : Z) (probe : Probe) (s : State) :
  isApiBlocked s = true ->
  endpoint ≠ HEALTH ->
  let r := requestInternal isPublic endpoint options now probe s in
  network (snd r) = network s
  ∧ ((∃ e, fst r = Threw e)
     ∨ (∃ p, fst r = Returned p
             ∧ pendingRequests (registry s) !! getRequestKey endpoint options = Some p))
  ∧ (global503Status s = false ->
     pendingRequests (registry s) !! getRequestKey endpoint options = None ->
     fst (isGlobalRequestBlocked now s) = false ->
     fst (isEndpointInCircuitBreaker now endpoint s) = false ->
     fst r = Threw consentError ∧ health (snd r) = health s).
Proof.
  intros Hblocked Hne r. subst r.
  pose proof (trackApiCall_fields endpoint s)
    as (Tg & Tc & Tm & Th & Tb & Tk & Tr & Tp & Tn).
  destruct (global503Status s) eqn:Hg.
  { rewrite (enter_global503 isPublic endpoint options now probe s Hg). simpl.
    pose proof (showApiFailureModal_fields now [endpoint] true None
                  (trackApiCall endpoint s)) as F.
    destruct F as (_ & _ & _ & _ & _ & _ & _ & ->).
    split; [done |]. split; [left; by eexists | intros; discriminate]. }
  destruct (pendingRequests (registry s) !! getRequestKey endpoint options)
    as [p|] eqn:Hp.
  { rewrite (enter_pending isPublic endpoint options now probe s p Hg Hp). simpl.
    split; [done |]. split; [right; by exists p | intros; discriminate]. }
  assert (isApiBlocked (trackApiCall endpoint s) = true) as Hb0 by congruence.
  pose proof (gates_without_consent isPublic endpoint options now
                (trackApiCall endpoint s) Hb0) as G.
  simpl in G. destruct G as ([e He] & Gn & Gr & Gh & Gp & Gc).
  rewrite (call_of_gates isPublic endpoint options now probe s e Hg Hp Hne He).
  simpl. split; [congruence |]. split; [left; by eexists |].
  intros _ _ Hnb Hnt.
  rewrite <- (isGlobalRequestBlocked_block now s (trackApiCall endpoint s) Tk) in Hnb.
  destruct (isEndpointInCircuitBreaker_breaker now endpoint s
              (trackApiCall endpoint s) Tb) as [Ht' _].
  rewrite <- Ht' in Hnt.
  specialize (Gc Hnb Hnt). rewrite He in Gc. injection Gc as ->.
  split; [done | congruence].
Qed.

(** C5, as the code has it. With consent not granted, a call for another
    endpoint than [/v0/health] starts no request and no health check, and
    it returns a promise only if that promise was already registered for
    the same request; it throws the consent error whenever it gets as far
    as the consent check, that is when the global 503 status is not set,
    no identical request is pending, the global block is not active and
    the circuit breaker does not hold the endpoint.  A call for
    [/v0/health] is not subject to the check: it starts its request. *)
Theorem consent_gate (isPublic : bool) (endpoint : string) (options : RequestInit)
    (now : Z) (probe : Probe) (s : State) :
  isApiBlocked s = true ->
  (endpoint ≠ HEALTH ->
     let r := requestInternal isPublic endpoint options now probe s in
     network (snd r) = network s
     ∧ ((∃ e, fst r = Threw e)
        ∨ (∃ p, fst r = Returned p
                ∧ pendingRequests (registry s) !! getRequestKey endpoint options = Some p))
     ∧ (global503Status s = false ->
        pendingRequests (registry s) !! getRequestKey endpoint options = None ->
        fst (isGlobalRequestBlocked now s) = false ->
        fst (isEndpointInCircuitBreaker now endpoint s) = false ->
        fst r = Threw consentError
        ∧ e_isConsentBlocked consentError = true
        ∧ health (snd r) = health s))
  ∧ (global503Status s = false ->
     pendingRequests (registry s) !! getRequestKey HEALTH options = None ->
     requestInternal isPublic HEALTH options now probe s
     = (Returned (nextPromise s),
        launched isPublic HEALTH options now (trackApiCall HEALTH s))).
Proof.
  intros Hblocked. split.
  - intros Hne r. subst r.
    destruct (call_without_consent isPublic endpoint options now probe s Hblocked Hne)
      as (Hn & Hr & Hc).
    split; [done |]. split; [done |].
    intros Hg Hp Hb Ht. destruct (Hc Hg Hp Hb Ht) as [? ?]. done.
  - intros Hg Hp. unfold requestInternal.
    rewrite (enter_health isPublic options now s Hg Hp), launch_eq. simpl.
    pose proof (trackApiCall_fields HEALTH s) as (_ & _ & _ & _ & _ & _ & _ & -> & _).
    reflexivity.
Qed.

Lemma consent_gate_witness :
  fst (makeRequest ABOUT noOptions 1000000 healthy (setApiBlocked true init))
  = Threw consentError
  ∧ network (snd (makePublicRequest ABOUT noOptions 1000000 healthy
                    (setApiBlocked true init))) = []
  ∧ fst (makeRequest HEALTH noOptions 1000000 healthy (setApiBlocked true init))
    = Returned 0.
Proof.
  destruct (consent_gate false ABOUT noOptions 1000000 healthy (setApiBlocked true init))
    as [Hother _]; [reflexivity |].
  destruct (consent_gate true ABOUT noOptions 1000000 healthy (setApiBlocked true init))
    as [Hpublic _]; [reflexivity |].
  destruct (consent_gate false HEALTH noOptions 1000000 healthy (setApiBlocked true init))
    as [_ Hhealth]; [reflexivity |].
  assert (ABOUT ≠ HEALTH) as Hne by discriminate.
  split; [| split].
  - destruct (Hother Hne) as (_ & _ & H).
    destruct (H eq_refl eq_refl eq_refl eq_refl) as [H' _]. exact H'.
  - destruct (Hpublic Hne) as (H & _). exact H.
  - exact (f_equal fst (Hhealth eq_refl eq_refl)).
Defined.

(** With the global 503 status set, the call of a client without consent
    is rejected by the first check, and the error carries no consent
    classification. *)
Lemma consent_blocked_call_rejected_as_global503 :
  isApiBlocked blockedAndDown = true
  ∧ fst (makeRequest ABOUT noOptions 1000000 healthy blockedAndDown)
    = Threw global503Error
  ∧ fst (makePublicRequest ABOUT noOptions 1000000 healthy blockedAndDown)
    = Threw global503Error
  ∧ e_isConsentBlocked global503Error = false.
Proof. repeat split. Qed.

(** C2, as the code has it. For a call with another endpoint than
    [/v0/health] the checks run in this order: the global 503 status, the
    registry of pending requests, the global block, and then the gates,
    of which the consent check comes before the health check.  Each
    conjunct gives the outcome when the checks before it let the call
    through, whatever the checks after it would say.  (The case of an
    endpoint held by the circuit breaker is not covered here.) *)
Theorem order_of_checks (isPublic : bool) (endpoint : string) (options : RequestInit)
    (now : Z) (probe : Probe) (s : State) :
  endpoint ≠ HEALTH ->
  let r := requestInternal isPublic endpoint options now probe s in
  let requestKey := getRequestKey endpoint options in
  (global503Status s = true -> fst r = Threw global503Error)
  ∧ (global503Status s = false ->
     ∀ p, pendingRequests (registry s) !! requestKey = Some p ->
          fst r = Returned p)
  ∧ (global503Status s = false ->
     pendingRequests (registry s) !! requestKey = None ->
     fst (isGlobalRequestBlocked now s) = true ->
     fst r = Threw globalBlockError)
  ∧ (global503Status s = false ->
     pendingRequests (registry s) !! requestKey = None ->
     fst (isGlobalRequestBlocked now s) = false ->
     fst (isEndpointInCircuitBreaker now endpoint s) = false ->
     isApiBlocked s = true ->
     fst r = Threw consentError
     ∧ health (snd r) = health s
     ∧ network (snd r) = network s)
  ∧ (global503Status s = false ->
     pendingRequests (registry s) !! requestKey = None ->
     fst (isGlobalRequestBlocked now s) = false ->
     fst (isEndpointInCircuitBreaker now endpoint s) = false ->
     isApiBlocked s = false ->
     fst (checkApiHealth_enter now s) = HealthDone false ->
     fst r = Threw healthFailedError).
Proof.
  intros Hne r requestKey. subst r requestKey.
  pose proof (trackApiCall_fields endpoint s)
    as (Tg & Tc & Tm & Th & Tb & Tk & Tr & Tp & Tn).
  split; [intros Hg; by rewrite enter_global503 |].
  split; [intros Hg p Hp; by rewrite (enter_pending _ _ _ _ _ _ p) |].
  split.
  { intros Hg Hp Hb.
    rewrite <- (isGlobalRequestBlocked_block now s (trackApiCall endpoint s) Tk) in Hb.
    destruct (gates_blocked isPublic endpoint options now _ Hb) as [He _].
    by rewrite (call_of_gates _ _ _ _ _ _ _ Hg Hp Hne He). }
  split.
  { intros Hg Hp Hb Ht Hc.
    destruct (call_without_consent isPublic endpoint options now probe s Hc Hne)
      as (Hn & _ & H').
    destruct (H' Hg Hp Hb Ht) as (? & ?). done. }
  intros Hg Hp Hb Ht Hc Hh.
  rewrite <- (isGlobalRequestBlocked_block now s (trackApiCall endpoint s) Tk) in Hb.
  destruct (isEndpointInCircuitBreaker_breaker now endpoint s
              (trackApiCall endpoint s) Tb) as [Ht' _].
  rewrite <- Ht' in Ht.
  rewrite <- (checkApiHealth_enter_health now s (trackApiCall endpoint s) Th) in Hh.
  rewrite <- Tc in Hc.
  pose proof (gates_health_failed isPublic endpoint options now _ Hb Ht Hc Hh) as He.
  by rewrite (call_of_gates _ _ _ _ _ _ _ Hg Hp Hne He).
Qed.

Lemma order_of_checks_witness :
  fst (makeRequest ABOUT noOptions 1000500 healthy tripped) = Threw global503Error
  ∧ fst (makeRequest ABOUT noOptions 1000500 healthy trippedReset)
    = Threw globalBlockError
  ∧ fst (makeRequest ABOUT noOptions 1000000 healthy (setApiBlocked true init))
    = Threw consentError.
Proof.
  assert (ABOUT ≠ HEALTH) as Hne by discriminate.
  split; [| split].
  - apply (order_of_checks false ABOUT noOptions 1000500 healthy tripped Hne).
    reflexivity.
  - apply (order_of_checks false ABOUT noOptions 1000500 healthy trippedReset Hne);
      reflexivity.
  - apply (order_of_checks false ABOUT noOptions 1000000 healthy
             (setApiBlocked true init) Hne); reflexivity.
Defined.

(** A call made without consent while an identical request is in flight
    is handed that request's promise: the registry is consulted before
    the consent gate. *)
Lemma deduplication_precedes_consent_gate :
  checkConsentMiddleware revoked = Some consentError
  ∧ makeRequest ABOUT noOptions 1000500 healthy revoked
    = (Returned 0, revoked)
  ∧ makePublicRequest ABOUT noOptions 1000500 healthy revoked
    = (Returned 0, revoked).
Proof. repeat split. Qed.

(** For the record: with consent withdrawn and the endpoint held by the
    circuit breaker, the call is rejected by the circuit breaker, which
    the code consults before the consent gate. *)
Lemma circuit_breaker_precedes_consent_gate :
  checkConsentMiddleware trippedRevoked = Some consentError
  ∧ fst (isEndpointInCircuitBreaker 1040000 ABOUT trippedRevoked) = true
  ∧ fst (makeRequest ABOUT noOptions 1040000 healthy trippedRevoked)
    = Threw (circuitBreakerError ABOUT).
Proof. repeat split. Qed.

End GateFacts.

(** ** Circuit breaker and registry of pending requests *)

Module BreakerFacts.
Import Js ApiSW ApiDirect ApiRun Scenario GateFacts.

Lemma checkApiHealth_enter_fields (now : Z) (s : State) :
  let s' := snd (checkApiHealth_enter now s) in
  global503Status s' = global503Status s ∧ isApiBlocked s' = isApiBlocked s
  ∧ breaker s' = breaker s ∧ block s' = block s
  ∧ registry s' = registry s ∧ nextPromise s' = nextPromise s
  ∧ network s' = network s.
Proof.
  unfold checkApiHealth_enter.
  destruct (apiIsDown (health s)).
  - destruct (_ <? _)%Z; [by repeat split |]. simpl.
    destruct (healthCheckInProgress (health s)); by repeat split.
  - destruct (healthCheckInProgress (health s)); by repeat split.
Qed.

Lemma checkApiHealth_resume_fields (answer : HealthAnswer) (s : State) :
  let s' := snd (checkApiHealth_resume answer s) in
  isApiBlocked s' = isApiBlocked s
  ∧ breaker s' = breaker s ∧ block s' = block s
  ∧ registry s' = registry s ∧ nextPromise s' = nextPromise s
  ∧ network s' = network s.
Proof. destruct answer as [[]|]; by repeat split. Qed.

Lemma startedFor_app (endpoint : string) (evs evs' : list NetEvent) :
  startedFor endpoint (evs ++ evs') = (startedFor endpoint evs ++ startedFor endpoint evs')%list.
Proof.
  induction evs as [|ev evs IH]; simpl; [done |].
  destruct ev as [|isPublic ep p]; [done |].
  destruct (String.eqb ep endpoint); simpl; by rewrite IH.
Qed.

Lemma startedFor_health (endpoint : string) (n : nat) :
  startedFor endpoint (repeat HealthRequest n) = [].
Proof. induction n; simpl; done. Qed.

Lemma runProbe_fields (probe : Probe) (s : State) :
  let s' := snd (runProbe probe s) in
  fst (runProbe probe s) = probeAnswer probe
  ∧ isApiBlocked s' = isApiBlocked s ∧ health s' = health s
  ∧ breaker s' = breaker s ∧ block s' = block s
  ∧ registry s' = registry s ∧ nextPromise s' = nextPromise s
  ∧ (∀ endpoint, startedFor endpoint (network s') = startedFor endpoint (network s)).
Proof.
  destruct probe as [hasError | tries answer sets503 elapsed]; simpl.
  { by repeat split. }
  pose proof (trackApiCall_fields HEALTH s)
    as (Tg & Tc & Tm & Th & Tb & Tk & Tr & Tp & Tn).
  destruct sets503; simpl; repeat split; try done;
    intros endpoint; rewrite startedFor_app, startedFor_health, Tn;
    apply app_nil_r.
Qed.

(** What the verdict after the health check leaves behind. *)
Lemma verdict_failed (isPublic : bool) (endpoint : string) (options : RequestInit)
    (now : Z) (s : State) :
  let r := verdict isPublic endpoint options now false s in
  fst r = inr (Threw healthFailedError)
  ∧ breaker (snd r)
    = mkBreaker ({[endpoint]} ∪ failedEndpoints (breaker s))
                (<[endpoint := now]> (endpointFailureTimes (breaker s)))
  ∧ block (snd r) = mkGlobalBlock true now
  ∧ network (snd r) = network s
  ∧ registry (snd r) = registry s.
Proof.
  unfold verdict. simpl.
  pose proof (showApiFailureModal_fields now [endpoint] true None
                (addEndpointToCircuitBreaker now endpoint
                   (activateGlobalRequestBlock now s)))
    as (_ & _ & _ & -> & -> & -> & _ & ->).
  by repeat split.
Qed.

(** The whole call, for another endpoint than the health endpoint, when
    the first two checks let it through: the gates, then, if the health
    check was started, its answer and the verdict. *)
Lemma call_through_gates (isPublic : bool) (endpoint : string) (options : RequestInit)
    (now : Z) (probe : Probe) (s : State) :
  global503Status s = false ->
  pendingRequests (registry s) !! getRequestKey endpoint options = None ->
  endpoint ≠ HEALTH ->
  requestInternal isPublic endpoint options now probe s
  = let g := gates isPublic endpoint options now (trackApiCall endpoint s) in
    match exitOf g with
    | AwaitHealth =>
        let '(answer, s4) := runProbe probe (snd g) in
        let '(ok, s5) := checkApiHealth_resume answer s4 in
        let r := verdict isPublic endpoint options (now + probeElapsed probe) ok s5 in
        (exitOf r, snd r)
    | x => (x, snd g)
    end.
Proof.
  intros Hg Hp Hne. unfold requestInternal.
  rewrite (enter_gates isPublic endpoint options now s Hg Hp Hne). simpl.
  destruct (exitOf _); try reflexivity.
  destruct (runProbe probe _) as [answer s4].
  rewrite resume_verdict.
  by destruct (checkApiHealth_resume answer s4) as [ok s5].
Qed.

(** The circuit breaker check on a marked endpoint, inside the cooldown
    and after it. *)
Lemma breaker_inside_cooldown (now t : Z) (endpoint : string) (s : State) :
  endpoint ∈ failedEndpoints (breaker s) ->
  endpointFailureTimes (breaker s) !! endpoint = Some t ->
  now - t <= endpointCooldown ->
  isEndpointInCircuitBreaker now endpoint s = (true, s).
Proof.
  intros Hin Ht Hle. unfold isEndpointInCircuitBreaker.
  rewrite bool_decide_eq_true_2 by done. simpl. rewrite Ht. simpl.
  destruct (Z.gtb_spec (now - t) endpointCooldown); [lia | done].
Qed.

Lemma breaker_after_cooldown (now t : Z) (endpoint : string) (s : State) :
  endpoint ∈ failedEndpoints (breaker s) ->
  endpointFailureTimes (breaker s) !! endpoint = Some t ->
  now - t > endpointCooldown ->
  fst (isEndpointInCircuitBreaker now endpoint s) = false
  ∧ (endpoint ∉ failedEndpoints (breaker (snd (isEndpointInCircuitBreaker now endpoint s))))
  ∧ endpointFailureTimes (breaker (snd (isEndpointInCircuitBreaker now endpoint s)))
    !! endpoint = None.
Proof.
  intros Hin Ht Hgt. unfold isEndpointInCircuitBreaker.
  rewrite bool_decide_eq_true_2 by done. simpl. rewrite Ht. simpl.
  destruct (Z.gtb_spec (now - t) endpointCooldown); [| lia]. simpl.
  split; [done |]. split; [| apply lookup_delete_eq].
  rewrite elem_of_difference, elem_of_singleton. tauto.
Qed.


(** The gates let the call through to a health check that starts. *)
Lemma gates_await (isPublic : bool) (endpoint : string) (options : RequestInit)
    (now : Z) (s0 : State) :
  fst (isGlobalRequestBlocked now s0) = false ->
  fst (isEndpointInCircuitBreaker now endpoint s0) = false ->
  isApiBlocked s0 = false ->
  fst (checkApiHealth_enter now s0) = HealthAwait ->
  let g := gates isPublic endpoint options now s0 in
  fst g = inr AwaitHealth
  ∧ registry (snd g) = registry s0 ∧ nextPromise (snd g) = nextPromise s0
  ∧ network (snd g) = network s0 ∧ isApiBlocked (snd g) = false
  ∧ breaker (snd g) = breaker (snd (isEndpointInCircuitBreaker now endpoint s0)).
Proof.
  intros Hb Ht Hc Hh. unfold gates.
  pose proof (isGlobalRequestBlocked_fields now s0) as F1.
  destruct (isGlobalRequestBlocked now s0) as [blocked s1].
  simpl in Hb, F1. subst blocked.
  destruct F1 as (G1 & C1 & M1 & H1 & B1 & R1 & P1 & N1).
  pose proof (isEndpointInCircuitBreaker_fields now endpoint s1) as F2.
  pose proof (isEndpointInCircuitBreaker_breaker now endpoint s0 s1 B1) as [T2 T2'].
  destruct (isEndpointInCircuitBreaker now endpoint s1) as [tripped s2].
  simpl in F2, T2, T2'. rewrite Ht in T2. subst tripped.
  destruct F2 as (G2 & C2 & M2 & H2 & K2 & R2 & P2 & N2).
  rewrite C2, C1, Hc.
  assert (health s2 = health s0) as Hh2 by congruence.
  pose proof (checkApiHealth_enter_health now s0 s2 Hh2) as E.
  pose proof (checkApiHealth_enter_fields now s2) as F3.
  destruct (checkApiHealth_enter now s2) as [step s3]. simpl in E, F3.
  rewrite Hh in E. subst step. simpl.
  destruct F3 as (G3 & C3 & B3 & K3 & R3 & P3 & N3).
  repeat split; congruence.
Qed.


Lemma exitOf_inr (x : Exit) (s : State) : exitOf (inr x, s) = x.
Proof. reflexivity. Qed.

(** Inside the cooldown nothing reaches the network, and a call that
    gets as far as the circuit breaker is rejected by it. *)
Lemma call_inside_cooldown (isPublic : bool) (endpoint : string)
    (options : RequestInit) (now : Z) (probe : Probe) (s : State) (t : Z) :
  endpoint ≠ HEALTH ->
  endpoint ∈ failedEndpoints (breaker s) ->
  endpointFailureTimes (breaker s) !! endpoint = Some t ->
  now - t <= endpointCooldown ->
  let r := requestInternal isPublic endpoint options now probe s in
  network (snd r) = network s
  ∧ (global503Status s = false ->
     pendingRequests (registry s) !! getRequestKey endpoint options = None ->
     fst (isGlobalRequestBlocked now s) = false ->
     fst r = Threw (circuitBreakerError endpoint)).
Proof.
  intros Hne Hin Ht Hle r. subst r.
  pose proof (trackApiCall_fields endpoint s)
    as (Tg & Tc & Tm & Th & Tb & Tk & Tr & Tp & Tn).
  destruct (global503Status s) eqn:Hg.
  { rewrite (enter_global503 isPublic endpoint options now probe s Hg). simpl.
    pose proof (showApiFailureModal_fields now [endpoint] true None
                  (trackApiCall endpoint s)) as (_ & _ & _ & _ & _ & _ & _ & ->).
    split; [done | intros; discriminate]. }
  destruct (pendingRequests (registry s) !! getRequestKey endpoint options)
    as [p|] eqn:Hp.
  { rewrite (enter_pending isPublic endpoint options now probe s p Hg Hp). simpl.
    split; [done | intros; discriminate]. }
  assert (fst (isEndpointInCircuitBreaker now endpoint (trackApiCall endpoint s)) = true)
    as Htrip.
  { rewrite (breaker_inside_cooldown now t endpoint (trackApiCall endpoint s));
      [done | | | done]; by rewrite Tb. }
  destruct (fst (isGlobalRequestBlocked now (trackApiCall endpoint s))) eqn:Hb.
  - destruct (gates_blocked isPublic endpoint options now _ Hb) as [He Hn].
    rewrite (call_of_gates isPublic endpoint options now probe s _ Hg Hp Hne He).
    cbn [fst snd]. split; [congruence |]. intros _ _ Hnb.
    rewrite <- (isGlobalRequestBlocked_block now s _ Tk) in Hnb. congruence.
  - destruct (gates_tripped isPublic endpoint options now _ Hb Htrip) as [He Hn].
    rewrite (call_of_gates isPublic endpoint options now probe s _ Hg Hp Hne He).
    cbn [fst snd]. split; [congruence | done].
Qed.



(** ** A call up to its first await, and from the answer on *)

Lemma sync_global503 (isPublic : bool) (endpoint : string) (options : RequestInit)
    (now : Z) (s : State) :
  global503Status s = true ->
  requestInternal_enter isPublic endpoint options now s
  = (inr (Threw global503Error),
     showApiFailureModal now [endpoint] true None (trackApiCall endpoint s)).
Proof.
  intros Hdown. track_fields endpoint s. unfold_call. simpl.
  rewrite Hg, Hdown. reflexivity.
Qed.

Lemma sync_pending (isPublic : bool) (endpoint : string) (options : RequestInit)
    (now : Z) (s : State) (p : nat) :
  global503Status s = false ->
  pendingRequests (registry s) !! getRequestKey endpoint options = Some p ->
  requestInternal_enter isPublic endpoint options now s
  = (inr (Returned p), trackApiCall endpoint s).
Proof.
  intros Hup Hp'. track_fields endpoint s. unfold_call. simpl.
  rewrite Hg, Hup. simpl. rewrite Hr, Hp'. reflexivity.
Qed.

(** The call up to its first await, when the gates are open: it is
    suspended in the health check that it starts, or rejected because
    the health check is not run (one is in progress, or the API was
    found down less than 30 s ago). *)
Lemma sync_open (isPublic : bool) (endpoint : string) (options : RequestInit)
    (now : Z) (s : State) :
  endpoint ≠ HEALTH ->
  global503Status s = false ->
  pendingRequests (registry s) !! getRequestKey endpoint options = None ->
  fst (isGlobalRequestBlocked now s) = false ->
  fst (isEndpointInCircuitBreaker now endpoint s) = false ->
  isApiBlocked s = false ->
  let r := requestInternal_enter isPublic endpoint options now s in
  (fst (checkApiHealth_enter now s) = HealthAwait ->
     exitOf r = AwaitHealth
     ∧ network (snd r) = network s
     ∧ breaker (snd r) = breaker (snd (isEndpointInCircuitBreaker now endpoint s)))
  ∧ (fst (checkApiHealth_enter now s) = HealthDone false ->
     exitOf r = Threw healthFailedError).
Proof.
  intros Hne Hg Hp Hb Ht Hc r. subst r.
  pose proof (trackApiCall_fields endpoint s)
    as (Tg & Tc & Tm & Th & Tb & Tk & Tr & Tp & Tn).
  rewrite (enter_gates isPublic endpoint options now s Hg Hp Hne).
  destruct (isEndpointInCircuitBreaker_breaker now endpoint s _ Tb) as [E1 E2].
  assert (fst (isGlobalRequestBlocked now (trackApiCall endpoint s)) = false) as Hb'
    by (by rewrite (isGlobalRequestBlocked_block now s _ Tk)).
  assert (fst (isEndpointInCircuitBreaker now endpoint (trackApiCall endpoint s)) = false)
    as Ht' by (by rewrite E1).
  assert (isApiBlocked (trackApiCall endpoint s) = false) as Hc' by (by rewrite Tc).
  split; intros Hh.
  - destruct (gates_await isPublic endpoint options now (trackApiCall endpoint s)
                Hb' Ht' Hc') as (Gx & Gr & Gp & Gn & Gc & Gb).
    { by rewrite (checkApiHealth_enter_health now s _ Th). }
    unfold exitOf. rewrite Gx, Gn, Gb, Tn, E2. done.
  - unfold exitOf.
    rewrite (gates_health_failed isPublic endpoint options now
               (trackApiCall endpoint s) Hb' Ht' Hc'); [done |].
    by rewrite (checkApiHealth_enter_health now s _ Th).
Qed.

(** From the answer of the health check on: a good answer starts the
    request, whatever the state of the gates by then; any other answer
    marks the endpoint. *)
Lemma resume_ok (isPublic : bool) (endpoint : string) (options : RequestInit)
    (now : Z) (s : State) :
  let r := requestInternal_resume isPublic endpoint options now (HealthValue false) s in
  exitOf r = Returned (nextPromise s)
  ∧ network (snd r)
    = (network s ++ [RequestStarted isPublic endpoint (nextPromise s)])%list
  ∧ breaker (snd r) = breaker s.
Proof.
  intros r. subst r. rewrite resume_verdict. cbn [checkApiHealth_resume].
  unfold verdict. rewrite launch_eq, exitOf_inr. cbn [snd].
  destruct (launched_fields isPublic endpoint options now
              (with_health (mkHealthGate false false (lastHealthCheckTime (health s))) s))
    as (_ & _ & _ & _ & Ln & Lb & _).
  rewrite Ln, Lb. done.
Qed.







(** A call for [/v0/about] is suspended in its health check at
    1,000,000 ms.  At 1,000,005 ms a second call for the endpoint finds
    the check in progress, is rejected, and marks the endpoint.  At
    1,000,020 ms the check answers that the API is up, and the first
    call starts its request, 15 ms after the endpoint was marked. *)
Lemma suspended_call_not_stopped :
  exitOf (requestInternal_enter false ABOUT noOptions 1000000 init) = AwaitHealth
  ∧ exitOf (requestInternal_enter false ABOUT noOptions 1000005 suspended)
    = Threw healthFailedError
  ∧ endpointFailureTimes (breaker answeredHealthy) !! ABOUT = Some 1000005
  ∧ fst (isEndpointInCircuitBreaker 1000020 ABOUT answeredHealthy) = true
  ∧ exitOf (requestInternal_resume false ABOUT noOptions 1000020 (HealthValue false)
              answeredHealthy) = Returned 0%nat
  ∧ startedFor ABOUT
      (network (snd (requestInternal_resume false ABOUT noOptions 1000020
                       (HealthValue false) answeredHealthy)))
    = [0%nat].
Proof. repeat split. Qed.

End BreakerFacts.

(** ** Caches *)

Module CacheFacts.
Import Js ApiSW ApiDirect Scenario GateFacts BreakerFacts.

Lemma clearExpired_lookup (now : Z) (cache : gmap string HomePageCache.Entry)
    (k : string) (e : HomePageCache.Entry) :
  cache !! k = Some e ->
  HomePageCache.clearExpired now cache !! k = None ->
  now - HomePageCache.timestamp e > HomePageCache.CACHE_DURATION.
Proof.
  intros Hk Hnone. unfold HomePageCache.clearExpired in Hnone.
  apply map_lookup_filter_None in Hnone as [Hnone | Hnone]; [congruence |].
  specialize (Hnone e Hk). simpl in Hnone.
  destruct (decide (now - HomePageCache.timestamp e > HomePageCache.CACHE_DURATION));
    [done | by destruct Hnone].
Qed.

(** C6, as the code has it. For every key of the home page cache: a read
    at [now] with [now - insertedAt <= 300000] returns the cached value
    and leaves the cache as it is; a read with [now - insertedAt > 300000]
    deletes the entry and returns [null].  An entry disappears only
    through a read of its own key once it has expired, or through the
    explicit [clear] and [clearExpired].  The response cache behind
    [getLocations] behaves the same with the TTL given at insertion.  A
    hit there returns the cached value without calling [makeRequest]:
    the client state, the network log in it, is untouched.  On a miss,
    an expired entry included, [getLocations] calls [makeRequest] for
    the locations endpoint: with the global 503 status set the call is
    rejected and no request started; with the gates open the call is
    suspended in the health check, and starts its request when the
    check answers that the API is up.  A truthy result is cached for
    900000 ms, any other is not cached. *)
Theorem cache_ttl :
  (∀ (now : Z) (key : string) (cache : gmap string HomePageCache.Entry)
     (e : HomePageCache.Entry),
     cache !! key = Some e ->
     (now - HomePageCache.timestamp e <= 300000 ->
        HomePageCache.get now key cache = (HomePageCache.data e, cache))
     ∧ (now - HomePageCache.timestamp e > 300000 ->
        HomePageCache.get now key cache = (JNull, delete key cache)))
  ∧ (∀ (op : HomePageCache.Op) (cache : gmap string HomePageCache.Entry)
       (k : string) (e : HomePageCache.Entry),
       cache !! k = Some e ->
       HomePageCache.run op cache !! k = None ->
       op = HomePageCache.OpClear
       ∨ (∃ now, op = HomePageCache.OpClearExpired now
                 ∧ now - HomePageCache.timestamp e > 300000)
       ∨ (∃ now, op = HomePageCache.OpGet now k
                 ∧ now - HomePageCache.timestamp e > 300000))
  ∧ (∀ (now : Z) (key : string) (cache : gmap string ApiCache.Entry)
       (e : ApiCache.Entry),
       cache !! key = Some e ->
       (now - ApiCache.insertedAt e <= ApiCache.ttl e ->
          ApiCache.getCachedApiResponse now key cache = (ApiCache.value e, cache))
       ∧ (now - ApiCache.insertedAt e > ApiCache.ttl e ->
          ApiCache.getCachedApiResponse now key cache = (JNull, delete key cache)))
  ∧ (∀ (now : Z) (cache : gmap string ApiCache.Entry)
       (s : State) (e : ApiCache.Entry),
       cache !! ApiCache.LOCATIONS = Some e ->
       truthy (ApiCache.value e) = true ->
       now - ApiCache.insertedAt e <= ApiCache.ttl e ->
       ApiCache.getLocations_enter now cache s
       = (ApiCache.FromCache (ApiCache.value e), cache, s))
  ∧ (∀ (now : Z) (cache : gmap string ApiCache.Entry) (s : State),
       let read := ApiCache.getCachedApiResponse now ApiCache.LOCATIONS cache in
       let r := requestInternal_enter false ApiCache.LOCATIONS noOptions now s in
       truthy (fst read) = false ->
       ApiCache.getLocations_enter now cache s
       = (ApiCache.Requesting (exitOf r), snd read, snd r)
       ∧ (global503Status s = true ->
          exitOf r = Threw global503Error ∧ network (snd r) = network s)
       ∧ (global503Status s = false ->
          pendingRequests (registry s) !! getRequestKey ApiCache.LOCATIONS noOptions
          = None ->
          fst (isGlobalRequestBlocked now s) = false ->
          fst (isEndpointInCircuitBreaker now ApiCache.LOCATIONS s) = false ->
          isApiBlocked s = false ->
          fst (checkApiHealth_enter now s) = HealthAwait ->
          exitOf r = AwaitHealth
          ∧ ∀ now' s',
              let r' := requestInternal_resume false ApiCache.LOCATIONS noOptions now'
                          (HealthValue false) s' in
              exitOf r' = Returned (nextPromise s')
              ∧ network (snd r')
                = (network s'
                   ++ [RequestStarted false ApiCache.LOCATIONS (nextPromise s')])%list))
  ∧ (∀ (now : Z) (cache : gmap string ApiCache.Entry) (e : ApiCache.Entry),
       cache !! ApiCache.LOCATIONS = Some e ->
       now - ApiCache.insertedAt e > ApiCache.ttl e ->
       ApiCache.getCachedApiResponse now ApiCache.LOCATIONS cache
       = (JNull, delete ApiCache.LOCATIONS cache)
       ∧ truthy JNull = false)
  ∧ (∀ (now : Z) (result : Json) (cache : gmap string ApiCache.Entry),
       (truthy result = true ->
          ApiCache.getLocations_resume now result cache
          = (result,
             <[ApiCache.LOCATIONS := ApiCache.mkEntry result now 900000]> cache))
       ∧ (truthy result = false ->
          ApiCache.getLocations_resume now result cache = (result, cache))).
Proof.
  assert (HomePageCache.CACHE_DURATION = 300000) as Hdur by reflexivity.
  split; [| split; [| split; [| split; [| split; [| split]]]]].
  - intros now key cache e H. split.
    + intros Hfresh. unfold HomePageCache.get. rewrite H.
      destruct (Z.gtb_spec (now - HomePageCache.timestamp e)
                           HomePageCache.CACHE_DURATION); [lia | done].
    + intros Hold. unfold HomePageCache.get. rewrite H.
      destruct (Z.gtb_spec (now - HomePageCache.timestamp e)
                           HomePageCache.CACHE_DURATION); [done | lia].
  - intros op cache k e Hk Hgone.
    destruct op as [now key d | now key | | now]; simpl in Hgone.
    + unfold HomePageCache.set in Hgone.
      destruct (decide (key = k)) as [-> | Hne].
      * by rewrite lookup_insert_eq in Hgone.
      * rewrite lookup_insert_ne in Hgone by done. congruence.
    + right; right. exists now.
      unfold HomePageCache.get in Hgone.
      destruct (cache !! key) as [c|] eqn:Hc; simpl in Hgone; [| congruence].
      destruct (Z.gtb_spec (now - HomePageCache.timestamp c)
                           HomePageCache.CACHE_DURATION) as [Hgt | Hle];
        simpl in Hgone; [| congruence].
      destruct (decide (key = k)) as [-> | Hne].
      * split; [done |]. rewrite Hk in Hc. injection Hc as ->. lia.
      * rewrite lookup_delete_ne in Hgone by done. congruence.
    + by left.
    + right; left. exists now. split; [done |].
      rewrite <- Hdur. by eapply clearExpired_lookup.
  - intros now key cache e H. split.
    + intros Hfresh. unfold ApiCache.getCachedApiResponse. rewrite H.
      destruct (Z.leb_spec (now - ApiCache.insertedAt e) (ApiCache.ttl e)); [done | lia].
    + intros Hold. unfold ApiCache.getCachedApiResponse. rewrite H.
      destruct (Z.leb_spec (now - ApiCache.insertedAt e) (ApiCache.ttl e)); [lia | done].
  - intros now cache s e He Htruthy Hfresh.
    unfold ApiCache.getLocations_enter, ApiCache.getCachedApiResponse.
    rewrite He.
    destruct (Z.leb_spec (now - ApiCache.insertedAt e) (ApiCache.ttl e)); [| lia].
    by rewrite Htruthy.
  - intros now cache s read r Hmiss. subst read r.
    assert (ApiCache.LOCATIONS ≠ HEALTH) as Hne by discriminate.
    split; [| split].
    + unfold ApiCache.getLocations_enter.
      destruct (ApiCache.getCachedApiResponse now ApiCache.LOCATIONS cache)
        as [cached cache'].
      simpl in Hmiss. by rewrite Hmiss.
    + intros Hdown.
      rewrite (sync_global503 false ApiCache.LOCATIONS noOptions now s Hdown),
        exitOf_inr.
      cbn [snd]. split; [done |].
      pose proof (showApiFailureModal_fields now [ApiCache.LOCATIONS] true None
                    (trackApiCall ApiCache.LOCATIONS s))
        as (_ & _ & _ & _ & _ & _ & _ & ->).
      by destruct (trackApiCall_fields ApiCache.LOCATIONS s)
        as (_ & _ & _ & _ & _ & _ & _ & _ & ->).
    + intros Hg Hp Hb Ht Hc.
      destruct (sync_open false ApiCache.LOCATIONS noOptions now s Hne Hg Hp Hb Ht Hc)
        as [Hawait _].
      intros Hh. destruct (Hawait Hh) as (Hx & _). split; [done |].
      intros now' s'.
      destruct (resume_ok false ApiCache.LOCATIONS noOptions now' s') as (Hr & Hn & _).
      by split.
  - intros now cache e He Hold. split; [| reflexivity].
    unfold ApiCache.getCachedApiResponse. rewrite He.
    destruct (Z.leb_spec (now - ApiCache.insertedAt e) (ApiCache.ttl e)); [lia | done].
  - intros now result cache. unfold ApiCache.getLocations_resume. split.
    + by intros ->.
    + by intros ->.
Qed.

Lemma cache_ttl_witness :
  HomePageCache.get 1300000 "services_data" filled = (servicesData, filled)
  ∧ HomePageCache.get 1300001 "services_data" filled
    = (JNull, delete "services_data" filled)
  ∧ ApiCache.getLocations_enter 1900000 locationsCached init
    = (ApiCache.FromCache locationsData, locationsCached, init)
  ∧ ApiCache.getCachedApiResponse 1900001 ApiCache.LOCATIONS locationsCached
    = (JNull, delete ApiCache.LOCATIONS locationsCached)
  ∧ ApiCache.getLocations_enter 1900001 locationsCached init
    = (ApiCache.Requesting
         (exitOf (requestInternal_enter false ApiCache.LOCATIONS noOptions 1900001 init)),
       snd (ApiCache.getCachedApiResponse 1900001 ApiCache.LOCATIONS locationsCached),
       snd (requestInternal_enter false ApiCache.LOCATIONS noOptions 1900001 init))
  ∧ exitOf (requestInternal_enter false ApiCache.LOCATIONS noOptions 1900001 init)
    = AwaitHealth.
Proof.
  destruct cache_ttl as (Hget & _ & _ & Hhit & Hmiss & Hold & _).
  split; [| split; [| split; [| split; [| split]]]].
  - apply (Hget 1300000 "services_data" filled
             (HomePageCache.mkEntry servicesData 1000000)).
    + reflexivity.
    + vm_compute. discriminate.
  - apply (Hget 1300001 "services_data" filled
             (HomePageCache.mkEntry servicesData 1000000)).
    + reflexivity.
    + vm_compute. reflexivity.
  - apply (Hhit 1900000 locationsCached init
             (ApiCache.mkEntry locationsData 1000000 ApiCache.LOCATIONS_TTL)).
    + reflexivity.
    + reflexivity.
    + vm_compute. discriminate.
  - apply (Hold 1900001 locationsCached
             (ApiCache.mkEntry locationsData 1000000 ApiCache.LOCATIONS_TTL)).
    + reflexivity.
    + vm_compute. reflexivity.
  - destruct (Hmiss 1900001 locationsCached init eq_refl) as (Hcall & _).
    exact Hcall.
  - destruct (Hmiss 1900001 locationsCached init eq_refl) as (_ & _ & Hopen).
    destruct (Hopen eq_refl eq_refl eq_refl eq_refl eq_refl eq_refl) as [Hawait _].
    exact Hawait.
Defined.

(** The locations were cached at 1,000,000 ms and a call for another
    endpoint has since failed its health check, which set the global 503
    status.  A read at 1,900,001 ms finds the entry expired and deletes
    it; [getLocations] calls [makeRequest], which is rejected at its
    first check: no request is started. *)
Lemma miss_rejected_without_request :
  global503Status tripped = true
  ∧ ApiCache.getLocations_enter 1900001 locationsCached tripped
    = (ApiCache.Requesting (Threw global503Error),
       delete ApiCache.LOCATIONS locationsCached,
       snd (requestInternal_enter false ApiCache.LOCATIONS noOptions 1900001 tripped))
  ∧ network (snd (requestInternal_enter false ApiCache.LOCATIONS noOptions 1900001
                    tripped))
    = network tripped.
Proof. repeat split. Qed.

End CacheFacts.


(** ** Deduplication *)

Module DedupFacts.
Import Js ApiSW ApiDirect ApiRun Scenario GateFacts BreakerFacts.

Lemma quiet_refl (s : State) : quiet s s.
Proof. by repeat split. Qed.

Lemma quiet_trans (s1 s2 s3 : State) : quiet s1 s2 -> quiet s2 s3 -> quiet s1 s3.
Proof.
  intros (R1 & P1 & N1) (R2 & P2 & N2).
  repeat split; [congruence | congruence |].
  intros ep. by rewrite N2, N1.
Qed.

Lemma quiet_of_fields (s s' : State) :
  registry s' = registry s -> nextPromise s' = nextPromise s ->
  network s' = network s -> quiet s s'.
Proof. intros R P N. repeat split; [done | done |]. intros ep. by rewrite N. Qed.

(** Where the gates hand back a promise, it is that of a request started
    there and then; where they suspend the call, nothing has been
    started or registered. *)
Lemma gates_quiet (isPublic : bool) (endpoint : string) (options : RequestInit)
    (now : Z) (s0 : State) :
  let g := gates isPublic endpoint options now s0 in
  match fst g with
  | inr (Returned p) =>
      ∃ s3, snd g = launched isPublic endpoint options now s3
            ∧ p = nextPromise s3 ∧ quiet s0 s3
  | inr AwaitHealth => quiet s0 (snd g)
  | inr (Threw _) => True
  | inl _ => False
  end.
Proof.
  unfold gates.
  pose proof (isGlobalRequestBlocked_fields now s0) as F1.
  destruct (isGlobalRequestBlocked now s0) as [blocked s1].
  simpl in F1. destruct F1 as (G1 & C1 & M1 & H1 & B1 & R1 & P1 & N1).
  destruct blocked; [done |].
  pose proof (isEndpointInCircuitBreaker_fields now endpoint s1) as F2.
  destruct (isEndpointInCircuitBreaker now endpoint s1) as [tripped s2].
  simpl in F2. destruct F2 as (G2 & C2 & M2 & H2 & K2 & R2 & P2 & N2).
  destruct tripped; [done |].
  destruct (isApiBlocked s2); [done |].
  pose proof (checkApiHealth_enter_fields now s2) as F3.
  destruct (checkApiHealth_enter now s2) as [[ok|] s3]; simpl in F3;
    destruct F3 as (G3 & C3 & B3 & K3 & R3 & P3 & N3).
  - destruct ok; [| done]. unfold verdict. rewrite launch_eq. simpl.
    exists s3. split; [done |]. split; [done |].
    apply quiet_of_fields; congruence.
  - simpl. apply quiet_of_fields; congruence.
Qed.

(** A call that returns a promise which was not in the registry has
    started the request itself, and registered it. *)
Lemma call_started (isPublic : bool) (endpoint : string) (options : RequestInit)
    (now : Z) (probe : Probe) (s s1 : State) (p : nat) :
  requestInternal isPublic endpoint options now probe s = (Returned p, s1) ->
  pendingRequests (registry s) !! getRequestKey endpoint options = None ->
  ∃ s' now',
    s1 = launched isPublic endpoint options now' s'
    ∧ p = nextPromise s' ∧ quiet s s'
    ∧ (now' = now ∨ now' = now + probeElapsed probe).
Proof.
  intros Hcall Hp.
  pose proof (trackApiCall_fields endpoint s)
    as (Tg & Tc & Tm & Th & Tb & Tk & Tr & Tp & Tn).
  assert (quiet s (trackApiCall endpoint s)) as Q0 by (by apply quiet_of_fields).
  destruct (global503Status s) eqn:Hg.
  { rewrite (enter_global503 isPublic endpoint options now probe s Hg) in Hcall.
    discriminate. }
  destruct (decide (endpoint = HEALTH)) as [-> | Hne].
  { unfold requestInternal in Hcall.
    rewrite (enter_health isPublic options now s Hg Hp), launch_eq in Hcall.
    simpl in Hcall. injection Hcall as <- <-.
    exists (trackApiCall HEALTH s), now.
    split; [done |]. split; [done |]. split; [done | by left]. }
  rewrite (call_through_gates isPublic endpoint options now probe s Hg Hp Hne) in Hcall.
  cbv zeta in Hcall.
  pose proof (gates_quiet isPublic endpoint options now (trackApiCall endpoint s)) as G.
  cbv zeta in G.
  destruct (gates isPublic endpoint options now (trackApiCall endpoint s)) as [x g].
  simpl in G.
  destruct x as [[] | [e | q |]]; simpl in Hcall.
  - destruct G.
  - discriminate.
  - injection Hcall as <- <-. destruct G as (s3 & -> & -> & Q3).
    exists s3, now. split; [done |]. split; [done |].
    split; [by eapply quiet_trans | by left].
  - pose proof (runProbe_fields probe g) as F4.
    destruct (runProbe probe g) as [answer s4]. simpl in F4.
    destruct F4 as (_ & C4 & H4 & B4 & K4 & R4 & P4 & N4).
    pose proof (checkApiHealth_resume_fields answer s4) as F5.
    destruct (checkApiHealth_resume answer s4) as [ok s5]. simpl in F5.
    destruct F5 as (C5 & B5 & K5 & R5 & P5 & N5).
    destruct ok; [| discriminate].
    unfold verdict in Hcall. rewrite launch_eq in Hcall. simpl in Hcall.
    injection Hcall as <- <-.
    exists s5, (now + probeElapsed probe).
    split; [done |]. split; [done |]. split; [| by right].
    eapply quiet_trans; [exact Q0 |]. eapply quiet_trans; [exact G |].
    repeat split; [congruence | congruence |].
    intros ep. by rewrite N5, N4.
Qed.

(** C4, as the code has it. Once a call has started a request and
    registered its promise under the request key: the registry holds that
    promise under the key; a second call with the same identity, made
    while the global 503 status is not set, is handed the very same
    promise (whatever it settles with, both callers get it), starts
    nothing and leaves the registry as it is, so that one request has
    been started in all; the entry is removed when the promise settles,
    and by the timer armed for 30000 ms after the registration when that
    fires.  The registry of [executeRequestWithDeduplication] hands back
    a pending promise in the same way. *)
Theorem one_request_per_identity (isPublic : bool) (endpoint : string)
    (options : RequestInit) (now : Z) (probe : Probe) (s s1 : State) (p : nat) :
  requestInternal isPublic endpoint options now probe s = (Returned p, s1) ->
  pendingRequests (registry s) !! getRequestKey endpoint options = None ->
  let requestKey := getRequestKey endpoint options in
  pendingRequests (registry s1) !! requestKey = Some p
  ∧ startedFor endpoint (network s1) = (startedFor endpoint (network s) ++ [p])%list
  ∧ (∀ isPublic' now' probe',
       global503Status s1 = false ->
       let r := requestInternal isPublic' endpoint options now' probe' s1 in
       fst r = Returned p
       ∧ startedFor endpoint (network (snd r))
         = (startedFor endpoint (network s) ++ [p])%list
       ∧ registry (snd r) = registry s1)
  ∧ pendingRequests (registry (settle p s1)) !! requestKey = None
  ∧ (∃ timeout due,
       timers (registry s1) !! timeout = Some (requestKey, due)
       ∧ (due = now + pendingTimeout ∨ due = now + probeElapsed probe + pendingTimeout)
       ∧ ∀ now', due <= now' ->
           pendingRequests (registry (fireTimer now' timeout s1)) !! requestKey = None)
  ∧ (∀ (st : Inner) (now' : Z) (q : nat),
       innerPending st !! requestKey = Some q ->
       executeRequestWithDeduplication_enter now' endpoint options st = (Reuse q, st)).
Proof.
  intros Hcall Hp requestKey.
  destruct (call_started isPublic endpoint options now probe s s1 p Hcall Hp)
    as (s' & now' & -> & -> & (Qr & Qp & Qn) & Hnow).
  destruct (launched_fields isPublic endpoint options now' s')
    as (Lp & Lt & Lm & Ls & Ln & _).
  cbv zeta in Lp, Lt, Lm, Ls, Ln. fold requestKey in Lp, Lt, Lm, Ls.
  set (s1 := launched isPublic endpoint options now' s') in *.
  assert (pendingRequests (registry s1) !! requestKey = Some (nextPromise s')) as Hreg.
  { rewrite Lp. apply lookup_insert_eq. }
  assert (startedFor endpoint (network s1)
          = (startedFor endpoint (network s) ++ [nextPromise s'])%list) as Hstarted.
  { rewrite Ln, startedFor_app, Qn. simpl. by rewrite String.eqb_refl. }
  split; [exact Hreg |]. split; [exact Hstarted |].
  split.
  { intros isPublic' now'' probe' Hg r. subst r.
    rewrite (enter_pending isPublic' endpoint options now'' probe' s1 _ Hg Hreg).
    simpl.
    pose proof (trackApiCall_fields endpoint s1)
      as (_ & _ & _ & _ & _ & _ & Tr & _ & Tn).
    split; [done |]. by rewrite Tn, Tr. }
  split.
  { unfold settle. rewrite Ls, lookup_insert_eq.
    unfold removePendingRequest. rewrite Lt, lookup_insert_eq. simpl.
    apply lookup_delete_eq. }
  split.
  { exists (nextTimer (registry s')), (now' + pendingTimeout).
    split; [rewrite Lm; apply lookup_insert_eq |].
    split; [destruct Hnow as [-> | ->]; [by left | by right] |].
    intros now'' Hdue. unfold fireTimer. rewrite Lm, lookup_insert_eq.
    destruct (Z.leb_spec (now' + pendingTimeout) now''); [| lia]. simpl.
    apply lookup_delete_eq. }
  intros st now'' q Hq. unfold executeRequestWithDeduplication_enter.
  fold requestKey. by rewrite Hq.
Qed.

Lemma one_request_per_identity_witness :
  pendingRequests (registry inFlight) !! getRequestKey ABOUT noOptions = Some 0%nat
  ∧ fst (makePublicRequest ABOUT noOptions 1000500 healthy inFlight) = Returned 0
  ∧ startedFor ABOUT
      (network (snd (makeRequest ABOUT noOptions 1000500 healthy inFlight))) = [0%nat]
  ∧ pendingRequests (registry (settle 0 inFlight)) !! getRequestKey ABOUT noOptions
    = None.
Proof.
  destruct (one_request_per_identity false ABOUT noOptions 1000000 healthy
              init inFlight 0 eq_refl eq_refl)
    as (Hreg & _ & Hsecond & Hsettle & _).
  split; [exact Hreg |].
  destruct (Hsecond true 1000500 healthy eq_refl) as (Hp & _).
  destruct (Hsecond false 1000500 healthy eq_refl) as (_ & Hs & _).
  split; [exact Hp |]. split; [exact Hs | exact Hsettle].
Defined.

(** While the request for [/v0/about] is in flight another endpoint
    answers 503 and the global 503 status is set: a second call with the
    same identity is rejected at once, and the first caller still gets
    the document when the backend answers. *)
Lemma second_caller_rejected_while_first_in_flight :
  pendingRequests (registry down503) !! getRequestKey ABOUT noOptions = Some 0%nat
  ∧ fst (makeRequest ABOUT noOptions 1000500 healthy down503) = Threw global503Error
  ∧ fst (complete noConnectionError no503Error 0 answer200
           (snd (makeRequest ABOUT noOptions 1000500 healthy down503)))
    = Resolved aboutData.
Proof. repeat split. Qed.

(** For the record: a second call entered while the first is still
    suspended in its health check finds [healthCheckInProgress] set, takes
    the health check as failed and is rejected; nothing is registered
    yet that it could be handed. *)
Lemma call_during_health_check_rejected :
  fst (requestInternal_enter false ABOUT noOptions 1000000 init) = inr AwaitHealth
  ∧ pendingRequests (registry suspended) !! getRequestKey ABOUT noOptions = None
  ∧ fst (requestInternal_enter false ABOUT noOptions 1000000 suspended)
    = inr (Threw healthFailedError).
Proof. repeat split. Qed.

End DedupFacts.

(** ** One request *)

Module ExecFacts.
Import Js Exec Scenario.

Section WithErrorUtils.
Variable isConnectionError : Error -> bool.
Variable is503Error : Error -> bool.

Lemma tryFetch_plain (r : Response) :
  redirected r = false ->
  existsb (Z.eqb (status r)) [301; 302; 307; 308] = false ->
  tryFetch (FetchResponse r) = Resolved r.
Proof. intros Hr Hs. unfold tryFetch. by rewrite Hr, Hs. Qed.

Lemma executeRequest_mock (f : FetchResult) (payload : Json) :
  tryFetch f = Resolved (mockResponse payload) ->
  executeRequest isConnectionError is503Error f
  = (Resolved payload, [SetGlobal503Status true]).
Proof. intros H. unfold executeRequest. by rewrite H. Qed.

End WithErrorUtils.

(** C7, as the code has it. An HTTP 503 answer whose body is JSON is not
    thrown: its parsed body, whatever its shape, is returned as data and
    the global 503 status is set.  A redirect (the [redirected] flag, or
    status 301, 302, 307, 308), a CORS-redirect [TypeError] and a "Failed
    to fetch" [TypeError] are each replaced by a synthesized 503 answer,
    whose 503-shaped payload is returned as data with the global 503
    status set.  For any other status outside 200..299 the error built by
    [handleErrorResponse] is thrown inside the [try] block: the call
    rejects with it, the global 503 status untouched, unless [is503Error]
    of [errorUtils] accepts it, in which case a 503-shaped object is
    returned.  (What happens when [isConnectionError] accepts the error
    is not covered.) *)
Theorem service_unavailable_returned_as_data
    (isConnectionError is503Error : Error -> bool) :
  (∀ r d, redirected r = false -> status r = 503 -> r_body r = Some d ->
     executeRequest isConnectionError is503Error (FetchResponse r)
     = (Resolved d, [SetGlobal503Status true]))
  ∧ (∀ r, (redirected r || existsb (Z.eqb (status r)) [301; 302; 307; 308])%bool = true ->
       executeRequest isConnectionError is503Error (FetchResponse r)
       = (Resolved (redirectPayload (r_url r)), [SetGlobal503Status true])
       ∧ is503Shaped (redirectPayload (r_url r)) = true)
  ∧ (∀ e, instanceofTypeError e = true ->
       (includes (e_message e) "Redirect is not allowed"
        || includes (e_message e) "CORS policy")%bool = true ->
       executeRequest isConnectionError is503Error (FetchThrew e)
       = (Resolved corsPayload, [SetGlobal503Status true])
       ∧ is503Shaped corsPayload = true)
  ∧ (∀ e, instanceofTypeError e = true ->
       (includes (e_message e) "Redirect is not allowed"
        || includes (e_message e) "CORS policy")%bool = false ->
       includes (e_message e) "Failed to fetch" = true ->
       executeRequest isConnectionError is503Error (FetchThrew e)
       = (Resolved connectionPayload, [SetGlobal503Status true])
       ∧ is503Shaped connectionPayload = true)
  ∧ (∀ r, redirected r = false ->
       existsb (Z.eqb (status r)) [301; 302; 307; 308] = false ->
       ok r = false -> status r ≠ 503 ->
       let error := newError (fst (handleErrorResponse r)) in
       isConnectionError error = false ->
       (is503Error error = false ->
          executeRequest isConnectionError is503Error (FetchResponse r)
          = (Rejected error, snd (handleErrorResponse r))
          ∧ setsGlobal503 (snd (handleErrorResponse r)) = false)
       ∧ (is503Error error = true ->
          ∃ d, fst (executeRequest isConnectionError is503Error (FetchResponse r))
               = Resolved d
               ∧ is503Shaped d = true
               ∧ setsGlobal503
                   (snd (executeRequest isConnectionError is503Error (FetchResponse r)))
                 = true)).
Proof.
  split.
  { intros r d Hr Hs Hb. unfold executeRequest.
    rewrite tryFetch_plain; [| done | by rewrite Hs].
    unfold ok. rewrite Hs, Hb. reflexivity. }
  split.
  { intros r Hr. split; [| reflexivity].
    apply executeRequest_mock. unfold tryFetch. by rewrite Hr. }
  split.
  { intros e He Hc. split; [| reflexivity].
    apply executeRequest_mock. unfold tryFetch. by rewrite He, Hc. }
  split.
  { intros e He Hc Hf. split; [| reflexivity].
    apply executeRequest_mock. unfold tryFetch. by rewrite He, Hc, Hf. }
  intros r Hr Hs Hok H503 error Hconn. subst error.
  assert ((status r =? 503)%Z = false) as H503' by by apply Z.eqb_neq.
  unfold executeRequest. rewrite (tryFetch_plain r Hr Hs), Hok, H503'.
  destruct (handleErrorResponse r) as [errorMessage effs] eqn:Hh. simpl in *.
  unfold executeRequest_catch. rewrite Hconn.
  assert (setsGlobal503 effs = false) as Heffs.
  { revert Hh. unfold handleErrorResponse, handleErrorResponse_catch.
    rewrite H503'.
    destruct (r_body r) as [[| | | | |]|];
      repeat (match goal with
              | |- context [if ?c then _ else _] => destruct c
              | |- context [match ?c with _ => _ end] => destruct c
              end);
      intros [= <- <-]; reflexivity. }
  split.
  - intros ->. by split.
  - intros ->. eexists. split; [reflexivity |]. split; [reflexivity |].
    simpl. unfold setsGlobal503. rewrite existsb_app. simpl.
    apply orb_true_r.
Qed.

Lemma service_unavailable_returned_as_data_witness :
  executeRequest noConnectionError no503Error plain503
  = (Resolved (JObj [("detail", JStr "maintenance")]), [SetGlobal503Status true])
  ∧ executeRequest noConnectionError no503Error answer404
    = (Rejected (newError "HTTP 404: no such page"), []).
Proof.
  destruct (service_unavailable_returned_as_data noConnectionError no503Error)
    as (H503 & _ & _ & _ & Hother).
  split.
  - apply H503; reflexivity.
  - assert ((404 : Z) ≠ 503) as Hne by discriminate.
    exact (proj1 (proj1 (Hother (mkResponse false 404 "Not Found"
                                   "https://api.example/v0/about"
                                   (Some (JObj [("message", JStr "no such page")])))
                           eq_refl eq_refl eq_refl Hne eq_refl) eq_refl)).
Defined.

(** An HTTP 503 answer with a JSON body of another shape comes back as
    it is: data, but not the 503-shaped object. *)
Lemma http503_body_returned_unshaped :
  executeRequest noConnectionError no503Error plain503
  = (Resolved (JObj [("detail", JStr "maintenance")]), [SetGlobal503Status true])
  ∧ is503Shaped (JObj [("detail", JStr "maintenance")]) = false.
Proof. split; reflexivity. Qed.

End ExecFacts.

(* ===================================================================== *)
(** * Further properties *)
(* ===================================================================== *)

(** ** The global 503 status *)

Module LatchFacts.
Import Js ApiSW ApiDirect ApiRun ClientOps Scenario GateFacts BreakerFacts.

Lemma handleErrorResponse_keeps503 (r : Exec.Response) :
  Forall keeps503 (snd (Exec.handleErrorResponse r)).
Proof.
  unfold Exec.handleErrorResponse, Exec.handleErrorResponse_catch.
  destruct (Exec.r_body r) as [[| | | | |]|];
    repeat (match goal with
            | |- context [if ?c then _ else _] => destruct c
            | |- context [match ?c with _ => _ end] => destruct c
            end);
    simpl; repeat constructor; discriminate.
Qed.

Lemma executeRequest_catch_keeps503 (isConnectionError is503Error : Error -> bool)
    (e : Error) (effs : list Exec.Effect) :
  Forall keeps503 effs ->
  Forall keeps503 (snd (Exec.executeRequest_catch isConnectionError is503Error e effs)).
Proof.
  intros H. unfold Exec.executeRequest_catch.
  assert (Forall keeps503 (effs ++ [Exec.SetGlobal503Status true])) as H'.
  { apply Forall_app. split; [done |]. repeat constructor. discriminate. }
  destruct (isConnectionError e); [done |]. by destruct (is503Error e).
Qed.

Lemma executeRequest_keeps503 (isConnectionError is503Error : Error -> bool)
    (f : Exec.FetchResult) :
  Forall keeps503 (snd (Exec.executeRequest isConnectionError is503Error f)).
Proof.
  unfold Exec.executeRequest.
  destruct (Exec.tryFetch f) as [response | fetchError].
  - destruct (Exec.ok response).
    + destruct (Exec.r_body response); [constructor |].
      apply executeRequest_catch_keeps503. constructor.
    + destruct (Exec.status response =? 503)%Z.
      * destruct (Exec.r_body response).
        { repeat constructor. discriminate. }
        apply executeRequest_catch_keeps503. repeat constructor. discriminate.
      * pose proof (handleErrorResponse_keeps503 response) as H.
        destruct (Exec.handleErrorResponse response) as [msg effs].
        by apply executeRequest_catch_keeps503.
  - apply executeRequest_catch_keeps503. constructor.
Qed.

Lemma applyEffects_keep503 (effs : list Exec.Effect) (s : State) :
  Forall keeps503 effs ->
  global503Status s = true ->
  global503Status (foldl applyEffect s effs) = true
  ∧ network (foldl applyEffect s effs) = network s.
Proof.
  intros H. revert s. induction H as [|eff effs Heff _ IH]; intros s Hs; simpl; [done |].
  destruct (IH (applyEffect s eff)) as [IH1 IH2].
  - destruct eff as [[]| |]; simpl; try done; try by destruct Heff.
  - split; [done |]. rewrite IH2. by destruct eff.
Qed.

Lemma settle_fields (p : nat) (s : State) :
  global503Status (settle p s) = global503Status s
  ∧ network (settle p s) = network s
  ∧ pageApiCalls (settle p s) = pageApiCalls s.
Proof.
  unfold settle. destruct (onSettle (registry s) !! p); [| done].
  unfold removePendingRequest. by destruct (requestTimeouts (registry s) !! _).
Qed.

Lemma fireTimer_fields (now : Z) (t : nat) (s : State) :
  global503Status (fireTimer now t s) = global503Status s
  ∧ network (fireTimer now t s) = network s
  ∧ pageApiCalls (fireTimer now t s) = pageApiCalls s.
Proof.
  unfold fireTimer. destruct (timers (registry s) !! t) as [[key due]|]; [| done].
  by destruct (due <=? now)%Z.
Qed.

Lemma resume_keeps503 (isPublic : bool) (endpoint : string) (options : RequestInit)
    (now : Z) (answer : HealthAnswer) (s : State) :
  global503Status s = true ->
  global503Status (snd (requestInternal_resume isPublic endpoint options now answer s))
  = true.
Proof.
  intros Hs. rewrite resume_verdict.
  assert (global503Status (snd (checkApiHealth_resume answer s)) = true) as Hs'
    by (by destruct answer as [[]|]).
  destruct (checkApiHealth_resume answer s) as [ok s']. simpl in Hs'.
  destruct ok.
  - unfold verdict. rewrite launch_eq. cbn [snd].
    destruct (launched_fields isPublic endpoint options now s')
      as (_ & _ & _ & _ & _ & _ & _ & _ & -> & _). done.
  - unfold verdict. cbn [snd].
    by pose proof (showApiFailureModal_fields now [endpoint] true None
                     (addEndpointToCircuitBreaker now endpoint
                        (activateGlobalRequestBlock now s')))
      as (-> & _).
Qed.

Lemma runProbe_keeps503 (probe : Probe) (s : State) :
  global503Status s = true -> global503Status (snd (runProbe probe s)) = true.
Proof.
  intros Hs. destruct probe as [hasError | tries answer sets503 elapsed]; simpl;
    [done |].
  destruct sets503; [done |]. simpl.
  by pose proof (trackApiCall_fields HEALTH s) as (-> & _).
Qed.

Lemma run_latched (op : Op) (s : State) :
  global503Status s = true -> global503Status (run s op) = true.
Proof.
  intros Hs. destruct op; simpl.
  - rewrite (enter_global503 _ _ _ _ _ _ Hs). simpl.
    pose proof (showApiFailureModal_fields now [endpoint] true None
                  (trackApiCall endpoint s)) as (-> & _).
    by pose proof (trackApiCall_fields endpoint s) as (-> & _).
  - rewrite (sync_global503 _ _ _ _ _ Hs). simpl.
    pose proof (showApiFailureModal_fields now [endpoint] true None
                  (trackApiCall endpoint s)) as (-> & _).
    by pose proof (trackApiCall_fields endpoint s) as (-> & _).
  - by apply resume_keeps503.
  - by apply runProbe_keeps503.
  - pose proof (executeRequest_keeps503 isConnectionError is503Error f) as H.
    by apply applyEffects_keep503.
  - unfold complete.
    pose proof (executeRequest_keeps503 isConnectionError is503Error f) as H.
    destruct (Exec.executeRequest isConnectionError is503Error f) as [out effs].
    simpl in *. destruct (settle_fields promise (foldl applyEffect s effs)) as (-> & _).
    by apply applyEffects_keep503.
  - by destruct (settle_fields promise s) as (-> & _).
  - by destruct (fireTimer_fields now timeout s) as (-> & _).
  - by pose proof (showApiFailureModal_fields now failed is503 cb s) as (-> & _).
  - done.
  - done.
  - done.
  - done.
  - by pose proof (trackApiCall_fields endpoint s) as (-> & _).
Qed.

(** X1. Once the global 503 status is set, every call that enters, for
    whatever endpoint, the health endpoint included, throws the global
    503 error before its first await and reaches neither registry nor
    network; and no sequence of steps of the client clears the status:
    calls entering, calls resumed from a health check, health requests,
    attempts and completions of requests, settlements, timers, modal
    requests, consent changes, [resetHealthGate].  A call that was
    suspended in its health check when the status was set is not
    stopped by it: on a good answer it starts its request. *)
Theorem global503_latched (s : State) :
  global503Status s = true ->
  (∀ isPublic endpoint options now,
     requestInternal_enter isPublic endpoint options now s
     = (inr (Threw global503Error),
        showApiFailureModal now [endpoint] true None (trackApiCall endpoint s))
     ∧ registry (snd (requestInternal_enter isPublic endpoint options now s))
       = registry s
     ∧ network (snd (requestInternal_enter isPublic endpoint options now s))
       = network s)
  ∧ (∀ ops, global503Status (foldl run s ops) = true)
  ∧ (∀ isPublic endpoint options now,
       let r := requestInternal_resume isPublic endpoint options now
                  (HealthValue false) s in
       exitOf r = Returned (nextPromise s)
       ∧ network (snd r)
         = (network s ++ [RequestStarted isPublic endpoint (nextPromise s)])%list
       ∧ global503Status (snd r) = true).
Proof.
  intros Hs. split; [| split].
  - intros isPublic endpoint options now.
    rewrite (sync_global503 isPublic endpoint options now s Hs). cbn [snd].
    split; [done |].
    pose proof (showApiFailureModal_fields now [endpoint] true None
                  (trackApiCall endpoint s)) as (_ & _ & _ & _ & _ & -> & _ & ->).
    by pose proof (trackApiCall_fields endpoint s)
      as (_ & _ & _ & _ & _ & _ & -> & _ & ->).
  - intros ops. revert s Hs.
    induction ops as [|op ops IH]; intros s Hs; simpl; [done |].
    apply IH. by apply run_latched.
  - intros isPublic endpoint options now r. subst r.
    destruct (resume_ok isPublic endpoint options now s) as (Hx & Hn & _).
    split; [done |]. split; [done |]. by apply resume_keeps503.
Qed.

Lemma global503_latched_witness :
  exitOf (requestInternal_enter false HEALTH noOptions 1000500 tripped)
  = Threw global503Error
  ∧ global503Status
      (foldl run tripped
         [OpResetHealthGate; OpEnter false ABOUT noOptions 1100000;
          OpProbe healthy; OpResume false ABOUT noOptions 1100020 (HealthValue false);
          OpCall true HEALTH noOptions 1100021 healthy]) = true.
Proof.
  destruct (global503_latched tripped eq_refl) as (Hcall & Hops & _).
  split.
  - destruct (Hcall false HEALTH noOptions 1000500) as (Hx & _).
    exact (f_equal exitOf Hx).
  - apply Hops.
Defined.

End LatchFacts.

(** ** Global block and health gate *)

Module BlockFacts.
Import Js ApiSW ApiDirect ApiRun ClientOps Scenario GateFacts BreakerFacts.

Lemma block_inside_cooldown (now : Z) (s : State) :
  globalRequestBlocked (block s) = true ->
  now - globalBlockTime (block s) <= globalBlockCooldown ->
  isGlobalRequestBlocked now s = (true, s).
Proof.
  intros Hb Hle. unfold isGlobalRequestBlocked. rewrite Hb. simpl.
  destruct (Z.gtb_spec (now - globalBlockTime (block s)) globalBlockCooldown);
    [lia | done].
Qed.

Lemma block_after_cooldown (now : Z) (s : State) :
  globalRequestBlocked (block s) = true ->
  now - globalBlockTime (block s) > globalBlockCooldown ->
  isGlobalRequestBlocked now s = (false, with_block (mkGlobalBlock false 0) s).
Proof.
  intros Hb Hgt. unfold isGlobalRequestBlocked. rewrite Hb. simpl.
  destruct (Z.gtb_spec (now - globalBlockTime (block s)) globalBlockCooldown);
    [done | lia].
Qed.

(** X2. While the global block is active and no more than 30000 ms old,
    a call for any endpoint but [/v0/health] that gets past the global
    503 check and the registry is rejected with the global-block
    classification without touching the network, and the block stays as
    it is; a call for [/v0/health] is exempt and starts its request.
    Past 30000 ms the check itself switches the block off and sets its
    time back to 0. *)
Theorem global_block_window (isPublic : bool) (endpoint : string)
    (options : RequestInit) (now : Z) (probe : Probe) (s : State) :
  globalRequestBlocked (block s) = true ->
  global503Status s = false ->
  pendingRequests (registry s) !! getRequestKey endpoint options = None ->
  (now - globalBlockTime (block s) <= globalBlockCooldown ->
     endpoint ≠ HEALTH ->
     let r := requestInternal isPublic endpoint options now probe s in
     fst r = Threw globalBlockError
     ∧ e_isGlobalBlock globalBlockError = true
     ∧ network (snd r) = network s
     ∧ block (snd r) = block s)
  ∧ (endpoint = HEALTH ->
     let r := requestInternal isPublic endpoint options now probe s in
     fst r = Returned (nextPromise s)
     ∧ network (snd r)
       = (network s ++ [RequestStarted isPublic HEALTH (nextPromise s)])%list
     ∧ block (snd r) = block s)
  ∧ (now - globalBlockTime (block s) > globalBlockCooldown ->
     block (snd (isGlobalRequestBlocked now s)) = mkGlobalBlock false 0
     ∧ ∀ later, fst (isGlobalRequestBlocked later
                       (snd (isGlobalRequestBlocked now s))) = false).
Proof.
  intros Hb Hg Hp.
  pose proof (trackApiCall_fields endpoint s)
    as (Tg & Tc & Tm & Th & Tb & Tk & Tr & Tp & Tn).
  split; [| split].
  - intros Hle Hne r. subst r.
    assert (isGlobalRequestBlocked now (trackApiCall endpoint s)
            = (true, trackApiCall endpoint s)) as Hblk.
    { apply block_inside_cooldown; by rewrite Tk. }
    assert (fst (gates isPublic endpoint options now (trackApiCall endpoint s))
            = inr (Threw globalBlockError)) as He.
    { unfold gates. by rewrite Hblk. }
    rewrite (call_of_gates isPublic endpoint options now probe s _ Hg Hp Hne He).
    cbn [fst snd]. split; [done |]. split; [done |].
    unfold gates. rewrite Hblk. cbn [snd].
    destruct isPublic; [by rewrite Tn, Tk |].
    pose proof (showApiFailureModal_fields now [endpoint] true None
                  (trackApiCall endpoint s)) as (_ & _ & _ & _ & -> & _ & _ & ->).
    by rewrite Tn, Tk.
  - intros -> r. subst r. unfold requestInternal.
    rewrite (enter_health isPublic options now s Hg Hp), launch_eq. cbn [exitOf fst snd].
    destruct (launched_fields isPublic HEALTH options now (trackApiCall HEALTH s))
      as (_ & _ & _ & _ & Ln & _ & Lk & _).
    rewrite Ln, Lk, Tp, Tn, Tk. done.
  - intros Hgt. rewrite (block_after_cooldown now s Hb Hgt). simpl.
    split; [done |]. intros later. reflexivity.
Qed.

Lemma global_block_window_witness :
  fst (makeRequest "/v0/contact" noOptions 1030020 healthy trippedReset)
  = Threw globalBlockError
  ∧ fst (makeRequest HEALTH noOptions 1030020 healthy trippedReset) = Returned 0
  ∧ block (snd (isGlobalRequestBlocked 1030021 trippedReset)) = mkGlobalBlock false 0.
Proof.
  assert ("/v0/contact" ≠ HEALTH) as Hne by discriminate.
  destruct (global_block_window false "/v0/contact" noOptions 1030020 healthy
              trippedReset eq_refl eq_refl eq_refl) as (Hin & _ & _).
  destruct (global_block_window false HEALTH noOptions 1030020 healthy
              trippedReset eq_refl eq_refl eq_refl) as (_ & Hhealth & _).
  destruct (global_block_window false HEALTH noOptions 1030021 healthy
              trippedReset eq_refl eq_refl eq_refl) as (_ & _ & Hout).
  split; [| split].
  - destruct Hin as [H _]; [vm_compute; discriminate | done | exact H].
  - destruct (Hhealth eq_refl) as [H _]. exact H.
  - destruct Hout as [H _]; [vm_compute; reflexivity | exact H].
Defined.

(** X3. A health check that was started at [t] and failed leaves the
    gate down with the check no longer in progress; for the next
    30000 ms [checkApiHealth] answers false at once, without a health
    request and without changing anything; from [t + 30000] on it starts
    a new check. *)
Theorem health_gate_cooldown (t : Z) (answer : HealthAnswer) (s : State) :
  fst (checkApiHealth_enter t s) = HealthAwait ->
  answer ≠ HealthValue false ->
  let s1 := snd (checkApiHealth_enter t s) in
  let s2 := snd (checkApiHealth_resume answer s1) in
  fst (checkApiHealth_resume answer s1) = false
  ∧ health s2 = mkHealthGate true false t
  ∧ global503Status s2 = true
  ∧ (∀ now, now - t < healthCheckCooldown ->
       checkApiHealth_enter now s2 = (HealthDone false, s2))
  ∧ (∀ now, healthCheckCooldown <= now - t ->
       fst (checkApiHealth_enter now s2) = HealthAwait
       ∧ health (snd (checkApiHealth_enter now s2)) = mkHealthGate false true now).
Proof.
  intros Henter Hans s1 s2.
  assert (health s1 = mkHealthGate (apiIsDown (health s1)) true t) as Hs1.
  { subst s1. revert Henter. unfold checkApiHealth_enter.
    destruct (apiIsDown (health s)).
    - destruct (_ <? _)%Z; [discriminate |]. simpl.
      destruct (healthCheckInProgress (health s)); [discriminate | done].
    - destruct (healthCheckInProgress (health s)); [discriminate | done]. }
  assert (fst (checkApiHealth_resume answer s1) = false
          ∧ health s2 = mkHealthGate true false t
          ∧ global503Status s2 = true) as (Hf & Hh & Hg).
  { subst s2. clearbody s1. clear Henter.
    destruct answer as [[]|]; cbn [checkApiHealth_resume fst snd];
      [| by destruct Hans |]; rewrite Hs1; done. }
  split; [done |]. split; [done |]. split; [done |]. split.
  - intros now Hlt. unfold checkApiHealth_enter. rewrite Hh. simpl.
    destruct (Z.ltb_spec (now - t) healthCheckCooldown); [done | lia].
  - intros now Hge. unfold checkApiHealth_enter. rewrite Hh. simpl.
    destruct (Z.ltb_spec (now - t) healthCheckCooldown); [lia | done].
Qed.

Lemma health_gate_cooldown_witness :
  checkApiHealth_enter 1029999
    (snd (checkApiHealth_resume HealthThrew (snd (checkApiHealth_enter 1000000 init))))
  = (HealthDone false,
     snd (checkApiHealth_resume HealthThrew (snd (checkApiHealth_enter 1000000 init))))
  ∧ fst (checkApiHealth_enter 1030000
           (snd (checkApiHealth_resume HealthThrew
                   (snd (checkApiHealth_enter 1000000 init)))))
    = HealthAwait.
Proof.
  assert (HealthThrew ≠ HealthValue false) as Hne by discriminate.
  destruct (health_gate_cooldown 1000000 HealthThrew init eq_refl Hne)
    as (_ & _ & _ & Hin & Hout).
  split.
  - apply Hin. vm_compute. reflexivity.
  - apply Hout. vm_compute. discriminate.
Defined.

End BlockFacts.

(** ** After a failed health check *)

Module OutageFacts.
Import Js ApiSW ApiDirect ApiRun ClientOps Scenario Scenario2 GateFacts BreakerFacts
       BlockFacts.

(** What the call leaves behind when the health check it waited for has
    failed at time [t]. *)
Lemma resume_failed (isPublic : bool) (endpoint : string) (options : RequestInit)
    (t : Z) (answer : HealthAnswer) (s : State) :
  answer ≠ HealthValue false ->
  let r := requestInternal_resume isPublic endpoint options t answer s in
  fst r = inr (Threw healthFailedError)
  ∧ global503Status (snd r) = true
  ∧ block (snd r) = mkGlobalBlock true t
  ∧ endpoint ∈ failedEndpoints (breaker (snd r))
  ∧ endpointFailureTimes (breaker (snd r)) !! endpoint = Some t
  ∧ registry (snd r) = registry s
  ∧ network (snd r) = network s
  ∧ isApiBlocked (snd r) = isApiBlocked s.
Proof.
  intros Hans r. subst r. rewrite resume_verdict.
  assert (∃ s', checkApiHealth_resume answer s = (false, s')
                ∧ global503Status s' = true ∧ registry s' = registry s
                ∧ network s' = network s ∧ isApiBlocked s' = isApiBlocked s)
    as (s' & -> & Hg & Hr & Hn & Hc).
  { destruct answer as [[]|]; simpl; [by eexists | by destruct Hans | by eexists]. }
  destruct (verdict_failed isPublic endpoint options t s') as (Hf & Hb & Hk & Hn' & Hr').
  unfold verdict in *. simpl in *.
  pose proof (showApiFailureModal_fields t [endpoint] true None
                (addEndpointToCircuitBreaker t endpoint
                   (activateGlobalRequestBlock t s')))
    as (Sg & Sc & _).
  split; [done |]. split; [by rewrite Sg |]. split; [done |].
  rewrite Hb. simpl.
  split; [apply elem_of_union_l; by apply elem_of_singleton |].
  split; [apply lookup_insert_eq |].
  split; [congruence |]. split; [congruence |]. by rewrite Sc.
Qed.

(** X4. A call whose health check fails leaves the global 503 status
    set, and [resetHealthGate] does not clear it: after the reset the
    circuit breaker, the global block and the health gate are as new,
    yet every call is still rejected with the global 503 error. *)
Theorem reset_leaves_global503 (isPublic : bool) (endpoint : string)
    (options : RequestInit) (t : Z) (answer : HealthAnswer) (s : State) :
  answer ≠ HealthValue false ->
  let failed := snd (requestInternal_resume isPublic endpoint options t answer s) in
  let s' := resetHealthGate failed in
  global503Status failed = true
  ∧ breaker s' = mkBreaker ∅ ∅
  ∧ block s' = mkGlobalBlock false 0
  ∧ health s' = mkHealthGate false false 0
  ∧ pendingRequests (registry s') = ∅
  ∧ (∀ isPublic' endpoint' options' now probe,
       fst (requestInternal isPublic' endpoint' options' now probe s')
       = Threw global503Error).
Proof.
  intros Hans failed s'.
  destruct (resume_failed isPublic endpoint options t answer s Hans)
    as (_ & Hg & _).
  fold failed in Hg.
  split; [done |]. split; [done |]. split; [done |]. split; [done |].
  split; [done |].
  intros. rewrite enter_global503; [done |]. exact Hg.
Qed.

Lemma reset_leaves_global503_witness :
  fst (makeRequest ABOUT noOptions 1100000 healthy
         (resetHealthGate
            (snd (requestInternal_resume false ABOUT noOptions 1000020
                    (HealthValue true) suspended))))
  = Threw global503Error.
Proof.
  assert (HealthValue true ≠ HealthValue false) as Hne by discriminate.
  destruct (reset_leaves_global503 false ABOUT noOptions 1000020
              (HealthValue true) suspended Hne) as (_ & _ & _ & _ & _ & H).
  apply H.
Defined.

(** X5. After a call was rejected at time [t] because the health check
    failed, and once the global 503 status has been reset, a further
    call for the same endpoint is rejected by the global block while
    [now - t <= 30000], by the circuit breaker while
    [30000 < now - t <= 60000], each time without touching the network;
    after that neither of the two stops it. *)
Theorem outage_timeline (isPublic isPublic' : bool) (endpoint : string)
    (options : RequestInit) (t now : Z) (answer : HealthAnswer) (probe : Probe)
    (s : State) :
  endpoint ≠ HEALTH ->
  answer ≠ HealthValue false ->
  pendingRequests (registry s) !! getRequestKey endpoint options = None ->
  let s1 := resetGlobal503Status
              (snd (requestInternal_resume isPublic endpoint options t answer s)) in
  let r := requestInternal isPublic' endpoint options now probe s1 in
  (now - t <= globalBlockCooldown ->
     fst r = Threw globalBlockError ∧ network (snd r) = network s)
  ∧ (globalBlockCooldown < now - t -> now - t <= endpointCooldown ->
     fst r = Threw (circuitBreakerError endpoint) ∧ network (snd r) = network s)
  ∧ (endpointCooldown < now - t ->
     fst (isGlobalRequestBlocked now s1) = false
     ∧ fst (isEndpointInCircuitBreaker now endpoint s1) = false).
Proof.
  intros Hne Hans Hp s1 r.
  destruct (resume_failed isPublic endpoint options t answer s Hans)
    as (_ & _ & Hk & Hin & Ht & Hr & Hn & _).
  assert (block s1 = mkGlobalBlock true t) as Hk1 by exact Hk.
  assert (endpoint ∈ failedEndpoints (breaker s1)) as Hin1 by exact Hin.
  assert (endpointFailureTimes (breaker s1) !! endpoint = Some t) as Ht1 by exact Ht.
  assert (global503Status s1 = false) as Hg1 by reflexivity.
  assert (pendingRequests (registry s1) !! getRequestKey endpoint options = None) as Hp1.
  { change (registry s1) with
      (registry (snd (requestInternal_resume isPublic endpoint options t answer s))).
    by rewrite Hr. }
  assert (network s1 = network s) as Hn1 by exact Hn.
  pose proof (trackApiCall_fields endpoint s1)
    as (Tg & Tc & Tm & Th & Tb & Tk & Tr & Tp & Tn).
  split; [| split].
  - intros Hle. subst r.
    assert (fst (isGlobalRequestBlocked now (trackApiCall endpoint s1)) = true) as Hb.
    { rewrite block_inside_cooldown; [done | by rewrite Tk, Hk1 |].
      rewrite Tk, Hk1. simpl. exact Hle. }
    destruct (gates_blocked isPublic' endpoint options now _ Hb) as [He Hnet].
    rewrite (call_of_gates isPublic' endpoint options now probe s1 _ Hg1 Hp1 Hne He).
    cbn [fst snd]. split; [done | congruence].
  - intros Hlo Hhi. subst r.
    assert (fst (isGlobalRequestBlocked now s1) = false) as Hb.
    { rewrite block_after_cooldown; [done | by rewrite Hk1 |].
      rewrite Hk1. simpl. unfold globalBlockCooldown in *. lia. }
    destruct (call_inside_cooldown isPublic' endpoint options now probe s1 t
                Hne Hin1 Ht1) as [Hnet Hcb]; [unfold endpointCooldown in *; lia |].
    split; [by apply Hcb | congruence].
  - intros Hgt.
    split.
    + rewrite block_after_cooldown; [done | by rewrite Hk1 |].
      rewrite Hk1. simpl. unfold globalBlockCooldown, endpointCooldown in *. lia.
    + destruct (breaker_after_cooldown now t endpoint s1 Hin1 Ht1) as [H _];
        [unfold endpointCooldown in *; lia | done].
Qed.

Lemma outage_timeline_witness :
  fst (requestInternal false ABOUT noOptions 1030020 healthy afterOutage)
  = Threw globalBlockError
  ∧ fst (requestInternal false ABOUT noOptions 1030021 healthy afterOutage)
    = Threw (circuitBreakerError ABOUT).
Proof.
  assert (ABOUT ≠ HEALTH) as Hne by discriminate.
  assert (HealthValue true ≠ HealthValue false) as Hans by discriminate.
  split.
  - destruct (outage_timeline false false ABOUT noOptions 1000020 1030020
                (HealthValue true) healthy
                (snd (runProbe unhealthy suspended)) Hne Hans eq_refl) as (H & _).
    destruct H as [H _]; [unfold globalBlockCooldown; lia | exact H].
  - destruct (outage_timeline false false ABOUT noOptions 1000020 1030021
                (HealthValue true) healthy
                (snd (runProbe unhealthy suspended)) Hne Hans eq_refl) as (_ & H & _).
    destruct H as [H _];
      [unfold globalBlockCooldown; lia | unfold endpointCooldown; lia | exact H].
Defined.

End OutageFacts.

(** ** The registry of pending requests *)

Module RegistryFacts.
Import Js ApiSW ApiDirect ApiRun ClientOps Scenario Scenario2 GateFacts BreakerFacts
       DedupFacts.

Lemma wf_init : registryWf (registry init).
Proof.
  repeat split; simpl.
  - intros key t H. by rewrite lookup_empty in H.
  - intros key p H. by rewrite lookup_empty in H.
  - intros t [x H]. by rewrite lookup_empty in H.
Qed.

(** Removing the entry of [key], with the timer [t] if one is given. *)
Lemma wf_remove (r : Registry) (key : string) (t : nat) (due : Z)
    (settles : gmap nat string) :
  registryWf r ->
  timers r !! t = Some (key, due) ->
  registryWf (mkRegistry (delete key (pendingRequests r))
                         (delete key (requestTimeouts r))
                         (delete t (timers r)) (nextTimer r) settles).
Proof.
  intros (W1 & W2 & W3) Ht. repeat split; simpl.
  - intros key' t' H. apply lookup_delete_Some in H as [Hne H].
    destruct (W1 key' t' H) as [due' Hd]. exists due'.
    rewrite lookup_delete_ne; [done |]. intros <-. congruence.
  - intros key' p H. apply lookup_delete_Some in H as [Hne H].
    rewrite lookup_delete_ne by done. by eapply W2.
  - intros t' [x H]. apply lookup_delete_Some in H as [_ H]. apply W3. by eexists.
Qed.

Lemma wf_removePendingRequest (key : string) (s : State) :
  registryWf (registry s) -> registryWf (registry (removePendingRequest key s)).
Proof.
  intros W. unfold removePendingRequest.
  destruct (requestTimeouts (registry s) !! key) as [t|] eqn:Ht; simpl.
  - destruct W as (W1 & W2 & W3). destruct (W1 key t Ht) as [due Hd].
    by apply (wf_remove _ key t due).
  - destruct W as (W1 & W2 & W3). repeat split; simpl; [done | | done].
    intros key' p H. apply lookup_delete_Some in H as [Hne H]. by eapply W2.
Qed.

Lemma wf_settle (p : nat) (s : State) :
  registryWf (registry s) -> registryWf (registry (settle p s)).
Proof.
  intros W. unfold settle. destruct (onSettle (registry s) !! p) as [key|]; [| done].
  apply (wf_removePendingRequest key) in W. simpl.
  destruct W as (W1 & W2 & W3). by repeat split.
Qed.

Lemma wf_fireTimer (now : Z) (t : nat) (s : State) :
  registryWf (registry s) -> registryWf (registry (fireTimer now t s)).
Proof.
  intros W. unfold fireTimer.
  destruct (timers (registry s) !! t) as [[key due]|] eqn:Ht; [| done].
  destruct (due <=? now)%Z; [| done]. simpl. by apply (wf_remove _ key t due).
Qed.

Lemma cleared_timers_lookup (l : list (string * nat)) (tm : gmap nat (string * Z))
    (t : nat) :
  is_Some (foldr (fun kt tm => delete (snd kt) tm) tm l !! t) -> is_Some (tm !! t).
Proof.
  induction l as [|kt l IH]; simpl; [done |].
  intros [x H]. apply lookup_delete_Some in H as [_ H]. apply IH. by eexists.
Qed.

Lemma wf_resetHealthGate (s : State) :
  registryWf (registry s) -> registryWf (registry (resetHealthGate s)).
Proof.
  intros (W1 & W2 & W3). repeat split; simpl.
  - intros key t H. by rewrite lookup_empty in H.
  - intros key p H. by rewrite lookup_empty in H.
  - intros t H. apply W3. by eapply cleared_timers_lookup.
Qed.

Lemma wf_launched (isPublic : bool) (endpoint : string) (options : RequestInit)
    (now : Z) (s : State) :
  registryWf (registry s) ->
  registryWf (registry (launched isPublic endpoint options now s)).
Proof.
  intros (W1 & W2 & W3).
  destruct (launched_fields isPublic endpoint options now s)
    as (Lp & Lt & Lm & _).
  cbv zeta in Lp, Lt, Lm.
  assert (nextTimer (registry (launched isPublic endpoint options now s))
          = S (nextTimer (registry s))) as Ln by reflexivity.
  repeat split.
  - intros key t. rewrite Lt, Lm. intros H.
    apply lookup_insert_Some in H as [[<- <-] | [Hne H]].
    + eexists. apply lookup_insert_eq.
    + destruct (W1 key t H) as [due Hd]. exists due.
      rewrite lookup_insert_ne; [done |].
      intros <-. assert (nextTimer (registry s) < nextTimer (registry s))%nat; [| lia].
      apply W3. by eexists.
  - intros key p. rewrite Lp, Lt. intros H.
    apply lookup_insert_Some in H as [[<- <-] | [Hne H]].
    + rewrite lookup_insert_eq. by eexists.
    + rewrite lookup_insert_ne by done. by eapply W2.
  - intros t. rewrite Lm, Ln. intros [x H].
    apply lookup_insert_Some in H as [[<- _] | [_ H]]; [lia |].
    assert (t < nextTimer (registry s))%nat; [| lia]. apply W3. by eexists.
Qed.

(** The gates leave the registry alone when they end in an exception. *)
Lemma gates_threw_registry (isPublic : bool) (endpoint : string)
    (options : RequestInit) (now : Z) (s0 : State) (e : Error) :
  fst (gates isPublic endpoint options now s0) = inr (Threw e) ->
  registry (snd (gates isPublic endpoint options now s0)) = registry s0.
Proof.
  unfold gates.
  pose proof (isGlobalRequestBlocked_fields now s0) as F1.
  destruct (isGlobalRequestBlocked now s0) as [blocked s1].
  simpl in F1. destruct F1 as (G1 & C1 & M1 & H1 & B1 & R1 & P1 & N1).
  destruct blocked.
  { intros _. simpl. destruct isPublic; [done |].
    pose proof (showApiFailureModal_fields now [endpoint] true None s1)
      as (_ & _ & _ & _ & _ & -> & _). done. }
  pose proof (isEndpointInCircuitBreaker_fields now endpoint s1) as F2.
  destruct (isEndpointInCircuitBreaker now endpoint s1) as [tripped s2].
  simpl in F2. destruct F2 as (G2 & C2 & M2 & H2 & K2 & R2 & P2 & N2).
  destruct tripped.
  { intros _. simpl. destruct isPublic; [congruence |].
    pose proof (showApiFailureModal_fields now [endpoint] true None s2)
      as (_ & _ & _ & _ & _ & -> & _). congruence. }
  destruct (isApiBlocked s2); [intros _; simpl; congruence |].
  pose proof (checkApiHealth_enter_fields now s2) as F3.
  destruct (checkApiHealth_enter now s2) as [[ok|] s3]; simpl in F3;
    destruct F3 as (G3 & C3 & B3 & K3 & R3 & P3 & N3); [| discriminate].
  destruct ok.
  - unfold verdict. rewrite launch_eq. discriminate.
  - intros _. destruct (verdict_failed isPublic endpoint options now s3)
      as (_ & _ & _ & _ & ->). congruence.
Qed.

(** A call leaves the registry as it was, or registers the request it
    has started. *)
Lemma call_registry (isPublic : bool) (endpoint : string) (options : RequestInit)
    (now : Z) (probe : Probe) (s : State) :
  let r := requestInternal isPublic endpoint options now probe s in
  registry (snd r) = registry s
  ∨ ∃ s' now', registry s' = registry s
               ∧ snd r = launched isPublic endpoint options now' s'.
Proof.
  intros r.
  destruct (fst r) as [e | p |] eqn:Hx.
  - left. subst r.
    pose proof (trackApiCall_fields endpoint s)
      as (Tg & Tc & Tm & Th & Tb & Tk & Tr & Tp & Tn).
    destruct (global503Status s) eqn:Hg.
    { rewrite (enter_global503 isPublic endpoint options now probe s Hg). simpl.
      pose proof (showApiFailureModal_fields now [endpoint] true None
                    (trackApiCall endpoint s)) as (_ & _ & _ & _ & _ & -> & _).
      done. }
    destruct (pendingRequests (registry s) !! getRequestKey endpoint options)
      as [q|] eqn:Hp.
    { by rewrite (enter_pending isPublic endpoint options now probe s q Hg Hp). }
    destruct (decide (endpoint = HEALTH)) as [-> | Hne].
    { exfalso. unfold requestInternal in Hx.
      rewrite (enter_health isPublic options now s Hg Hp), launch_eq in Hx.
      discriminate. }
    rewrite (call_through_gates isPublic endpoint options now probe s Hg Hp Hne) in Hx |- *.
    cbv zeta in Hx |- *.
    pose proof (gates_threw_registry isPublic endpoint options now
                  (trackApiCall endpoint s)) as GT.
    pose proof (gates_quiet isPublic endpoint options now (trackApiCall endpoint s)) as GQ.
    cbv zeta in GQ.
    destruct (gates isPublic endpoint options now (trackApiCall endpoint s)) as [x g].
    simpl in GT, GQ.
    destruct x as [[] | [e' | q |]]; [destruct GQ | | discriminate |].
    + rewrite exitOf_inr in Hx |- *. simpl. rewrite (GT e' eq_refl). done.
    + rewrite exitOf_inr in Hx |- *. cbn [snd] in Hx |- *.
      destruct GQ as (Qr & _).
      pose proof (runProbe_fields probe g) as F4.
      destruct (runProbe probe g) as [answer s4]. simpl in F4.
      destruct F4 as (_ & C4 & H4 & B4 & K4 & R4 & P4 & N4).
      pose proof (checkApiHealth_resume_fields answer s4) as F5.
      destruct (checkApiHealth_resume answer s4) as [ok s5]. simpl in F5.
      destruct F5 as (C5 & B5 & K5 & R5 & P5 & N5).
      destruct ok.
      * unfold verdict in Hx. rewrite launch_eq in Hx. discriminate.
      * destruct (verdict_failed isPublic endpoint options (now + probeElapsed probe) s5)
          as (_ & _ & _ & _ & Hr).
        cbn [snd]. rewrite Hr. congruence.
  - destruct (pendingRequests (registry s) !! getRequestKey endpoint options)
      as [q|] eqn:Hp.
    + left. subst r.
      destruct (global503Status s) eqn:Hg.
      { rewrite (enter_global503 isPublic endpoint options now probe s Hg) in Hx.
        discriminate. }
      rewrite (enter_pending isPublic endpoint options now probe s q Hg Hp). simpl.
      pose proof (trackApiCall_fields endpoint s) as F. tauto.
    + right.
      destruct (call_started isPublic endpoint options now probe s (snd r) p)
        as (s' & now' & Hs & _ & (Qr & _) & _); [| done |].
      { subst r. rewrite <- Hx. apply surjective_pairing. }
      by exists s', now'.
  - exfalso. subst r. revert Hx. unfold requestInternal.
    destruct (exitOf (requestInternal_enter isPublic endpoint options now s)) eqn:E;
      simpl; try discriminate.
    destruct (runProbe probe _) as [answer s4]. rewrite resume_verdict.
    destruct (checkApiHealth_resume answer s4) as [ok s5].
    destruct ok; unfold verdict; [by rewrite launch_eq | done].
Qed.

(** The gates, and a call up to its first await, leave the registry
    as it was or register the request they have started. *)
Lemma gates_registry (isPublic : bool) (endpoint : string) (options : RequestInit)
    (now : Z) (s0 : State) :
  let g := gates isPublic endpoint options now s0 in
  registry (snd g) = registry s0
  ∨ ∃ s', registry s' = registry s0
          ∧ snd g = launched isPublic endpoint options now s'.
Proof.
  pose proof (gates_threw_registry isPublic endpoint options now s0) as GT.
  pose proof (gates_quiet isPublic endpoint options now s0) as GQ.
  cbv zeta in GQ |- *.
  destruct (gates isPublic endpoint options now s0) as [x g]. simpl in GT, GQ |- *.
  destruct x as [[] | [e | q |]].
  - destruct GQ.
  - left. by apply (GT e).
  - right. destruct GQ as (s3 & Hs & _ & (Qr & _)). by exists s3.
  - left. by destruct GQ as (Qr & _).
Qed.

Lemma sync_registry (isPublic : bool) (endpoint : string) (options : RequestInit)
    (now : Z) (s : State) :
  let r := requestInternal_enter isPublic endpoint options now s in
  registry (snd r) = registry s
  ∨ ∃ s', registry s' = registry s
          ∧ snd r = launched isPublic endpoint options now s'.
Proof.
  intros r. subst r.
  pose proof (trackApiCall_fields endpoint s)
    as (Tg & Tc & Tm & Th & Tb & Tk & Tr & Tp & Tn).
  destruct (global503Status s) eqn:Hg.
  { left. rewrite (sync_global503 isPublic endpoint options now s Hg). cbn [snd].
    pose proof (showApiFailureModal_fields now [endpoint] true None
                  (trackApiCall endpoint s)) as (_ & _ & _ & _ & _ & -> & _).
    done. }
  destruct (pendingRequests (registry s) !! getRequestKey endpoint options)
    as [q|] eqn:Hp.
  { left. by rewrite (sync_pending isPublic endpoint options now s q Hg Hp). }
  destruct (decide (endpoint = HEALTH)) as [-> | Hne].
  { right. rewrite (enter_health isPublic options now s Hg Hp), launch_eq. cbn [snd].
    by exists (trackApiCall HEALTH s). }
  rewrite (enter_gates isPublic endpoint options now s Hg Hp Hne).
  destruct (gates_registry isPublic endpoint options now (trackApiCall endpoint s))
    as [Hr | (s' & Hr & Hs)].
  - left. congruence.
  - right. exists s'. split; [congruence | done].
Qed.

Lemma applyEffects_registry (effs : list Exec.Effect) (s : State) :
  registry (foldl applyEffect s effs) = registry s.
Proof.
  revert s. induction effs as [|eff effs IH]; intros s; simpl; [done |].
  rewrite IH. by destruct eff as [[]| |].
Qed.

Lemma wf_run (op : Op) (s : State) :
  registryWf (registry s) -> registryWf (registry (run s op)).
Proof.
  intros W. destruct op; simpl.
  - destruct (call_registry isPublic endpoint options now probe s)
      as [-> | (s' & now' & Hr & ->)]; [done |].
    apply wf_launched. by rewrite Hr.
  - destruct (sync_registry isPublic endpoint options now s)
      as [-> | (s' & Hr & ->)]; [done |].
    apply wf_launched. by rewrite Hr.
  - rewrite resume_verdict.
    pose proof (checkApiHealth_resume_fields answer s) as F.
    destruct (checkApiHealth_resume answer s) as [ok s']. simpl in F.
    destruct F as (_ & _ & _ & Hr & _).
    destruct ok.
    + unfold verdict. rewrite launch_eq. cbn [snd].
      apply wf_launched. by rewrite Hr.
    + destruct (verdict_failed isPublic endpoint options now s')
        as (_ & _ & _ & _ & ->). by rewrite Hr.
  - by destruct (runProbe_fields probe s) as (_ & _ & _ & _ & _ & -> & _).
  - by rewrite applyEffects_registry.
  - unfold complete.
    destruct (Exec.executeRequest isConnectionError is503Error f) as [out effs].
    simpl. apply wf_settle. by rewrite applyEffects_registry.
  - by apply wf_settle.
  - by apply wf_fireTimer.
  - by pose proof (showApiFailureModal_fields now failed is503 cb s)
      as (_ & _ & _ & _ & _ & -> & _).
  - done.
  - done.
  - by apply wf_resetHealthGate.
  - done.
  - by pose proof (trackApiCall_fields endpoint s) as (_ & _ & _ & _ & _ & _ & -> & _).
Qed.

Lemma wf_reachable (ops : list Op) (s : State) :
  registryWf (registry s) -> registryWf (registry (foldl run s ops)).
Proof.
  revert s. induction ops as [|op ops IH]; intros s W; simpl; [done |].
  apply IH. by apply wf_run.
Qed.

(** X6. In every state the client reaches from its initial state, each
    entry of the registry of pending requests has the handle of an armed
    timer stored under its key, and when that timer fires, at or after
    the time it is due, the entry is gone: no entry can stay forever. *)
Theorem pending_entry_has_timer (ops : list Op) (key : string) (p : nat) :
  let s := foldl run init ops in
  pendingRequests (registry s) !! key = Some p ->
  ∃ t due,
    requestTimeouts (registry s) !! key = Some t
    ∧ timers (registry s) !! t = Some (key, due)
    ∧ ∀ now, due <= now ->
        pendingRequests (registry (fireTimer now t s)) !! key = None.
Proof.
  intros s Hp.
  assert (registryWf (registry s)) as (W1 & W2 & W3)
    by apply wf_reachable, wf_init.
  destruct (W2 key p Hp) as [t Ht]. destruct (W1 key t Ht) as [due Hd].
  exists t, due. split; [done |]. split; [done |].
  intros now Hdue. unfold fireTimer. rewrite Hd.
  destruct (Z.leb_spec due now); [| lia]. simpl. apply lookup_delete_eq.
Qed.

Lemma pending_entry_has_timer_witness :
  ∃ t due,
    requestTimeouts (registry secondInFlight) !! getRequestKey ABOUT noOptions = Some t
    ∧ timers (registry secondInFlight) !! t = Some (getRequestKey ABOUT noOptions, due).
Proof.
  destruct (pending_entry_has_timer
              [OpCall false ABOUT noOptions 1000000 healthy;
               OpFireTimer 1030020 1;
               OpCall false ABOUT noOptions 1031000 healthy]
              (getRequestKey ABOUT noOptions) 1 eq_refl)
    as (t & due & Ht & Hd & _).
  exists t, due. split; [exact Ht | exact Hd].
Defined.

(** [checkApiHealth] never answers that the API is up without asking:
    before its await it can only fail. *)
Lemma checkApiHealth_enter_not_up (now : Z) (s : State) :
  fst (checkApiHealth_enter now s) ≠ HealthDone true.
Proof.
  unfold checkApiHealth_enter.
  destruct (apiIsDown (health s)).
  - destruct (_ <? _)%Z; [done |]. simpl.
    by destruct (healthCheckInProgress (health s)).
  - by destruct (healthCheckInProgress (health s)).
Qed.

Lemma gates_not_returned (isPublic : bool) (endpoint : string) (options : RequestInit)
    (now : Z) (s0 : State) (q : nat) :
  fst (gates isPublic endpoint options now s0) ≠ inr (Returned q).
Proof.
  unfold gates.
  destruct (isGlobalRequestBlocked now s0) as [blocked s1].
  destruct blocked; [done |].
  destruct (isEndpointInCircuitBreaker now endpoint s1) as [tripped s2].
  destruct tripped; [done |].
  destruct (isApiBlocked s2); [done |].
  pose proof (checkApiHealth_enter_not_up now s2) as H.
  destruct (checkApiHealth_enter now s2) as [[[]|] s3]; simpl in H; done.
Qed.

(** X7. When a promise settles, its [finally] callback removes whatever
    entry the registry holds under the key the promise was registered
    with, and clears that entry's timer, also when the entry belongs to
    a later request.  A call with that key that follows is therefore
    handed no promise at its entry, although the later request may still
    be in flight: for the health endpoint it starts a request at once,
    for any other it goes through the gates, to start a request of its
    own when the health check answers that the API is up. *)
Theorem settle_removes_by_key (p : nat) (key : string) (s : State) :
  onSettle (registry s) !! p = Some key ->
  pendingRequests (registry (settle p s)) !! key = None
  ∧ requestTimeouts (registry (settle p s)) !! key = None
  ∧ (∀ t, requestTimeouts (registry s) !! key = Some t ->
          timers (registry (settle p s)) !! t = None)
  ∧ (∀ isPublic endpoint options now,
       getRequestKey endpoint options = key ->
       global503Status s = false ->
       let r := requestInternal_enter isPublic endpoint options now (settle p s) in
       (endpoint = HEALTH ->
          exitOf r = Returned (nextPromise s)
          ∧ network (snd r)
            = (network s ++ [RequestStarted isPublic endpoint (nextPromise s)])%list)
       ∧ (endpoint ≠ HEALTH ->
          r = gates isPublic endpoint options now (trackApiCall endpoint (settle p s))
          ∧ ∀ q, exitOf r ≠ Returned q)).
Proof.
  intros Hs.
  assert (pendingRequests (registry (settle p s)) !! key = None) as Hnone.
  { unfold settle. rewrite Hs. unfold removePendingRequest.
    destruct (requestTimeouts (registry s) !! key); simpl; apply lookup_delete_eq. }
  split; [done |]. split; [| split].
  - unfold settle. rewrite Hs. unfold removePendingRequest.
    destruct (requestTimeouts (registry s) !! key) as [t|] eqn:Ht; simpl;
      [apply lookup_delete_eq | done].
  - unfold settle. rewrite Hs. unfold removePendingRequest.
    destruct (requestTimeouts (registry s) !! key) as [t|] eqn:Ht; simpl.
    + intros t' [= <-]. apply lookup_delete_eq.
    + intros t' Hc. discriminate.
  - intros isPublic endpoint options now Hkey Hg r. subst r.
    assert (global503Status (settle p s) = false
            ∧ network (settle p s) = network s
            ∧ nextPromise (settle p s) = nextPromise s) as (Hg' & Hn' & Hp').
    { unfold settle. rewrite Hs. unfold removePendingRequest.
      by destruct (requestTimeouts (registry s) !! key). }
    rewrite <- Hkey in Hnone.
    split.
    + intros ->.
      rewrite (enter_health isPublic options now (settle p s) Hg' Hnone),
        launch_eq, exitOf_inr.
      cbn [snd].
      destruct (launched_fields isPublic HEALTH options now
                  (trackApiCall HEALTH (settle p s)))
        as (_ & _ & _ & _ & Ln & _).
      rewrite Ln.
      destruct (trackApiCall_fields HEALTH (settle p s))
        as (_ & _ & _ & _ & _ & _ & _ & -> & ->).
      by rewrite Hn', Hp'.
    + intros Hne.
      rewrite (enter_gates isPublic endpoint options now (settle p s) Hg' Hnone Hne).
      split; [done |]. intros q Hq.
      apply (gates_not_returned isPublic endpoint options now
               (trackApiCall endpoint (settle p s)) q).
      unfold exitOf in Hq.
      destruct (fst (gates isPublic endpoint options now
                       (trackApiCall endpoint (settle p s)))) as [[]|x];
        [discriminate | by rewrite Hq].
Qed.

Lemma settle_removes_by_key_witness :
  pendingRequests (registry publicSecond) !! getRequestKey ABOUT noOptions = Some 1%nat
  ∧ pendingRequests (registry publicFirstSettlesLate) !! getRequestKey ABOUT noOptions
    = None
  ∧ exitOf (requestInternal_enter true ABOUT noOptions 1032000 publicFirstSettlesLate)
    = AwaitHealth
  ∧ exitOf (requestInternal_resume true ABOUT noOptions 1032020 (HealthValue false)
              publicThird) = Returned 2%nat
  ∧ network (snd (requestInternal_resume true ABOUT noOptions 1032020
                    (HealthValue false) publicThird))
    = [HealthRequest; RequestStarted true ABOUT 0; HealthRequest;
       RequestStarted true ABOUT 1; HealthRequest; RequestStarted true ABOUT 2].
Proof.
  split; [reflexivity |].
  destruct (settle_removes_by_key 0 (getRequestKey ABOUT noOptions) publicSecond
              eq_refl) as (Hnone & _ & _ & Hnext).
  split; [exact Hnone |].
  destruct (Hnext true ABOUT noOptions 1032000 eq_refl eq_refl) as [_ Hgates].
  destruct (Hgates ltac:(discriminate)) as [Heq _].
  split; [| split; reflexivity].
  change publicFirstSettlesLate with (settle 0 publicSecond).
  rewrite Heq. reflexivity.
Defined.

End RegistryFacts.

(** ** Tracking, error log and modal props *)

Module TrackingFacts.
Import Js ApiSW Tracking HealthCache Scenario Scenario2 NotifierFacts.

(** [Array.from(new Set(xs))] needs of the elements seen only which
    they are. *)
Lemma arrayFromSet_ext (xs seen seen' : list string) :
  (∀ x, x ∈ seen <-> x ∈ seen') -> arrayFromSet seen xs = arrayFromSet seen' xs.
Proof.
  revert seen seen'. induction xs as [|y ys IH]; intros seen seen' Hs; simpl; [done |].
  assert (existsb (String.eqb y) seen = existsb (String.eqb y) seen') as ->.
  { apply Bool.eq_true_iff_eq. by rewrite !existsb_eqb_elem. }
  destruct (existsb (String.eqb y) seen'); [by apply IH |].
  f_equal. apply IH. intros x. rewrite !elem_of_cons. by rewrite Hs.
Qed.

Lemma preTrack_calls (routes : list string) (s : State) :
  pageApiCalls (preTrackRoutesMiddleware routes s)
  = (pageApiCalls s ++ arrayFromSet (pageApiCalls s) routes)%list.
Proof.
  unfold preTrackRoutesMiddleware. revert s.
  induction routes as [|r rs IH]; intros s; simpl; [by rewrite app_nil_r |].
  rewrite IH. unfold trackApiCall.
  destruct (existsb (String.eqb r) (pageApiCalls s)) eqn:E; [done |].
  simpl. rewrite <- app_assoc. simpl. do 2 f_equal.
  apply arrayFromSet_ext. intros x. rewrite elem_of_app, !elem_of_cons.
  pose proof (elem_of_nil x). tauto.
Qed.

(** The guard of [withHealthCheck] repeats the one of [trackApiCall]. *)
Lemma trackUnlessTracked_eq (s : State) (route : string) :
  trackUnlessTracked s route = trackApiCall route s.
Proof.
  unfold trackUnlessTracked, trackApiCall.
  by destruct (existsb (String.eqb route) (pageApiCalls s)).
Qed.

Lemma foldl_trackUnlessTracked (routes : list string) (s : State) :
  foldl trackUnlessTracked s routes = preTrackRoutesMiddleware routes s.
Proof.
  unfold preTrackRoutesMiddleware. revert s.
  induction routes as [|r rs IH]; intros s; simpl; [done |].
  by rewrite trackUnlessTracked_eq, IH.
Qed.

(** X8. Tracking a list of routes appends to the tracked calls the
    routes that were not tracked yet, each once, in the order of their
    first occurrence, as [Array.from(new Set(...))] orders the endpoints
    of the modal; on a page just started the tracked calls are exactly
    the distinct routes; a list without duplicates stays so. *)
Theorem pretrack_appends_distinct_routes (routes : list string) (s : State) :
  pageApiCalls (preTrackRoutesMiddleware routes s)
  = (pageApiCalls s ++ arrayFromSet (pageApiCalls s) routes)%list
  ∧ pageApiCalls (preTrackRoutesMiddleware routes (startPageTracking s))
    = arrayFromSet [] routes
  ∧ (∀ r, r ∈ pageApiCalls (preTrackRoutesMiddleware routes s)
          <-> r ∈ pageApiCalls s ∨ r ∈ routes)
  ∧ (NoDup (pageApiCalls s) -> NoDup (pageApiCalls (preTrackRoutesMiddleware routes s))).
Proof.
  split; [apply preTrack_calls |]. split; [by rewrite preTrack_calls |].
  rewrite preTrack_calls. split.
  - intros r. rewrite elem_of_app, arrayFromSet_elem.
    destruct (decide (r ∈ pageApiCalls s)); tauto.
  - intros Hn. apply NoDup_app. split; [done |]. split; [| apply arrayFromSet_NoDup].
    intros x Hx. rewrite arrayFromSet_elem. tauto.
Qed.

Lemma pretrack_appends_distinct_routes_witness :
  NoDup (pageApiCalls (preTrackRoutesMiddleware pageRoutes inFlight)).
Proof.
  apply (pretrack_appends_distinct_routes pageRoutes inFlight).
  apply (bool_decide_eq_true_1 (NoDup (pageApiCalls inFlight))). reflexivity.
Defined.

(** X9. [logError] appends the entry; a log of at most 100 entries stays
    one: at 100 entries the oldest is dropped.  The entry just logged is
    always the last. *)
Theorem error_log_keeps_last_100 (now : Z) (endpoint : string) (error : Error)
    (statusCode : option Z) (is503Error isConnectionError : bool)
    (currentPageName : string) (errorLog : list LogEntry) :
  (length errorLog <= 100)%nat ->
  let errorEntry := mkLogEntry now endpoint (e_message error) statusCode is503Error
                      isConnectionError currentPageName in
  let log' := logError now endpoint error statusCode is503Error isConnectionError
                currentPageName errorLog in
  (length log' <= 100)%nat
  ∧ last log' = Some errorEntry
  ∧ ((length errorLog < 100)%nat -> log' = (errorLog ++ [errorEntry])%list)
  ∧ (length errorLog = 100%nat -> log' = (drop 1 errorLog ++ [errorEntry])%list).
Proof.
  intros Hlen errorEntry log'.
  assert (length (errorLog ++ [errorEntry]) = S (length errorLog)) as Hpush
    by (rewrite length_app; simpl; lia).
  assert ((length errorLog < 100)%nat -> log' = (errorLog ++ [errorEntry])%list) as Hlt.
  { intros H. subst log'. unfold logError. fold errorEntry. cbv zeta. rewrite Hpush.
    destruct (Nat.ltb_spec 100 (S (length errorLog))); [lia | done]. }
  assert (length errorLog = 100%nat -> log' = (drop 1 errorLog ++ [errorEntry])%list)
    as Heq.
  { intros H. subst log'. unfold logError. fold errorEntry. cbv zeta. rewrite Hpush.
    destruct (Nat.ltb_spec 100 (S (length errorLog))); [| lia].
    unfold sliceLast. rewrite Hpush, H. simpl.
    destruct errorLog; [discriminate | done]. }
  split; [| split; [| done]].
  - destruct (decide (length errorLog = 100%nat)) as [H | H].
    + rewrite (Heq H), length_app, length_drop. simpl. lia.
    + rewrite Hlt by lia. lia.
  - destruct (decide (length errorLog = 100%nat)) as [H | H].
    + rewrite (Heq H). apply last_snoc.
    + rewrite Hlt by lia. apply last_snoc.
Qed.

Lemma error_log_keeps_last_100_witness :
  length (logError 101 "/v0/about" (newError "HTTP 500: Internal Server Error") None
            false false "home" fullLog) = 100%nat
  ∧ head (logError 101 "/v0/about" (newError "HTTP 500: Internal Server Error") None
            false false "home" fullLog) = Some (entry 2).
Proof.
  destruct (error_log_keeps_last_100 101 "/v0/about"
              (newError "HTTP 500: Internal Server Error") None false false "home"
              fullLog) as (_ & _ & _ & H); [by vm_compute |].
  rewrite (H eq_refl). split; reflexivity.
Defined.

(** X10. The [onClose] of the modal props hides the modal before it
    looks for the callback given to [showApiFailureModal]: it finds
    none, whatever was registered, and no callback is invoked. *)
Theorem registered_callback_never_invoked (now : Z) (failed : list string)
    (is503 : bool) (cb : option nat) (s : State) :
  let shown := showApiFailureModal now failed is503 cb s in
  fst (propsOnClose shown) = None
  ∧ getModalState (snd (propsOnClose shown)) = hiddenModal
  ∧ lastModalShowTime (modal (snd (propsOnClose shown)))
    = lastModalShowTime (modal shown).
Proof. done. Qed.

End TrackingFacts.

(** ** The cached health verdict *)

Module HealthCacheFacts.
Import Js ApiSW Tracking HealthCache Scenario Scenario2 NotifierFacts GateFacts
       TrackingFacts.

Lemma runProbe_answer (probe : Probe) (s : State) :
  fst (runProbe probe s) = probeAnswer probe.
Proof. by destruct probe. Qed.

(** A verdict younger than 30 s is handed out as it is. *)
Lemma cache_hit (now : Z) (probe : Probe) (c : Cache) (s : State) :
  healthStatus c ≠ Unknown ->
  now - healthCheckTime c < HEALTH_CHECK_CACHE_DURATION ->
  checkHealthWithCache now probe c s
  = (match healthStatus c with Healthy => true | _ => false end, c, s).
Proof.
  intros Hk Hlt. unfold checkHealthWithCache.
  destruct (Z.ltb_spec (now - healthCheckTime c) HEALTH_CHECK_CACHE_DURATION); [| lia].
  by destruct (healthStatus c).
Qed.

Lemma cache_miss (now : Z) (probe : Probe) (c : Cache) (s : State) :
  healthStatus c = Unknown ∨ HEALTH_CHECK_CACHE_DURATION <= now - healthCheckTime c ->
  checkHealthWithCache now probe c s
  = match probeAnswer probe with
    | HealthValue _ => (true, mkCache Healthy now, snd (runProbe probe s))
    | HealthThrew =>
        (false, mkCache Unhealthy now, trackApiCall HEALTH (snd (runProbe probe s)))
    end.
Proof.
  intros Hs. unfold checkHealthWithCache.
  assert (((match healthStatus c with Unknown => false | _ => true end)
           && (now - healthCheckTime c <? HEALTH_CHECK_CACHE_DURATION)%Z)%bool = false)
    as ->.
  { destruct Hs as [-> | Hge]; [done |].
    destruct (Z.ltb_spec (now - healthCheckTime c) HEALTH_CHECK_CACHE_DURATION); [lia |].
    apply andb_false_r. }
  rewrite <- (runProbe_answer probe s). by destruct (runProbe probe s) as [[] ?].
Qed.

(** X11. When the cached verdict is unknown or 30 s old,
    [checkHealthWithCache] calls [checkHealth]: the verdict is unhealthy
    exactly when that call throws, and it is stored with the time of the
    check; for the next 30 s the stored verdict is returned without a
    call and without any change of the client. *)
Theorem cached_health_verdict (now : Z) (probe : Probe) (c : Cache) (s : State) :
  healthStatus c = Unknown ∨ HEALTH_CHECK_CACHE_DURATION <= now - healthCheckTime c ->
  let r := checkHealthWithCache now probe c s in
  let v := fst (fst r) in
  let c' := snd (fst r) in
  v = match probeAnswer probe with HealthThrew => false | HealthValue _ => true end
  ∧ c' = mkCache (if v then Healthy else Unhealthy) now
  ∧ (∀ now' probe' s', now' - now < HEALTH_CHECK_CACHE_DURATION ->
       checkHealthWithCache now' probe' c' s' = (v, c', s')).
Proof.
  intros Hs r v c'. subst v c' r. rewrite (cache_miss now probe c s Hs).
  destruct (probeAnswer probe); simpl.
  - split; [done |]. split; [done |]. intros now' probe' s' Hlt.
    by rewrite cache_hit.
  - split; [done |]. split; [done |]. intros now' probe' s' Hlt.
    by rewrite cache_hit.
Qed.

Lemma cached_health_verdict_witness :
  checkHealthWithCache 1029999 healthy
    (snd (fst (checkHealthWithCache 1000000 throwing initCache init))) init
  = (false, mkCache Unhealthy 1000000, init).
Proof.
  destruct (cached_health_verdict 1000000 throwing initCache init (or_introl eq_refl))
    as (_ & _ & H).
  apply (H 1029999 healthy init). reflexivity.
Defined.

(** X12. The two health checks of the client disagree on an answer of
    [checkHealth] that carries an error, as the one it returns instead
    of throwing when the backend answers 503: [checkApiHealth] takes the
    backend for down, [checkHealthWithCache] for healthy, so that
    [withHealthCheck] runs the API call and hands on its outcome. *)
Theorem health_middleware_accepts_error_answer (now show : Z) (probe : Probe)
    (endpoint : string) (apiCall : State -> Outcome Json * State)
    (allRoutes : list string) (c : Cache) (s : State) :
  healthStatus c = Unknown ∨ HEALTH_CHECK_CACHE_DURATION <= now - healthCheckTime c ->
  probeAnswer probe = HealthValue true ->
  let s1 := snd (runProbe probe s) in
  withHealthCheck now show probe endpoint apiCall allRoutes c s
  = (fst (apiCall s1), mkCache Healthy now, snd (apiCall s1))
  ∧ (∀ s2, fst (checkApiHealth_resume (probeAnswer probe) s2) = false).
Proof.
  intros Hs Ha s1. split.
  - unfold withHealthCheck. rewrite (cache_miss now probe c s Hs), Ha. simpl.
    fold s1. by destruct (apiCall s1).
  - intros s2. by rewrite Ha.
Qed.

Lemma health_middleware_accepts_error_answer_witness :
  fst (fst (withHealthCheck 1000000 1000020 unhealthy ABOUT
              (fun s => (Resolved aboutData, s)) [ABOUT] initCache init))
  = Resolved aboutData.
Proof.
  destruct (health_middleware_accepts_error_answer 1000000 1000020 unhealthy ABOUT
              (fun s => (Resolved aboutData, s)) [ABOUT] initCache init
              (or_introl eq_refl) eq_refl) as [H _].
  rewrite H. reflexivity.
Defined.

(** X13. When [checkHealth] throws, [withHealthCheck] rejects with the
    health-check error and never runs the API call; the health endpoint
    and every route listed are tracked afterwards, and the modal, if it
    may be shown, lists the health endpoint first and then the distinct
    routes. *)
Theorem failed_health_check_skips_call (now show : Z) (probe : Probe)
    (endpoint : string) (apiCall apiCall' : State -> Outcome Json * State)
    (allRoutes : list string) (c : Cache) (s : State) :
  healthStatus c = Unknown ∨ HEALTH_CHECK_CACHE_DURATION <= now - healthCheckTime c ->
  probeAnswer probe = HealthThrew ->
  let r := withHealthCheck now show probe endpoint apiCall allRoutes c s in
  fst (fst r) = Rejected (healthCheckFailedError endpoint)
  ∧ r = withHealthCheck now show probe endpoint apiCall' allRoutes c s
  ∧ (∀ route, route = HEALTH ∨ route ∈ allRoutes -> route ∈ pageApiCalls (snd r))
  ∧ (isVisible (getModalState (snd (runProbe probe s))) = false ->
     modalCooldown <= show - lastModalShowTime (modal (snd (runProbe probe s))) ->
     getModalState (snd r)
     = mkModalState true (HEALTH :: arrayFromSet [HEALTH] allRoutes) true None).
Proof.
  intros Hs Ha r. subst r. unfold withHealthCheck.
  rewrite !(cache_miss now _ c s Hs), Ha. cbn [negb fst snd].
  rewrite foldl_trackUnlessTracked.
  set (s1 := trackApiCall HEALTH (snd (runProbe probe s))).
  split; [done |]. split; [done |]. split.
  - intros route Hr.
    assert (pageApiCalls
              (showApiFailureModal show (HEALTH :: allRoutes) true None
                 (preTrackRoutesMiddleware allRoutes s1))
            = pageApiCalls (preTrackRoutesMiddleware allRoutes s1)) as ->.
    { unfold showApiFailureModal.
      destruct (isVisible _); [done |]. by destruct (_ <? _)%Z. }
    rewrite preTrack_calls, elem_of_app, arrayFromSet_elem.
    assert (HEALTH ∈ pageApiCalls s1) as Hh.
    { subst s1. unfold trackApiCall.
      destruct (existsb (String.eqb HEALTH) (pageApiCalls _)) eqn:E.
      - by apply existsb_eqb_elem.
      - simpl. rewrite elem_of_app, elem_of_cons. by right; left. }
    destruct Hr as [-> | Hr]; [by left |].
    destruct (decide (route ∈ pageApiCalls s1)); tauto.
  - intros Hv Hc.
    assert (modal (preTrackRoutesMiddleware allRoutes s1)
            = modal (snd (runProbe probe s))) as Hm.
    { unfold preTrackRoutesMiddleware. subst s1.
      generalize (trackApiCall_fields HEALTH (snd (runProbe probe s))).
      intros (_ & _ & <- & _).
      generalize (trackApiCall HEALTH (snd (runProbe probe s))).
      induction allRoutes as [|a l IH]; intros s0; simpl; [done |].
      rewrite IH. by destruct (trackApiCall_fields a s0) as (_ & _ & -> & _). }
    unfold getModalState, showApiFailureModal. rewrite Hm.
    unfold getModalState in Hv. rewrite Hv.
    destruct (Z.ltb_spec (show - lastModalShowTime (modal (snd (runProbe probe s))))
                modalCooldown); [lia |].
    simpl. done.
Qed.

Lemma failed_health_check_skips_call_witness :
  fst (fst (withHealthCheck 1000000 1000020 throwing ABOUT
              (fun s => (Resolved aboutData, s)) pageRoutes initCache init))
  = Rejected (healthCheckFailedError ABOUT)
  ∧ m_failedEndpoints
      (getModalState (snd (withHealthCheck 1000000 1000020 throwing ABOUT
                             (fun s => (Resolved aboutData, s)) pageRoutes
                             initCache init)))
    = [HEALTH; "/v0/nav"; "/v0/services"; "/v0/reviews"; "/v0/about"].
Proof.
  destruct (failed_health_check_skips_call 1000000 1000020 throwing ABOUT
              (fun s => (Resolved aboutData, s)) (fun s => (Resolved aboutData, s))
              pageRoutes initCache init (or_introl eq_refl) eq_refl)
    as (H1 & _ & _ & H2).
  split; [exact H1 |]. rewrite H2; [reflexivity | reflexivity |].
  unfold modalCooldown. simpl. lia.
Defined.

End HealthCacheFacts.

(** ** Retries in the request pipeline *)

Module PipelineFacts.
Import Js Retry Exec Pipeline Scenario Scenario2 RetryFacts.

Section Loop.
Context {T : Type}.
Variable isConnectionError : Error -> bool.
Variable fn : nat -> Outcome T.
Variable random : nat -> Q.
Variable maxR : nat.

(** The loop returns the first result. *)
Lemma loop_succeeds (remaining attempt k : nat) (lastError : option Error) (v : T) :
  (attempt + S remaining = S maxR)%nat ->
  (attempt <= k <= maxR)%nat ->
  (∀ i, (attempt <= i < k)%nat -> failsRetryably isConnectionError fn i) ->
  fn k = Resolved v ->
  ∃ evs,
    loop isConnectionError fn random maxR (S remaining) attempt lastError
    = (Resolved v, evs)
    ∧ attempts evs = S (k - attempt)
    ∧ delays evs = map (fun n => backoffDelay n (random n)) (seq attempt (k - attempt)).
Proof.
  revert attempt lastError.
  induction remaining as [|remaining IH]; intros attempt lastError Hsum Hk Hfail Hv.
  - assert (attempt = k) as -> by lia.
    exists [Attempt k]. rewrite loop_unfold, Hv. simpl. by rewrite Nat.sub_diag.
  - destruct (decide (attempt = k)) as [-> | Hne].
    + exists [Attempt k]. rewrite loop_unfold, Hv. simpl. by rewrite Nat.sub_diag.
    + destruct (Hfail attempt) as (e' & He' & Hr'); [lia |].
      destruct (IH (S attempt) (Some e')) as (evs & Hloop & Hatt & Hdel);
        [lia | lia | intros i Hi; apply Hfail; lia | done |].
      exists (Attempt attempt :: Sleep (backoffDelay attempt (random attempt)) :: evs).
      rewrite loop_unfold, He', Hr'.
      assert (Nat.eqb attempt maxR = false) as -> by (apply Nat.eqb_neq; lia).
      cbn [negb orb]. rewrite Hloop. simpl. rewrite Hatt, Hdel.
      replace (k - attempt)%nat with (S (k - S attempt)) by lia. done.
Qed.

End Loop.

(** X14. When the first [k] attempts of a retried operation fail with
    retryable errors and attempt [k], one of the four, succeeds, the
    result of that attempt is returned after [k + 1] calls and the [k]
    delays in between; no further call is made. *)
Theorem retry_returns_first_success {T : Type} (isConnectionError : Error -> bool)
    (fn : nat -> Outcome T) (random : nat -> Q) (k : nat) (v : T) :
  (k <= maxRetries)%nat ->
  (∀ i, (i < k)%nat -> failsRetryably isConnectionError fn i) ->
  fn k = Resolved v ->
  ∃ evs,
    retryWithBackoff isConnectionError fn random maxRetries = (Resolved v, evs)
    ∧ attempts evs = S k
    ∧ delays evs = delaysUpTo random k.
Proof.
  intros Hk Hfail Hv.
  destruct (loop_succeeds isConnectionError fn random maxRetries maxRetries 0 k None v)
    as (evs & Hloop & Hatt & Hdel);
    [done | lia | intros i Hi; apply Hfail; lia | done |].
  exists evs. unfold retryWithBackoff, delaysUpTo.
  rewrite Nat.sub_0_r in Hatt, Hdel. done.
Qed.

Lemma retry_returns_first_success_witness :
  ∃ evs,
    retryWithBackoff noConnectionError recovers halfJitter maxRetries
    = (Resolved aboutData, evs)
    ∧ attempts evs = 3%nat.
Proof.
  destruct (retry_returns_first_success noConnectionError recovers halfJitter 2 aboutData)
    as (evs & H & Ha & _).
  - unfold maxRetries. lia.
  - intros i Hi. exists gatewayTimeout. split; [| reflexivity].
    unfold recovers. by destruct (Nat.ltb_spec i 2); [| lia].
  - reflexivity.
  - exists evs. split; [exact H | exact Ha].
Defined.

Lemma not_ok_503 (r : Response) : status r = 503 -> ok r = false.
Proof. intros H. unfold ok. by rewrite H. Qed.

Lemma tryFetch_response (r : Response) :
  ∃ r', tryFetch (FetchResponse r) = Resolved r'
        ∧ (r' = r ∨ ∃ payload, r' = mockResponse payload).
Proof.
  unfold tryFetch. destruct (_ || _)%bool; eexists; split; eauto.
Qed.

Lemma executeRequest_catch_no_status (isConnectionError is503Error : Error -> bool)
    (error e : Error) (effs effs' : list Effect) :
  e_statusCode error = None ->
  executeRequest_catch isConnectionError is503Error error effs = (Rejected e, effs') ->
  e_statusCode e = None.
Proof.
  intros Hn. unfold executeRequest_catch.
  destruct (isConnectionError error); [by intros [= <- _] |].
  destruct (is503Error error); [discriminate |]. by intros [= <- _].
Qed.

(** X15. The status codes of the retry table never meet an HTTP answer.
    An answer with status 503 and a JSON body, also the one made up for
    a redirect or for a failed connection, resolves, so that even a
    critical endpoint is asked once and no delay is slept; and when an
    HTTP answer does make [executeRequest] reject, the error carries no
    status code, so that it is retried only for its message or as a
    connection error. *)
Theorem status_codes_never_retried (isConnectionError is503Error : Error -> bool) :
  (∀ (endpoint : string) (fetches : nat -> FetchResult) (random : nat -> Q)
     (r : Response) (data : Json),
     tryFetch (fetches 0%nat) = Resolved r ->
     status r = 503 ->
     r_body r = Some data ->
     executeRequestWithRetry isConnectionError is503Error endpoint fetches random
     = (Resolved data, [Attempt 0]))
  ∧ (∀ (r : Response) (e : Error) (effs : list Effect),
       executeRequest isConnectionError is503Error (FetchResponse r) = (Rejected e, effs) ->
       e_statusCode e = None
       ∧ isRetryableError isConnectionError e
         = (hasRetryableMessage e || isConnectionError e)%bool).
Proof.
  split.
  - intros endpoint fetches random r data Hf Hs Hb.
    assert (fst (executeRequest isConnectionError is503Error (fetches 0%nat))
            = Resolved data) as Hx.
    { unfold executeRequest. rewrite Hf, (not_ok_503 r Hs), Hs, Hb. done. }
    unfold executeRequestWithRetry.
    destruct (shouldRetryEndpoint endpoint); [| by rewrite Hx].
    unfold retryWithBackoff. by rewrite loop_unfold, Hx.
  - intros r e effs Hx.
    assert (e_statusCode e = None) as Hn.
    { revert Hx. unfold executeRequest.
      destruct (tryFetch_response r) as (r' & -> & _).
      destruct (ok r').
      - destruct (r_body r'); [discriminate |].
        by apply executeRequest_catch_no_status.
      - destruct (status r' =? 503)%Z.
        + destruct (r_body r'); [discriminate |].
          by apply executeRequest_catch_no_status.
        + destruct (handleErrorResponse r') as [msg effs0].
          by apply executeRequest_catch_no_status. }
    split; [done |]. unfold isRetryableError, hasRetryableStatus. rewrite Hn.
    destruct (instanceofError e) eqn:Hi; simpl; [by rewrite orb_false_r |].
    revert Hx Hi. unfold executeRequest.
    destruct (tryFetch_response r) as (r' & -> & _).
    assert (∀ error effs0,
              executeRequest_catch isConnectionError is503Error error effs0
              = (Rejected e, effs) ->
              instanceofError error = true ->
              instanceofError e = false -> False) as Hc.
    { intros error effs0 Hcatch Hie. revert Hcatch. unfold executeRequest_catch.
      destruct (isConnectionError error); [by intros [= <- _] |].
      destruct (is503Error error); [discriminate |]. intros [= <- _]. congruence. }
    destruct (ok r').
    + destruct (r_body r'); [discriminate |]. intros H1 H2. by destruct (Hc _ _ H1 eq_refl H2).
    + destruct (status r' =? 503)%Z.
      * destruct (r_body r'); [discriminate |].
        intros H1 H2. by destruct (Hc _ _ H1 eq_refl H2).
      * destruct (handleErrorResponse r') as [msg effs0].
        intros H1 H2. by destruct (Hc _ _ H1 eq_refl H2).
Qed.

Lemma status_codes_never_retried_witness :
  executeRequestWithRetry noConnectionError no503Error "/v0/services"
    (fun _ => plain503) halfJitter
  = (Resolved (JObj [("detail", JStr "maintenance")]), [Attempt 0])
  ∧ isRetryableError noConnectionError (newError "HTTP 502: Bad Gateway") = false.
Proof.
  destruct (status_codes_never_retried noConnectionError no503Error) as [H1 H2].
  split.
  - apply (H1 "/v0/services" (fun _ => plain503) halfJitter
             (mkResponse false 503 "Service Unavailable" "https://api.example/v0/about"
                (Some (JObj [("detail", JStr "maintenance")])))).
    + reflexivity.
    + reflexivity.
    + reflexivity.
  - destruct (H2 response502 (newError "HTTP 502: Bad Gateway") [] eq_refl) as [_ Hr].
    rewrite Hr. reflexivity.
Defined.

End PipelineFacts.

(** ** The second registry and its throttle *)

Module ThrottleFacts.
Import Js ApiSW Scenario Scenario2.

(** X16. A request that is let through at [t] starts a window of
    1000 ms for its endpoint, whatever the method and the body: a
    request inside the window is delayed, not refused, and leaves the
    window where it is; the first request at or after [t + 1000] is let
    through and starts the next window. *)
Theorem throttle_window (t : Z) (endpoint : string) (options : RequestInit)
    (st : Inner) :
  innerPending st !! getRequestKey endpoint options = None ->
  MIN_REQUEST_INTERVAL <= t - default 0 (requestTimestamps st !! endpoint) ->
  let st1 := snd (executeRequestWithDeduplication_enter t endpoint options st) in
  fst (executeRequestWithDeduplication_enter t endpoint options st) = FetchNow
  ∧ requestTimestamps st1 !! endpoint = Some t
  ∧ innerPending st1 = innerPending st
  ∧ (∀ now options',
       innerPending st !! getRequestKey endpoint options' = None ->
       (now - t < MIN_REQUEST_INTERVAL ->
          executeRequestWithDeduplication_enter now endpoint options' st1
          = (FetchLater, st1))
       ∧ (MIN_REQUEST_INTERVAL <= now - t ->
          fst (executeRequestWithDeduplication_enter now endpoint options' st1)
          = FetchNow
          ∧ requestTimestamps
              (snd (executeRequestWithDeduplication_enter now endpoint options' st1))
            !! endpoint = Some now)).
Proof.
  intros Hp Hge st1.
  assert (executeRequestWithDeduplication_enter t endpoint options st
          = (FetchNow, mkInner (innerPending st)
                               (<[endpoint := t]> (requestTimestamps st)))) as He.
  { unfold executeRequestWithDeduplication_enter, shouldThrottleRequest.
    rewrite Hp. cbv zeta.
    by destruct (Z.ltb_spec (t - default 0 (requestTimestamps st !! endpoint))
                   MIN_REQUEST_INTERVAL); [lia |]. }
  subst st1. rewrite He. cbn [fst snd].
  split; [done |]. split; [apply lookup_insert_eq |]. split; [done |].
  intros now options' Hp'.
  unfold executeRequestWithDeduplication_enter, shouldThrottleRequest.
  cbn [innerPending requestTimestamps]. rewrite Hp', lookup_insert_eq. cbn [default].
  change (id t) with t.
  split; intros Hnow.
  - by destruct (Z.ltb_spec (now - t) MIN_REQUEST_INTERVAL); [| lia].
  - destruct (Z.ltb_spec (now - t) MIN_REQUEST_INTERVAL); [lia |].
    split; [done |]. apply lookup_insert_eq.
Qed.

Lemma throttle_window_witness :
  executeRequestWithDeduplication_enter 1000999 ABOUT (mkInit (Some "POST") None)
    innerAfterFirst
  = (FetchLater, innerAfterFirst).
Proof.
  destruct (throttle_window 1000000 ABOUT noOptions (mkInner ∅ ∅)) as (_ & _ & _ & H).
  - reflexivity.
  - cbn [requestTimestamps]. rewrite lookup_empty. unfold MIN_REQUEST_INTERVAL.
    cbn [default]. unfold id. lia.
  - destruct (H 1000999 (mkInit (Some "POST") None)) as [Hin _]; [reflexivity |].
    apply Hin. unfold MIN_REQUEST_INTERVAL. lia.
Defined.

End ThrottleFacts.

(** ** Middleware *)

Module MiddlewareFacts.
Import Js ApiSW Middleware Scenario Scenario2 GateFacts.

Lemma consentError_is_consent : isConsentError consentError = true.
Proof. reflexivity. Qed.

Lemma consentError_is_503 : is503ByMessage consentError = true.
Proof. reflexivity. Qed.

(** X17. Without consent the middleware never calls [next]: it rejects
    with the consent error and, although the message of that error
    names a 503, neither requests the modal nor reports the error.  With
    consent, an error of the wrapped call is rethrown as it is, and the
    modal is requested exactly when the message names a 503 and the
    error is not a consent error. *)
Theorem consent_middleware (now : Z) (endpoint : string)
    (next : State -> Outcome Json * State) (s : State) :
  (isApiBlocked s = true ->
     consentAwareMiddleware now endpoint next s = (Rejected consentError, s, [])
     ∧ is503ByMessage consentError = true)
  ∧ (isApiBlocked s = false ->
     ∀ e s', next s = (Rejected e, s') ->
       let r := consentAwareMiddleware now endpoint next s in
       fst (fst r) = Rejected e
       ∧ head (snd r) = Some NextCalled
       ∧ snd (fst r)
         = if (negb (isConsentError e) && is503ByMessage e)%bool
           then showApiFailureModal now [endpoint] true None s'
           else s').
Proof.
  split.
  - intros Hb. split; [| reflexivity].
    unfold consentAwareMiddleware, checkConsentMiddleware. rewrite Hb.
    unfold consentAware_catch. by rewrite consentError_is_consent.
  - intros Hb e s' Hn r. subst r.
    unfold consentAwareMiddleware, checkConsentMiddleware. rewrite Hb, Hn.
    unfold consentAware_catch.
    destruct (isConsentError e); [done |].
    by destruct (is503ByMessage e).
Qed.

Lemma consent_middleware_witness :
  consentAwareMiddleware 1000000 ABOUT failing503 revoked
  = (Rejected consentError, revoked, [])
  ∧ getModalState
      (snd (fst (consentAwareMiddleware 1000000 ABOUT failing503 init)))
    = mkModalState true [ABOUT] true None.
Proof.
  split.
  - destruct (consent_middleware 1000000 ABOUT failing503 revoked) as [H _].
    exact (proj1 (H eq_refl)).
  - destruct (consent_middleware 1000000 ABOUT failing503 init) as [_ H].
    destruct (H eq_refl _ init eq_refl) as (_ & _ & Hs).
    rewrite Hs. reflexivity.
Defined.

(** X18. A response with status 503 asks for the modal twice, the second
    time without the 503 mark: only the first request can succeed, so
    the mark stays, and the endpoint is added twice to the failed
    endpoints of the request.  Another status from 500 on adds it once
    and asks for the modal without the mark; a status below 500 changes
    nothing. *)
Theorem response_error_handling (now1 now2 : Z) (endpoint : string)
    (statusCode : Z) (failed : option (list string)) (s : State) :
  let r := handleApiErrorInResponse now1 now2 endpoint statusCode failed s in
  (statusCode = 503 ->
     fst r = Some (default [] failed ++ [endpoint; endpoint])%list
     ∧ (isVisible (getModalState s) = false ->
        modalCooldown <= now1 - lastModalShowTime (modal s) ->
        getModalState (snd r) = mkModalState true [endpoint] true None
        ∧ snd r = showApiFailureModal now1 [endpoint] true None s))
  ∧ (500 <= statusCode -> statusCode ≠ 503 ->
     fst r = Some (default [] failed ++ [endpoint])%list
     ∧ snd r = showApiFailureModal now2 [endpoint] false None s)
  ∧ (statusCode < 500 -> r = (failed, s)).
Proof.
  intros r. subst r. unfold handleApiErrorInResponse. split; [| split].
  - intros ->. cbn. split; [by rewrite <- app_assoc |].
    intros Hv Hc.
    assert (showApiFailureModal now1 [endpoint] true None s
            = with_modal
                (mkModal (mkModalState true [endpoint] true None) now1
                         (S (notifications (modal s)))) s) as Hshow.
    { unfold showApiFailureModal. unfold getModalState in Hv. rewrite Hv.
      by destruct (Z.ltb_spec (now1 - lastModalShowTime (modal s)) modalCooldown);
        [lia |]. }
    rewrite Hshow. split; done.
  - intros Hge Hne.
    destruct (Z.eqb_spec statusCode 503); [done |].
    destruct (Z.geb_spec statusCode 500); [done | lia].
  - intros Hlt.
    destruct (Z.eqb_spec statusCode 503); [lia |].
    destruct (Z.geb_spec statusCode 500); [lia | done].
Qed.

Lemma response_error_handling_witness :
  fst (handleApiErrorInResponse 1000000 1000001 ABOUT 503 None init)
  = Some [ABOUT; ABOUT]
  ∧ getModalState (snd (handleApiErrorInResponse 1000000 1000001 ABOUT 503 None init))
    = mkModalState true [ABOUT] true None.
Proof.
  destruct (response_error_handling 1000000 1000001 ABOUT 503 None init) as [H _].
  destruct (H eq_refl) as [H1 H2]. split; [exact H1 |].
  apply H2; [reflexivity |]. unfold modalCooldown. simpl. lia.
Defined.

End MiddlewareFacts.

(** ** The token in storage *)

Module JwtFacts2.
Import Jwt Scenario Scenario2.

(** X19. A token that [setToken] has written to the storage is found
    again by a manager that starts later from the same storage, as long
    as it has not expired, and after [clearToken] it is not.  When the
    write throws, which [setToken] catches, the token is held in memory
    only: the manager yields it until it expires, the storage is as it
    was, and a manager that starts later finds what the storage held
    before.  Where there is no storage a manager that starts later has no
    token. *)
Theorem token_survives_restart (tokenData : JWTToken) (m : Manager) (now : Z) :
  (∀ items, localStorage m = Some items ->
     (now <= expiresAt tokenData ->
        fst (getToken now
               (loadStoredToken now
                  (mkManager None (localStorage (setToken tokenData false m)))))
        = Some (token tokenData))
     ∧ current (loadStoredToken now
                  (mkManager None
                     (localStorage (clearToken (setToken tokenData false m)))))
       = None
     ∧ fst (getToken now (setToken tokenData true m))
       = (if (expiresAt tokenData <? now)%Z then None else Some (token tokenData))
     ∧ localStorage (setToken tokenData true m) = Some items
     ∧ (items !! STORAGE_KEY = None ->
        current (loadStoredToken now
                   (mkManager None (localStorage (setToken tokenData true m))))
        = None))
  ∧ (localStorage m = None ->
     ∀ setItemThrows,
       fst (getToken now (setToken tokenData setItemThrows m))
       = (if (expiresAt tokenData <? now)%Z then None else Some (token tokenData))
       ∧ current (loadStoredToken now
                    (mkManager None
                       (localStorage (setToken tokenData setItemThrows m)))) = None).
Proof.
  split.
  - intros items Hs. split; [| split; [| split; [| split]]].
    + intros Hle. unfold setToken, loadStoredToken. rewrite Hs. cbn.
      rewrite lookup_insert_eq.
      destruct (Z.ltb_spec (expiresAt tokenData) now); [lia |].
      unfold getToken. cbn.
      by destruct (Z.ltb_spec (expiresAt tokenData) now); [lia |].
    + unfold setToken, clearToken, loadStoredToken. rewrite Hs. cbn.
      by rewrite lookup_delete_eq.
    + unfold getToken, setToken. cbn.
      by destruct (expiresAt tokenData <? now)%Z.
    + done.
    + intros Hnone. unfold setToken, loadStoredToken. cbn. by rewrite Hs, Hnone.
  - intros Hs setItemThrows. split.
    + unfold getToken, setToken. cbn.
      by destruct (expiresAt tokenData <? now)%Z.
    + unfold setToken, loadStoredToken. cbn. rewrite Hs. by destruct setItemThrows.
Qed.

Lemma token_survives_restart_witness :
  fst (getToken 1500000
         (loadStoredToken 1500000 (mkManager None (localStorage signedIn))))
  = Some "abc.def.ghi"
  ∧ fst (getToken 1500000 (setToken aToken true (mkManager None (Some ∅))))
    = Some "abc.def.ghi"
  ∧ current (loadStoredToken 1500000
               (mkManager None
                  (localStorage (setToken aToken true (mkManager None (Some ∅))))))
    = None.
Proof.
  destruct (token_survives_restart aToken (mkManager None (Some ∅)) 1500000)
    as [H _].
  destruct (H ∅ eq_refl) as (Hget & _ & Hmem & _ & Hlater).
  split; [apply Hget; simpl; lia |]. split; [exact Hmem |].
  apply Hlater. reflexivity.
Defined.

(** X20. A token whose string is empty and that has not expired makes
    the manager authenticated, while no [Authorization] header is
    built for it. *)
Theorem empty_token_authenticated_without_header (now : Z) (m : Manager)
    (t : JWTToken) :
  current m = Some t ->
  token t = "" ->
  now <= expiresAt t ->
  fst (isAuthenticated now m) = true ∧ fst (getAuthHeaders now m) = [].
Proof.
  intros Hc Ht Hle. unfold isAuthenticated, getAuthHeaders, getToken. rewrite Hc.
  destruct (Z.ltb_spec (expiresAt t) now); [lia |]. by rewrite Ht.
Qed.

Lemma empty_token_authenticated_without_header_witness :
  fst (isAuthenticated 1500000 (setToken emptyToken false (mkManager None None))) = true
  ∧ fst (getAuthHeaders 1500000 (setToken emptyToken false (mkManager None None))) = [].
Proof.
  apply (empty_token_authenticated_without_header 1500000
           (setToken emptyToken false (mkManager None None)) emptyToken);
    [reflexivity | reflexivity | simpl; lia].
Defined.

End JwtFacts2.

(** ** The home page cache *)

Module HomePageCacheFacts.
Import Js HomePageCache Scenario.

Lemma clearExpired_Some (now : Z) (cache : gmap string Entry) (k : string) (e : Entry) :
  clearExpired now cache !! k = Some e
  <-> cache !! k = Some e ∧ now - timestamp e <= CACHE_DURATION.
Proof.
  unfold clearExpired. rewrite map_lookup_filter_Some. simpl. split.
  - intros [H1 H2]. split; [done | lia].
  - intros [H1 H2]. split; [done | lia].
Qed.

(** X21. [clearExpired] cannot be told from the outside by [get]: a
    read, at the time of the sweep or later, returns the same with and
    without the sweep before it; and a read at the time of the sweep
    finds nothing left to delete. *)
Theorem sweep_is_unobservable (now now' : Z) (key : string)
    (cache : gmap string Entry) :
  now <= now' ->
  fst (get now' key (clearExpired now cache)) = fst (get now' key cache)
  ∧ snd (get now key (clearExpired now cache)) = clearExpired now cache.
Proof.
  intros Hle. unfold get.
  destruct (clearExpired now cache !! key) as [e|] eqn:Hc.
  - apply clearExpired_Some in Hc as [Hk Hn]. rewrite Hk. split.
    + by destruct (now' - timestamp e >? CACHE_DURATION)%Z.
    + by destruct (Z.gtb_spec (now - timestamp e) CACHE_DURATION); [lia |].
  - split; [| done].
    destruct (cache !! key) as [e|] eqn:Hk; [| done].
    destruct (Z.gtb_spec (now' - timestamp e) CACHE_DURATION) as [Hgt | Hng]; [done |].
    assert (clearExpired now cache !! key = Some e) as Hs
      by (apply clearExpired_Some; split; [done | lia]).
    congruence.
Qed.

Lemma sweep_is_unobservable_witness :
  filled !! "services_data" = Some (mkEntry servicesData 1000000)
  ∧ clearExpired 1300001 filled !! "services_data" = None
  ∧ fst (get 1300001 "services_data" (clearExpired 1300001 filled))
    = fst (get 1300001 "services_data" filled)
  ∧ fst (get 1300001 "services_data" filled) = JNull
  ∧ snd (get 1300001 "services_data" (clearExpired 1300001 filled))
    = clearExpired 1300001 filled
  ∧ fst (get 1300000 "services_data" (clearExpired 1200000 filled))
    = fst (get 1300000 "services_data" filled)
  ∧ fst (get 1300000 "services_data" filled) = servicesData.
Proof.
  split; [reflexivity |]. split; [reflexivity |].
  destruct (sweep_is_unobservable 1300001 1300001 "services_data" filled) as [H1 H2];
    [lia |].
  split; [exact H1 |]. split; [reflexivity |]. split; [exact H2 |].
  destruct (sweep_is_unobservable 1200000 1300000 "services_data" filled) as [H3 _];
    [lia |].
  split; [exact H3 | reflexivity].
Defined.

End HomePageCacheFacts.

(** ** Configuration *)

Module ConfigFacts.
Import Js Config Scenario2.

Lemma hasProtocol_nonempty (url : string) : hasProtocol url = true -> url ≠ "".
Proof. by intros H ->. Qed.

Lemma hasProtocol_http (url : string) : hasProtocol ("http://" ++ url) = true.
Proof.
  unfold hasProtocol.
  change (toLowerCase ("http://" ++ url)) with ("http://" ++ toLowerCase url).
  by destruct (toLowerCase url).
Qed.

(** X22. Whatever the environment holds, the API URL of the
    configuration is not empty and starts with [http://] or [https://],
    in any case of the letters; a configured URL that has such a start
    is taken as it is. *)
Theorem api_url_has_protocol (env : Env) :
  hasProtocol (API_URL env) = true
  ∧ API_URL env ≠ ""
  ∧ (hasProtocol (getEnvVar env "VITE_API_URL") = true ->
     API_URL env = getEnvVar env "VITE_API_URL").
Proof.
  assert (hasProtocol (API_URL env) = true) as Hp.
  { unfold API_URL. cbv zeta.
    set (url := if negb (String.eqb (getEnvVar env "VITE_API_URL") "") then _ else _).
    destruct (hasProtocol url) eqn:Hu.
    - by rewrite andb_false_r.
    - assert (String.eqb url "" = false) as ->.
      { subst url.
        destruct (String.eqb (getEnvVar env "VITE_API_URL") "") eqn:E1; [| done].
        cbn [negb].
        by destruct (String.eqb (getEnvVar env "VITE_API_BASE_URL") "") eqn:E2. }
      cbn [negb andb]. apply hasProtocol_http. }
  split; [done |]. split; [by apply hasProtocol_nonempty |].
  intros H. unfold API_URL. cbv zeta.
  pose proof (hasProtocol_nonempty _ H) as Hne.
  apply String.eqb_neq in Hne. rewrite Hne. cbn [negb]. by rewrite Hne, H.
Qed.

Lemma api_url_has_protocol_witness :
  hasProtocol (getEnvVar serverEnv "VITE_API_URL") = true
  ∧ API_URL serverEnv = getEnvVar serverEnv "VITE_API_URL".
Proof.
  split; [reflexivity |].
  destruct (api_url_has_protocol serverEnv) as (_ & _ & H).
  apply H. reflexivity.
Defined.

End ConfigFacts.

(** ** What a request does besides answering *)

Module EffectFacts.
Import Js Exec Scenario Scenario2.

Lemma handleErrorResponse_effects (r : Response) :
  (status r =? 503)%Z = false ->
  snd (handleErrorResponse r) = []
  ∨ (snd (handleErrorResponse r) = [RedirectToSignin]
     ∧ status r = 403 ∧ ∃ d, r_body r = Some d ∧ d ≠ JNull).
Proof.
  intros H503. unfold handleErrorResponse, handleErrorResponse_catch.
  destruct (r_body r) as [d|] eqn:Hb; [| rewrite H503; by left].
  destruct d as [| b | n | str | items | fields]; [rewrite H503; by left | ..];
    rewrite H503;
    (destruct (Z.eqb_spec (status r) 403) as [H403 | H403];
     [right; split; [done |]; split; [done |]; eexists; split; [done | discriminate] |]);
    (destruct (status r =? 429)%Z; [by left |]);
    repeat case_match; simpl; auto.
Qed.

Lemma executeRequest_catch_effects (isConnectionError is503Error : Error -> bool)
    (error : Error) (effs : list Effect) :
  snd (executeRequest_catch isConnectionError is503Error error effs) = effs
  ∨ snd (executeRequest_catch isConnectionError is503Error error effs)
    = (effs ++ [SetGlobal503Status true])%list.
Proof.
  unfold executeRequest_catch.
  destruct (isConnectionError error); [by right |].
  destruct (is503Error error); [by right | by left].
Qed.

(** What [executeRequest] does besides answering, once [fetch] has
    been called. *)
Lemma executeRequest_effects (isConnectionError is503Error : Error -> bool)
    (f : FetchResult) (eff : Effect) :
  eff ∈ snd (executeRequest isConnectionError is503Error f) ->
  eff = SetGlobal503Status true
  ∨ (eff = RedirectToSignin
     ∧ ∃ r d, f = FetchResponse r ∧ status r = 403 ∧ redirected r = false
              ∧ r_body r = Some d ∧ d ≠ JNull).
Proof.
  assert (∀ error effs,
            (∀ x, x ∈ effs -> x = SetGlobal503Status true
                             ∨ (x = RedirectToSignin
                                ∧ ∃ r d, f = FetchResponse r ∧ status r = 403
                                         ∧ redirected r = false
                                         ∧ r_body r = Some d ∧ d ≠ JNull)) ->
            eff ∈ snd (executeRequest_catch isConnectionError is503Error error effs) ->
            eff = SetGlobal503Status true
            ∨ (eff = RedirectToSignin
               ∧ ∃ r d, f = FetchResponse r ∧ status r = 403 ∧ redirected r = false
                        ∧ r_body r = Some d ∧ d ≠ JNull)) as Hcatch.
  { intros error effs Heffs.
    destruct (executeRequest_catch_effects isConnectionError is503Error error effs)
      as [-> | ->]; [apply Heffs |].
    rewrite elem_of_app, elem_of_cons. intros [H | [-> | H]];
      [by apply Heffs | by left | by apply elem_of_nil in H]. }
  assert (∀ x : Effect, x ∈ @nil Effect -> x = SetGlobal503Status true
                        ∨ (x = RedirectToSignin
                           ∧ ∃ r d, f = FetchResponse r ∧ status r = 403
                                    ∧ redirected r = false
                                    ∧ r_body r = Some d ∧ d ≠ JNull)) as Hnil
    by (intros x H; by apply elem_of_nil in H).
  assert (∀ x : Effect, x ∈ [SetGlobal503Status true] -> x = SetGlobal503Status true
                        ∨ (x = RedirectToSignin
                           ∧ ∃ r d, f = FetchResponse r ∧ status r = 403
                                    ∧ redirected r = false
                                    ∧ r_body r = Some d ∧ d ≠ JNull)) as Hone.
  { intros x H. apply elem_of_cons in H as [-> | H]; [by left |].
    by apply elem_of_nil in H. }
  unfold executeRequest.
  destruct (tryFetch f) as [r' | fetchError] eqn:Hf; [| by apply Hcatch].
  destruct (ok r').
  { destruct (r_body r'); [intros H; by apply elem_of_nil in H | by apply Hcatch]. }
  destruct (status r' =? 503)%Z eqn:H503.
  { destruct (r_body r'); [apply Hone | by apply Hcatch]. }
  destruct (handleErrorResponse r') as [msg effs] eqn:Hh.
  apply Hcatch. intros x Hx.
  destruct (handleErrorResponse_effects r' H503) as [He | (He & H403 & d & Hb & Hd)];
    rewrite Hh in He; simpl in He; subst effs; [by apply elem_of_nil in Hx |].
  apply elem_of_cons in Hx as [-> | Hx]; [| by apply elem_of_nil in Hx].
  right. split; [done |].
  destruct f as [r | e]; simpl in Hf.
  - destruct (redirected r || _)%bool eqn:Hr.
    + injection Hf as <-. simpl in H403. lia.
    + injection Hf as <-. exists r, d. apply orb_false_elim in Hr as [Hr _]. done.
  - repeat case_match; try discriminate; injection Hf as <-; simpl in H403; lia.
Qed.

(** X23. Besides answering, [executeRequest] reads the token, sets the
    global 503 status and redirects to the sign-in page, and nothing
    else.  It never resets the status, it never reports an error to the
    error handler (the 503 branches of [handleErrorResponse] are out of
    reach, a 503 answer being dealt with before), and it redirects only
    for an answer of status 403, not redirected, with a JSON body other
    than [null].  Without [requireAuth] the token manager is left alone.
    With it, a token that has not expired is left where it is; an
    expired or absent token is cleared, from the storage too, and the
    request is sent all the same, without the [Authorization] header. *)
Theorem request_effects (isConnectionError is503Error : Error -> bool)
    (requireAuth : bool) (now : Z)
    (fetch : list (string * string) -> FetchResult) (jwtAuth : Jwt.Manager) :
  let r := Request.executeRequest isConnectionError is503Error requireAuth now fetch
             jwtAuth in
  (∀ eff, eff ∈ snd (fst r) ->
     eff = SetGlobal503Status true
     ∨ (eff = RedirectToSignin
        ∧ ∃ headers a d, fetch headers = FetchResponse a ∧ status a = 403
                         ∧ redirected a = false ∧ r_body a = Some d ∧ d ≠ JNull))
  ∧ (requireAuth = false ->
     r = (executeRequest isConnectionError is503Error (fetch []), jwtAuth))
  ∧ (requireAuth = true ->
     (∀ t, Jwt.current jwtAuth = Some t -> now <= Jwt.expiresAt t ->
        r = (executeRequest isConnectionError is503Error
               (fetch (if String.eqb (Jwt.token t) "" then []
                       else [("Authorization", "Bearer " ++ Jwt.token t)])),
             jwtAuth))
     ∧ ((Jwt.current jwtAuth = None
         ∨ ∃ t, Jwt.current jwtAuth = Some t ∧ Jwt.expiresAt t < now) ->
        r = (executeRequest isConnectionError is503Error (fetch []),
             Jwt.clearToken jwtAuth))).
Proof.
  intros r. subst r. unfold Request.executeRequest.
  split; [| split].
  - intros eff.
    destruct (if requireAuth then Jwt.getAuthHeaders now jwtAuth else ([], jwtAuth))
      as [authHeaders jwtAuth'].
    pose proof (executeRequest_effects isConnectionError is503Error
                  (fetch authHeaders) eff) as H.
    destruct (executeRequest isConnectionError is503Error (fetch authHeaders))
      as [out effs].
    cbn [fst snd] in *. intros Hin.
    destruct (H Hin) as [-> | (-> & a & d & Hf & Hrest)]; [by left |].
    right. split; [done |]. by exists authHeaders, a, d.
  - intros ->.
    by destruct (executeRequest isConnectionError is503Error (fetch [])).
  - intros ->. unfold Jwt.getAuthHeaders, Jwt.getToken. split.
    + intros t Hc Hle. rewrite Hc.
      destruct (Z.ltb_spec (Jwt.expiresAt t) now); [lia |].
      by destruct (executeRequest isConnectionError is503Error _).
    + intros [Hc | (t & Hc & Hlt)]; rewrite Hc.
      * by destruct (executeRequest isConnectionError is503Error _).
      * destruct (Z.ltb_spec (Jwt.expiresAt t) now); [| lia].
        by destruct (executeRequest isConnectionError is503Error _).
Qed.

Lemma request_effects_witness :
  snd (fst (Request.executeRequest noConnectionError no503Error false 1500000
              fetch403 signedIn)) = [RedirectToSignin]
  ∧ Request.executeRequest noConnectionError no503Error true 1500000 fetch200 signedIn
    = (executeRequest noConnectionError no503Error
         (fetch200 [("Authorization", "Bearer abc.def.ghi")]), signedIn)
  ∧ Request.executeRequest noConnectionError no503Error true 2000001 fetch200 signedIn
    = (executeRequest noConnectionError no503Error (fetch200 []),
       Jwt.clearToken signedIn)
  ∧ Jwt.localStorage (Jwt.clearToken signedIn) = Some ∅.
Proof.
  split; [| split; [| split]].
  - destruct (request_effects noConnectionError no503Error false 1500000
                fetch403 signedIn) as (Heff & _).
    assert (RedirectToSignin
            ∈ snd (fst (Request.executeRequest noConnectionError no503Error false
                          1500000 fetch403 signedIn))) as H
      by (apply elem_of_cons; by left).
    destruct (Heff RedirectToSignin H) as [Hc | [_ _]];
      [discriminate Hc | reflexivity].
  - destruct (request_effects noConnectionError no503Error true 1500000
                fetch200 signedIn) as (_ & _ & Hauth).
    destruct (Hauth eq_refl) as [Hvalid _].
    apply (Hvalid aToken eq_refl). simpl. lia.
  - destruct (request_effects noConnectionError no503Error true 2000001
                fetch200 signedIn) as (_ & _ & Hauth).
    destruct (Hauth eq_refl) as [_ Hexpired].
    apply Hexpired. right. exists aToken. split; [reflexivity | simpl; lia].
  - reflexivity.
Defined.

End EffectFacts.

(** ** The URL of a request *)

Module UrlFacts.
Import Url Scenario2.

Lemma trim_slash (base : string) :
  trimTrailingSlashes (base ++ "/") = trimTrailingSlashes base.
Proof.
  induction base as [|c base IH]; [reflexivity |].
  change (String c base ++ "/") with (String c (base ++ "/")).
  cbn [trimTrailingSlashes]. by rewrite IH.
Qed.

Lemma trim_idempotent (base : string) :
  trimTrailingSlashes (trimTrailingSlashes base) = trimTrailingSlashes base.
Proof.
  induction base as [|c base IH]; [reflexivity |].
  cbn [trimTrailingSlashes].
  destruct (Ascii.eqb c "/" && String.eqb (trimTrailingSlashes base) "")%bool eqn:E;
    [reflexivity |].
  cbn [trimTrailingSlashes]. by rewrite IH, E.
Qed.

(** X24. The URL of a request does not depend on the slashes at the end
    of the base URL, nor on whether the endpoint is given with its
    leading slash: it is the base without them, then the endpoint with
    it. *)
Theorem url_slash_insensitive (base ep : string) :
  buildUrl (base ++ "/") ep = buildUrl base ep
  ∧ buildUrl (trimTrailingSlashes base) ep = buildUrl base ep
  ∧ (String.prefix "/" ep = false -> buildUrl base ("/" ++ ep) = buildUrl base ep)
  ∧ ∃ path, buildUrl base ep = trimTrailingSlashes base ++ "/" ++ path.
Proof.
  unfold buildUrl. rewrite trim_slash, trim_idempotent.
  split; [done |]. split; [done |]. split.
  - intros ->. by destruct ep.
  - destruct ep as [|c ep]; [by exists "" |].
    cbn [String.prefix]. destruct (ascii_dec "/" c) as [<- | Hne].
    + exists ep. by destruct ep.
    + by exists (String c ep).
Qed.

Lemma url_slash_insensitive_witness :
  buildUrl "https://api.packmovego.com//" "/v0/about"
  = buildUrl "https://api.packmovego.com//" "v0/about".
Proof.
  destruct (url_slash_insensitive "https://api.packmovego.com//" "v0/about")
    as (_ & _ & H & _).
  apply H. reflexivity.
Defined.

End UrlFacts.

(** ** Public requests and the notifier; tracked calls *)

Module PublicFacts.
Import Js ApiSW ApiDirect ApiRun Tracking Scenario Scenario2 NotifierFacts GateFacts
       BreakerFacts BlockFacts TrackingFacts.

Lemma show_modal_congr (now : Z) (failed : list string) (is503 : bool)
    (cb : option nat) (s s' : State) :
  modal s = modal s' ->
  modal (showApiFailureModal now failed is503 cb s)
  = modal (showApiFailureModal now failed is503 cb s').
Proof.
  intros H. unfold showApiFailureModal. rewrite H.
  destruct (isVisible _); [done |]. by destruct (_ <? _)%Z.
Qed.

(** The notifier after the gates have rejected a call on account of the
    global block or of the circuit breaker. *)
Lemma gates_modal (isPublic : bool) (endpoint : string) (options : RequestInit)
    (now : Z) (s0 : State) (e : Error) :
  fst (gates isPublic endpoint options now s0) = inr (Threw e) ->
  e_isGlobalBlock e = true ∨ e_isCircuitBreaker e = true ->
  modal (snd (gates isPublic endpoint options now s0))
  = if isPublic then modal s0
    else modal (showApiFailureModal now [endpoint] true None s0).
Proof.
  unfold gates.
  pose proof (isGlobalRequestBlocked_fields now s0) as F1.
  destruct (isGlobalRequestBlocked now s0) as [blocked s1].
  simpl in F1. destruct F1 as (G1 & C1 & M1 & H1 & B1 & R1 & P1 & N1).
  destruct blocked.
  { intros _ _. simpl. destruct isPublic; [done | by apply show_modal_congr]. }
  pose proof (isEndpointInCircuitBreaker_fields now endpoint s1) as F2.
  destruct (isEndpointInCircuitBreaker now endpoint s1) as [tripped s2].
  simpl in F2. destruct F2 as (G2 & C2 & M2 & H2 & K2 & R2 & P2 & N2).
  destruct tripped.
  { intros _ _. simpl. destruct isPublic; [congruence |].
    apply show_modal_congr. congruence. }
  destruct (isApiBlocked s2).
  { simpl. intros [= <-] [H | H]; discriminate H. }
  destruct (checkApiHealth_enter now s2) as [[ok|] s3]; [| discriminate].
  destruct ok; unfold verdict.
  - rewrite launch_eq. discriminate.
  - simpl. intros [= <-] [H | H]; discriminate H.
Qed.

(** X25. A public request that the global block or the circuit breaker
    rejects leaves the failure notifier as it is, where the same request
    through [makeRequest] asks for the modal. *)
Theorem public_rejection_is_silent (isPublic : bool) (endpoint : string)
    (options : RequestInit) (now : Z) (probe : Probe) (s : State) (e : Error) :
  endpoint ≠ HEALTH ->
  global503Status s = false ->
  pendingRequests (registry s) !! getRequestKey endpoint options = None ->
  fst (requestInternal isPublic endpoint options now probe s) = Threw e ->
  e_isGlobalBlock e = true ∨ e_isCircuitBreaker e = true ->
  modal (snd (requestInternal isPublic endpoint options now probe s))
  = if isPublic then modal s
    else modal (showApiFailureModal now [endpoint] true None s).
Proof.
  intros Hne Hg Hp.
  rewrite (call_through_gates isPublic endpoint options now probe s Hg Hp Hne).
  cbv zeta.
  pose proof (gates_modal isPublic endpoint options now (trackApiCall endpoint s)) as GM.
  pose proof (trackApiCall_fields endpoint s) as (_ & _ & Tm & _).
  destruct (gates isPublic endpoint options now (trackApiCall endpoint s)) as [x g].
  simpl in GM.
  destruct x as [[] | [e' | q |]].
  - change (exitOf (inl (), g)) with AwaitHealth. cbn [fst snd].
    destruct (runProbe probe g) as [answer s4].
    destruct (checkApiHealth_resume answer s4) as [ok s5]. cbn [fst snd].
    destruct ok; unfold verdict.
    + rewrite launch_eq, exitOf_inr. discriminate.
    + rewrite exitOf_inr. intros [= <-] [H | H]; discriminate H.
  - rewrite exitOf_inr. cbn [fst snd]. intros [= <-] He.
    rewrite (GM e' eq_refl He). destruct isPublic; [done |].
    by apply show_modal_congr.
  - rewrite exitOf_inr. discriminate.
  - rewrite exitOf_inr. cbn [fst snd].
    destruct (runProbe probe g) as [answer s4].
    destruct (checkApiHealth_resume answer s4) as [ok s5]. cbn [fst snd].
    destruct ok; unfold verdict.
    + rewrite launch_eq, exitOf_inr. discriminate.
    + rewrite exitOf_inr. intros [= <-] [H | H]; discriminate H.
Qed.

Lemma public_rejection_is_silent_witness :
  modal (snd (requestInternal true ABOUT noOptions 1010000 healthy afterOutage))
  = modal afterOutage.
Proof.
  apply (public_rejection_is_silent true ABOUT noOptions 1010000 healthy afterOutage
           globalBlockError).
  - discriminate.
  - reflexivity.
  - reflexivity.
  - reflexivity.
  - by left.
Defined.

Lemma show_calls (now : Z) (failed : list string) (is503 : bool) (cb : option nat)
    (s : State) :
  pageApiCalls (showApiFailureModal now failed is503 cb s) = pageApiCalls s.
Proof.
  unfold showApiFailureModal. destruct (isVisible _); [done |]. by destruct (_ <? _)%Z.
Qed.

Lemma gates_calls (isPublic : bool) (endpoint : string) (options : RequestInit)
    (now : Z) (s0 : State) :
  pageApiCalls (snd (gates isPublic endpoint options now s0)) = pageApiCalls s0.
Proof.
  unfold gates.
  assert (pageApiCalls (snd (isGlobalRequestBlocked now s0)) = pageApiCalls s0) as C1.
  { unfold isGlobalRequestBlocked. destruct (negb _); [done |].
    by destruct (_ >? _)%Z. }
  destruct (isGlobalRequestBlocked now s0) as [blocked s1]. simpl in C1.
  destruct blocked.
  { simpl. destruct isPublic; [done | by rewrite show_calls]. }
  assert (pageApiCalls (snd (isEndpointInCircuitBreaker now endpoint s1))
          = pageApiCalls s1) as C2.
  { unfold isEndpointInCircuitBreaker. destruct (negb _); [done |].
    by destruct (_ >? _)%Z. }
  destruct (isEndpointInCircuitBreaker now endpoint s1) as [tripped s2]. simpl in C2.
  destruct tripped.
  { simpl. destruct isPublic; [congruence | rewrite show_calls; congruence]. }
  destruct (isApiBlocked s2); [simpl; congruence |].
  assert (pageApiCalls (snd (checkApiHealth_enter now s2)) = pageApiCalls s2) as C3.
  { unfold checkApiHealth_enter. destruct (apiIsDown (health s2)).
    - destruct (_ <? _)%Z; [done |]. simpl.
      by destruct (healthCheckInProgress (health s2)).
    - by destruct (healthCheckInProgress (health s2)). }
  destruct (checkApiHealth_enter now s2) as [[ok|] s3]; simpl in C3; [| simpl; congruence].
  destruct ok; unfold verdict.
  - rewrite launch_eq. simpl. congruence.
  - simpl. rewrite show_calls. simpl. congruence.
Qed.

Lemma verdict_calls (isPublic : bool) (endpoint : string) (options : RequestInit)
    (now : Z) (ok : bool) (s : State) :
  pageApiCalls (snd (verdict isPublic endpoint options now ok s)) = pageApiCalls s.
Proof.
  unfold verdict. destruct ok; [by rewrite launch_eq |].
  simpl. by rewrite show_calls.
Qed.

Lemma track_calls_congr (endpoint : string) (s s' : State) :
  pageApiCalls s = pageApiCalls s' ->
  pageApiCalls (trackApiCall endpoint s) = pageApiCalls (trackApiCall endpoint s').
Proof.
  intros H. unfold trackApiCall. rewrite H.
  by destruct (existsb _ _).
Qed.

Lemma runProbe_calls (probe : Probe) (s : State) :
  pageApiCalls (snd (runProbe probe s)) = pageApiCalls s
  ∨ pageApiCalls (snd (runProbe probe s)) = pageApiCalls (trackApiCall HEALTH s).
Proof.
  destruct probe as [hasError | tries answer sets503 elapsed]; [by left |].
  right. simpl. by destruct sets503.
Qed.

Lemma resume_calls (answer : HealthAnswer) (s : State) :
  pageApiCalls (snd (checkApiHealth_resume answer s)) = pageApiCalls s.
Proof. by destruct answer as [[]|]. Qed.

(** The tracked calls after a call: its endpoint has been tracked, and
    the health endpoint if the health check asked the backend. *)
Lemma call_calls (isPublic : bool) (endpoint : string) (options : RequestInit)
    (now : Z) (probe : Probe) (s : State) :
  let r := requestInternal isPublic endpoint options now probe s in
  pageApiCalls (snd r) = pageApiCalls (trackApiCall endpoint s)
  ∨ pageApiCalls (snd r) = pageApiCalls (trackApiCall HEALTH (trackApiCall endpoint s)).
Proof.
  intros r. subst r.
  destruct (global503Status s) eqn:Hg.
  { rewrite (enter_global503 isPublic endpoint options now probe s Hg). simpl.
    left. apply show_calls. }
  destruct (pendingRequests (registry s) !! getRequestKey endpoint options)
    as [q|] eqn:Hp.
  { rewrite (enter_pending isPublic endpoint options now probe s q Hg Hp). by left. }
  destruct (decide (endpoint = HEALTH)) as [-> | Hne].
  { unfold requestInternal.
    rewrite (enter_health isPublic options now s Hg Hp), launch_eq. by left. }
  rewrite (call_through_gates isPublic endpoint options now probe s Hg Hp Hne).
  cbv zeta.
  pose proof (gates_calls isPublic endpoint options now (trackApiCall endpoint s)) as GC.
  destruct (gates isPublic endpoint options now (trackApiCall endpoint s)) as [x g].
  simpl in GC.
  assert (pageApiCalls
            (snd (let '(answer, s4) := runProbe probe g in
                  let '(ok, s5) := checkApiHealth_resume answer s4 in
                  let r := verdict isPublic endpoint options
                             (now + probeElapsed probe) ok s5 in
                  (exitOf r, snd r)))
          = pageApiCalls (trackApiCall endpoint s)
          ∨ pageApiCalls
              (snd (let '(answer, s4) := runProbe probe g in
                    let '(ok, s5) := checkApiHealth_resume answer s4 in
                    let r := verdict isPublic endpoint options
                               (now + probeElapsed probe) ok s5 in
                    (exitOf r, snd r)))
            = pageApiCalls (trackApiCall HEALTH (trackApiCall endpoint s))) as Hprobe.
  { pose proof (runProbe_calls probe g) as RC.
    destruct (runProbe probe g) as [answer s4]. simpl in RC.
    pose proof (resume_calls answer s4) as SC.
    destruct (checkApiHealth_resume answer s4) as [ok s5]. simpl in SC.
    cbn [snd]. rewrite verdict_calls, SC.
    destruct RC as [-> | ->]; [left; congruence |].
    right. apply track_calls_congr. congruence. }
  destruct x as [[] | [e' | q |]]; [exact Hprobe | | | exact Hprobe].
  - rewrite exitOf_inr. by left.
  - rewrite exitOf_inr. by left.
Qed.

Lemma track_elem (endpoint x : string) (s : State) :
  x ∈ pageApiCalls (trackApiCall endpoint s) <-> x ∈ pageApiCalls s ∨ x = endpoint.
Proof.
  unfold trackApiCall. destruct (existsb _ _) eqn:E.
  - apply existsb_eqb_elem in E. split; [by left |]. by intros [? | ->].
  - simpl. rewrite elem_of_app, elem_of_cons. pose proof (elem_of_nil x). tauto.
Qed.

Lemma track_NoDup (endpoint : string) (s : State) :
  NoDup (pageApiCalls s) -> NoDup (pageApiCalls (trackApiCall endpoint s)).
Proof.
  intros H. unfold trackApiCall. destruct (existsb _ _) eqn:E; [done |].
  simpl. apply NoDup_app. split; [done |]. split; [| apply NoDup_singleton].
  intros x Hx. rewrite elem_of_cons. intros [-> | Hn]; [| by apply elem_of_nil in Hn].
  apply existsb_eqb_elem in Hx. congruence.
Qed.

(** X26. Every call is tracked, whatever becomes of it: afterwards the
    tracked calls hold its endpoint together with all that were tracked
    before, and nothing else but the health endpoint; and no endpoint is
    listed twice if none was. *)
Theorem every_call_is_tracked (isPublic : bool) (endpoint : string)
    (options : RequestInit) (now : Z) (probe : Probe) (s : State) :
  let calls := pageApiCalls (snd (requestInternal isPublic endpoint options now probe s)) in
  endpoint ∈ calls
  ∧ (∀ x, x ∈ pageApiCalls s -> x ∈ calls)
  ∧ (∀ x, x ∈ calls -> x ∈ pageApiCalls s ∨ x = endpoint ∨ x = HEALTH)
  ∧ (NoDup (pageApiCalls s) -> NoDup calls).
Proof.
  intros calls. subst calls.
  destruct (call_calls isPublic endpoint options now probe s) as [-> | ->].
  - split; [apply track_elem; by right |].
    split; [intros x Hx; apply track_elem; by left |].
    split; [intros x Hx; apply track_elem in Hx; tauto |].
    apply track_NoDup.
  - split; [apply track_elem; left; apply track_elem; by right |].
    split; [intros x Hx; apply track_elem; left; apply track_elem; by left |].
    split; [intros x Hx; apply track_elem in Hx as [Hx | ->];
            [apply track_elem in Hx; tauto | tauto] |].
    intros H. by apply track_NoDup, track_NoDup.
Qed.

Lemma every_call_is_tracked_witness :
  NoDup (pageApiCalls (snd (requestInternal false ABOUT noOptions 1010000 healthy
                              afterOutage))).
Proof.
  apply (every_call_is_tracked false ABOUT noOptions 1010000 healthy afterOutage).
  apply (bool_decide_eq_true_1 (NoDup (pageApiCalls afterOutage))). reflexivity.
Defined.

End PublicFacts.

(** ** The global health check *)

Module GlobalCheckFacts.
Import Js ApiSW ApiRun GlobalCheck Scenario Scenario2.

Lemma run_keeps_promise (op : Op) (c : Checker) (promise : nat) :
  global503CheckPromise c = Some promise ->
  global503CheckPromise (run c op) = Some promise
  ∧ resolved (run c op) = resolved c
  ∧ checks (run c op) = checks c
  ∧ (∀ probe, op = OpPerform probe -> run c op = c).
Proof.
  intros H. destruct op as [probe | status | op']; simpl.
  - unfold performGlobalHealthCheck. rewrite H. simpl.
    split; [done |]. split; [done |]. split; [done |]. done.
  - split; [done |]. split; [done |]. split; [done |]. discriminate.
  - split; [done |]. split; [done |]. split; [done |]. discriminate.
Qed.

(** X27. [performGlobalHealthCheck] checks the health of the backend
    once.  The first call keeps its promise, and whatever follows, calls
    of the client, changes of the global 503 status, further calls of
    [performGlobalHealthCheck], the promise stays: every later call
    returns it, with the value it resolved with, asks the backend
    nothing and leaves the status as it finds it, until
    [resetGlobal503Status] drops the promise. *)
Theorem global_check_runs_once (probe : Probe) (c : Checker) (ops : list Op) :
  global503CheckPromise c = None ->
  let promise := fst (performGlobalHealthCheck probe c) in
  let c1 := snd (performGlobalHealthCheck probe c) in
  let c2 := foldl run c1 ops in
  promise = checks c
  ∧ resolved c1 !! promise
    = Some (match probeAnswer probe with HealthValue false => true | _ => false end)
  ∧ global503CheckPromise c2 = Some promise
  ∧ resolved c2 = resolved c1
  ∧ checks c2 = S (checks c)
  ∧ (∀ probe', performGlobalHealthCheck probe' c2 = (promise, c2))
  ∧ global503CheckPromise (resetGlobal503Status c2) = None.
Proof.
  intros Hnone promise c1 c2.
  assert (promise = checks c
          ∧ global503CheckPromise c1 = Some promise
          ∧ checks c1 = S (checks c)
          ∧ resolved c1 !! promise
            = Some (match probeAnswer probe with HealthValue false => true | _ => false end))
    as (Hp & H1 & Hc1 & Hr1).
  { subst promise c1. unfold performGlobalHealthCheck. rewrite Hnone.
    pose proof (HealthCacheFacts.runProbe_answer probe (client c)) as Ha.
    destruct (runProbe probe (client c)) as [answer s1]. simpl in Ha. subst answer.
    simpl. split; [done |]. split; [done |]. split; [done |]. apply lookup_insert_eq. }
  assert (global503CheckPromise c2 = Some promise ∧ resolved c2 = resolved c1
          ∧ checks c2 = checks c1) as (H2 & Hr2 & Hc2).
  { subst c2. clear Hr1 Hc1. revert H1. generalize c1. clear c1.
    induction ops as [|op ops IH]; intros c1 H1; simpl; [done |].
    destruct (run_keeps_promise op c1 promise H1) as (Hk & Hr & Hc & _).
    destruct (IH (run c1 op) Hk) as (? & ? & ?).
    split; [done |]. split; congruence. }
  split; [done |]. split; [done |]. split; [done |]. split; [done |].
  split; [congruence |]. split; [| done].
  intros probe'. unfold performGlobalHealthCheck. by rewrite H2.
Qed.

Lemma global_check_runs_once_witness :
  global503Status (client checkedThenDown) = true
  ∧ fst (performGlobalHealthCheck unhealthy checkedThenDown) = 0%nat
  ∧ resolved checkedThenDown !! 0%nat = Some true.
Proof.
  destruct (global_check_runs_once healthy fresh
              [OpClient (ClientOps.OpCall false ABOUT noOptions 1000000 unhealthy)]
              eq_refl) as (_ & Hr & _ & Hr2 & _ & Hperf & _).
  split; [reflexivity |]. split.
  - exact (f_equal fst (Hperf unhealthy)).
  - exact Hr.
Defined.

End GlobalCheckFacts.
